(** * Huovilainen Moog ladder filter kernel: a shallow embedding

    The development follows [huovilainenFilterKernel.c].  Every file-scope
    variable of the C translation unit is a field of [State]; every exported
    function is a state transformer with the name it has in the source.

    Numbers.  The kernel computes on C [float] and [double] values.  They are
    modelled by [flt]: exact rationals extended with the IEEE-754 special
    values (+infinity, -infinity, NaN), with the IEEE rules for the special
    values (division by zero, NaN propagation, comparisons with NaN) and exact
    arithmetic on finite values.  Rounding, overflow of finite results, signed
    zeros and the difference between the two C widths are outside the model.

    libm.  [tanh] and [exp] come from the C library, not from the kernel; the
    development is parametric in them (class [Libm]). *)

From Stdlib Require Import QArith Qabs Qminmax Qpower ZArith List Sorted Bool.
From Stdlib Require Import Lia Lqa.
Import ListNotations.

Set Implicit Arguments.

(** ** Floating-point values *)

Module Flt.

Inductive flt : Type :=
| Fin (q : Q)
| PInf
| NInf
| NaN.

Arguments Fin q%_Q.

(** The infinity (or NaN) whose sign is that of a comparison with zero. *)
Definition inf_by (c : comparison) : flt :=
  match c with
  | Eq => NaN
  | Gt => PInf
  | Lt => NInf
  end.

Definition fneg (x : flt) : flt :=
  match x with
  | Fin q => Fin (- q)
  | PInf => NInf
  | NInf => PInf
  | NaN => NaN
  end.

Definition fadd (x y : flt) : flt :=
  match x, y with
  | NaN, _ | _, NaN => NaN
  | Fin a, Fin b => Fin (a + b)
  | PInf, NInf | NInf, PInf => NaN
  | PInf, _ | _, PInf => PInf
  | NInf, _ | _, NInf => NInf
  end.

Definition fsub (x y : flt) : flt := fadd x (fneg y).

Definition fmul (x y : flt) : flt :=
  match x, y with
  | NaN, _ | _, NaN => NaN
  | Fin a, Fin b => Fin (a * b)
  | Fin a, PInf | PInf, Fin a => inf_by (a ?= 0)
  | Fin a, NInf | NInf, Fin a => inf_by (CompOpp (a ?= 0))
  | PInf, PInf | NInf, NInf => PInf
  | PInf, NInf | NInf, PInf => NInf
  end.

(** Division: a finite non-zero value over zero is an infinity, zero over
    zero is NaN, a finite value over an infinity is zero. *)
Definition fdiv (x y : flt) : flt :=
  match x, y with
  | NaN, _ | _, NaN => NaN
  | Fin a, Fin b =>
      match b ?= 0 with
      | Eq => inf_by (a ?= 0)
      | _ => Fin (a / b)
      end
  | Fin _, _ => Fin 0
  | PInf, Fin b => match b ?= 0 with Lt => NInf | _ => PInf end
  | NInf, Fin b => match b ?= 0 with Lt => PInf | _ => NInf end
  | _, _ => NaN
  end.

(** [x <= y] and [x < y]; false as soon as an operand is NaN. *)
Definition fle (x y : flt) : bool :=
  match x, y with
  | NaN, _ | _, NaN => false
  | Fin a, Fin b => Qle_bool a b
  | NInf, _ | _, PInf => true
  | _, _ => false
  end.

Definition flt_lt (x y : flt) : bool :=
  match x, y with
  | NaN, _ | _, NaN => false
  | Fin a, Fin b => negb (Qle_bool b a)
  | PInf, _ | _, NInf => false
  | _, _ => true
  end.

Definition fge (x y : flt) : bool := fle y x.
Definition fgt (x y : flt) : bool := flt_lt y x.

(** C's [fmin]: a NaN operand is ignored in favour of the other one. *)
Definition fmin (x y : flt) : flt :=
  match x, y with
  | NaN, _ => y
  | _, NaN => x
  | _, _ => if fle x y then x else y
  end.

Definition fabs (x : flt) : flt :=
  match x with
  | Fin q => Fin (Qabs q)
  | PInf | NInf => PInf
  | NaN => NaN
  end.

Definition is_finite (x : flt) : bool :=
  match x with Fin _ => true | _ => false end.

Definition is_nan (x : flt) : bool :=
  match x with NaN => true | _ => false end.

(** Equality of values up to the representation of the rational. *)
Definition feq (x y : flt) : Prop :=
  match x, y with
  | Fin a, Fin b => a == b
  | PInf, PInf | NInf, NInf | NaN, NaN => True
  | _, _ => False
  end.

End Flt.
Export Flt.

Declare Scope flt_scope.
Delimit Scope flt_scope with flt.
Bind Scope flt_scope with flt.
Infix "+" := fadd : flt_scope.
Infix "-" := fsub : flt_scope.
Infix "*" := fmul : flt_scope.
Infix "/" := fdiv : flt_scope.
Notation "- x" := (fneg x) : flt_scope.
Infix "=~" := feq (at level 70, no associativity).

(** ** The C library's functions used by the kernel *)

Class Libm : Type := {
  tanhQ : Q -> Q;
  expQ : Q -> Q
}.

(** [tanh] and [exp] on [flt]: the library decides the finite values, the
    special values follow the C standard (Annex F). *)
Definition tanh {L : Libm} (x : flt) : flt :=
  match x with
  | Fin q => Fin (tanhQ q)
  | PInf => Fin 1
  | NInf => Fin (-1)
  | NaN => NaN
  end.

Definition exp {L : Libm} (x : flt) : flt :=
  match x with
  | Fin q => Fin (expQ q)
  | PInf => PInf
  | NInf => Fin 0
  | NaN => NaN
  end.

(** ** Arrays

    The C arrays have a fixed size and are only indexed inside their bounds.
    They are lists here; a read outside the list gives 0 and a write outside
    it does nothing (C leaves both undefined).  [wf] below records the sizes. *)

Definition get (a : list flt) (i : nat) : flt := nth i a (Fin 0).

Fixpoint upd (i : nat) (v : flt) (a : list flt) : list flt :=
  match a, i with
  | [], _ => []
  | _ :: a', O => v :: a'
  | x :: a', S i' => x :: upd i' v a'
  end.

Notation "a .[ i ]" := (get a i) (at level 1, left associativity, format "a .[ i ]").

(** ** The file-scope variables *)

Definition WEBEAUDIO_FRAME_SIZE : nat := 128.

Record State : Type := mkState {
  inputBuffer : list flt;
  outputBuffer : list flt;
  (* Huovilainen filter state *)
  stage : list flt;
  stageTanh : list flt;
  delay : list flt;
  (* Filter parameters *)
  thermal : flt;
  tune : flt;
  acr : flt;
  resQuad : flt;
  cutoff : flt;
  resonance : flt;
  (* Smooth parameter interpolation *)
  targetCutoff : flt;
  targetResonance : flt;
  cutoffSmoothing : flt;
  resonanceSmoothing : flt;
  (* DC blocking filter *)
  dcBlockInput : flt;
  dcBlockOutput : flt;
  (* Envelope state *)
  manualCutoff : flt;
  envelopeCutoff : flt;
  envelopeActive : Z;
  (* Envelope timing *)
  envelopeStartCutoff : flt;
  envelopeTargetCutoff : flt;
  envelopeStartTime : flt;
  envelopeDuration : flt;
  envelopeDecayTime : flt;
  envelopeSustainLevel : flt;
  envelopePhase : Z;
  currentTime : flt
}.

(** Precomputed constants *)
Definition dcBlockCoeff : flt := Fin 0.995.
Definition PI : flt := Fin 3.14159265359.
Definition SAMPLE_RATE : flt := Fin 44100.0.
Definition INV_SAMPLE_RATE : flt := (Fin 1.0 / SAMPLE_RATE)%flt.

(** The state a freshly loaded module has: the static initialisers of the
    source, zero for the variables that have none. *)
Definition fresh : State := {|
  inputBuffer := repeat (Fin 0) WEBEAUDIO_FRAME_SIZE;
  outputBuffer := repeat (Fin 0) WEBEAUDIO_FRAME_SIZE;
  stage := repeat (Fin 0) 4;
  stageTanh := repeat (Fin 0) 3;
  delay := repeat (Fin 0) 6;
  thermal := Fin 0.000025;
  tune := Fin 0;
  acr := Fin 0;
  resQuad := Fin 0;
  cutoff := Fin 1000.0;
  resonance := Fin 0.1;
  targetCutoff := Fin 1000.0;
  targetResonance := Fin 0.1;
  cutoffSmoothing := Fin 0.1;
  resonanceSmoothing := Fin 0.1;
  dcBlockInput := Fin 0.0;
  dcBlockOutput := Fin 0.0;
  manualCutoff := Fin 1000.0;
  envelopeCutoff := Fin 1000.0;
  envelopeActive := 0;
  envelopeStartCutoff := Fin 1000.0;
  envelopeTargetCutoff := Fin 1000.0;
  envelopeStartTime := Fin 0.0;
  envelopeDuration := Fin 0.0;
  envelopeDecayTime := Fin 0.5;
  envelopeSustainLevel := Fin 0.5;
  envelopePhase := 0;
  currentTime := Fin 0.0
|}.

(** Assignment to one variable. *)

Definition set_inputBuffer (v : list flt) (s : State) : State :=
  mkState v (outputBuffer s) (stage s) (stageTanh s) (delay s) (thermal s)
    (tune s) (acr s) (resQuad s) (cutoff s) (resonance s) (targetCutoff s)
    (targetResonance s) (cutoffSmoothing s) (resonanceSmoothing s)
    (dcBlockInput s) (dcBlockOutput s) (manualCutoff s) (envelopeCutoff s)
    (envelopeActive s) (envelopeStartCutoff s) (envelopeTargetCutoff s)
    (envelopeStartTime s) (envelopeDuration s) (envelopeDecayTime s)
    (envelopeSustainLevel s) (envelopePhase s) (currentTime s).

Definition set_outputBuffer (v : list flt) (s : State) : State :=
  mkState (inputBuffer s) v (stage s) (stageTanh s) (delay s) (thermal s)
    (tune s) (acr s) (resQuad s) (cutoff s) (resonance s) (targetCutoff s)
    (targetResonance s) (cutoffSmoothing s) (resonanceSmoothing s)
    (dcBlockInput s) (dcBlockOutput s) (manualCutoff s) (envelopeCutoff s)
    (envelopeActive s) (envelopeStartCutoff s) (envelopeTargetCutoff s)
    (envelopeStartTime s) (envelopeDuration s) (envelopeDecayTime s)
    (envelopeSustainLevel s) (envelopePhase s) (currentTime s).

Definition set_stage (v : list flt) (s : State) : State :=
  mkState (inputBuffer s) (outputBuffer s) v (stageTanh s) (delay s)
    (thermal s) (tune s) (acr s) (resQuad s) (cutoff s) (resonance s)
    (targetCutoff s) (targetResonance s) (cutoffSmoothing s)
    (resonanceSmoothing s) (dcBlockInput s) (dcBlockOutput s)
    (manualCutoff s) (envelopeCutoff s) (envelopeActive s)
    (envelopeStartCutoff s) (envelopeTargetCutoff s) (envelopeStartTime s)
    (envelopeDuration s) (envelopeDecayTime s) (envelopeSustainLevel s)
    (envelopePhase s) (currentTime s).

Definition set_stageTanh (v : list flt) (s : State) : State :=
  mkState (inputBuffer s) (outputBuffer s) (stage s) v (delay s) (thermal s)
    (tune s) (acr s) (resQuad s) (cutoff s) (resonance s) (targetCutoff s)
    (targetResonance s) (cutoffSmoothing s) (resonanceSmoothing s)
    (dcBlockInput s) (dcBlockOutput s) (manualCutoff s) (envelopeCutoff s)
    (envelopeActive s) (envelopeStartCutoff s) (envelopeTargetCutoff s)
    (envelopeStartTime s) (envelopeDuration s) (envelopeDecayTime s)
    (envelopeSustainLevel s) (envelopePhase s) (currentTime s).

Definition set_delay (v : list flt) (s : State) : State :=
  mkState (inputBuffer s) (outputBuffer s) (stage s) (stageTanh s) v
    (thermal s) (tune s) (acr s) (resQuad s) (cutoff s) (resonance s)
    (targetCutoff s) (targetResonance s) (cutoffSmoothing s)
    (resonanceSmoothing s) (dcBlockInput s) (dcBlockOutput s)
    (manualCutoff s) (envelopeCutoff s) (envelopeActive s)
    (envelopeStartCutoff s) (envelopeTargetCutoff s) (envelopeStartTime s)
    (envelopeDuration s) (envelopeDecayTime s) (envelopeSustainLevel s)
    (envelopePhase s) (currentTime s).

Definition set_tune (v : flt) (s : State) : State :=
  mkState (inputBuffer s) (outputBuffer s) (stage s) (stageTanh s) (delay s)
    (thermal s) v (acr s) (resQuad s) (cutoff s) (resonance s)
    (targetCutoff s) (targetResonance s) (cutoffSmoothing s)
    (resonanceSmoothing s) (dcBlockInput s) (dcBlockOutput s)
    (manualCutoff s) (envelopeCutoff s) (envelopeActive s)
    (envelopeStartCutoff s) (envelopeTargetCutoff s) (envelopeStartTime s)
    (envelopeDuration s) (envelopeDecayTime s) (envelopeSustainLevel s)
    (envelopePhase s) (currentTime s).

Definition set_acr (v : flt) (s : State) : State :=
  mkState (inputBuffer s) (outputBuffer s) (stage s) (stageTanh s) (delay s)
    (thermal s) (tune s) v (resQuad s) (cutoff s) (resonance s)
    (targetCutoff s) (targetResonance s) (cutoffSmoothing s)
    (resonanceSmoothing s) (dcBlockInput s) (dcBlockOutput s)
    (manualCutoff s) (envelopeCutoff s) (envelopeActive s)
    (envelopeStartCutoff s) (envelopeTargetCutoff s) (envelopeStartTime s)
    (envelopeDuration s) (envelopeDecayTime s) (envelopeSustainLevel s)
    (envelopePhase s) (currentTime s).

Definition set_resQuad (v : flt) (s : State) : State :=
  mkState (inputBuffer s) (outputBuffer s) (stage s) (stageTanh s) (delay s)
    (thermal s) (tune s) (acr s) v (cutoff s) (resonance s) (targetCutoff s)
    (targetResonance s) (cutoffSmoothing s) (resonanceSmoothing s)
    (dcBlockInput s) (dcBlockOutput s) (manualCutoff s) (envelopeCutoff s)
    (envelopeActive s) (envelopeStartCutoff s) (envelopeTargetCutoff s)
    (envelopeStartTime s) (envelopeDuration s) (envelopeDecayTime s)
    (envelopeSustainLevel s) (envelopePhase s) (currentTime s).

Definition set_cutoff (v : flt) (s : State) : State :=
  mkState (inputBuffer s) (outputBuffer s) (stage s) (stageTanh s) (delay s)
    (thermal s) (tune s) (acr s) (resQuad s) v (resonance s)
    (targetCutoff s) (targetResonance s) (cutoffSmoothing s)
    (resonanceSmoothing s) (dcBlockInput s) (dcBlockOutput s)
    (manualCutoff s) (envelopeCutoff s) (envelopeActive s)
    (envelopeStartCutoff s) (envelopeTargetCutoff s) (envelopeStartTime s)
    (envelopeDuration s) (envelopeDecayTime s) (envelopeSustainLevel s)
    (envelopePhase s) (currentTime s).

Definition set_resonance (v : flt) (s : State) : State :=
  mkState (inputBuffer s) (outputBuffer s) (stage s) (stageTanh s) (delay s)
    (thermal s) (tune s) (acr s) (resQuad s) (cutoff s) v (targetCutoff s)
    (targetResonance s) (cutoffSmoothing s) (resonanceSmoothing s)
    (dcBlockInput s) (dcBlockOutput s) (manualCutoff s) (envelopeCutoff s)
    (envelopeActive s) (envelopeStartCutoff s) (envelopeTargetCutoff s)
    (envelopeStartTime s) (envelopeDuration s) (envelopeDecayTime s)
    (envelopeSustainLevel s) (envelopePhase s) (currentTime s).

Definition set_targetCutoff (v : flt) (s : State) : State :=
  mkState (inputBuffer s) (outputBuffer s) (stage s) (stageTanh s) (delay s)
    (thermal s) (tune s) (acr s) (resQuad s) (cutoff s) (resonance s) v
    (targetResonance s) (cutoffSmoothing s) (resonanceSmoothing s)
    (dcBlockInput s) (dcBlockOutput s) (manualCutoff s) (envelopeCutoff s)
    (envelopeActive s) (envelopeStartCutoff s) (envelopeTargetCutoff s)
    (envelopeStartTime s) (envelopeDuration s) (envelopeDecayTime s)
    (envelopeSustainLevel s) (envelopePhase s) (currentTime s).

Definition set_targetResonance (v : flt) (s : State) : State :=
  mkState (inputBuffer s) (outputBuffer s) (stage s) (stageTanh s) (delay s)
    (thermal s) (tune s) (acr s) (resQuad s) (cutoff s) (resonance s)
    (targetCutoff s) v (cutoffSmoothing s) (resonanceSmoothing s)
    (dcBlockInput s) (dcBlockOutput s) (manualCutoff s) (envelopeCutoff s)
    (envelopeActive s) (envelopeStartCutoff s) (envelopeTargetCutoff s)
    (envelopeStartTime s) (envelopeDuration s) (envelopeDecayTime s)
    (envelopeSustainLevel s) (envelopePhase s) (currentTime s).

Definition set_cutoffSmoothing (v : flt) (s : State) : State :=
  mkState (inputBuffer s) (outputBuffer s) (stage s) (stageTanh s) (delay s)
    (thermal s) (tune s) (acr s) (resQuad s) (cutoff s) (resonance s)
    (targetCutoff s) (targetResonance s) v (resonanceSmoothing s)
    (dcBlockInput s) (dcBlockOutput s) (manualCutoff s) (envelopeCutoff s)
    (envelopeActive s) (envelopeStartCutoff s) (envelopeTargetCutoff s)
    (envelopeStartTime s) (envelopeDuration s) (envelopeDecayTime s)
    (envelopeSustainLevel s) (envelopePhase s) (currentTime s).

Definition set_resonanceSmoothing (v : flt) (s : State) : State :=
  mkState (inputBuffer s) (outputBuffer s) (stage s) (stageTanh s) (delay s)
    (thermal s) (tune s) (acr s) (resQuad s) (cutoff s) (resonance s)
    (targetCutoff s) (targetResonance s) (cutoffSmoothing s) v
    (dcBlockInput s) (dcBlockOutput s) (manualCutoff s) (envelopeCutoff s)
    (envelopeActive s) (envelopeStartCutoff s) (envelopeTargetCutoff s)
    (envelopeStartTime s) (envelopeDuration s) (envelopeDecayTime s)
    (envelopeSustainLevel s) (envelopePhase s) (currentTime s).

Definition set_dcBlockInput (v : flt) (s : State) : State :=
  mkState (inputBuffer s) (outputBuffer s) (stage s) (stageTanh s) (delay s)
    (thermal s) (tune s) (acr s) (resQuad s) (cutoff s) (resonance s)
    (targetCutoff s) (targetResonance s) (cutoffSmoothing s)
    (resonanceSmoothing s) v (dcBlockOutput s) (manualCutoff s)
    (envelopeCutoff s) (envelopeActive s) (envelopeStartCutoff s)
    (envelopeTargetCutoff s) (envelopeStartTime s) (envelopeDuration s)
    (envelopeDecayTime s) (envelopeSustainLevel s) (envelopePhase s)
    (currentTime s).

Definition set_dcBlockOutput (v : flt) (s : State) : State :=
  mkState (inputBuffer s) (outputBuffer s) (stage s) (stageTanh s) (delay s)
    (thermal s) (tune s) (acr s) (resQuad s) (cutoff s) (resonance s)
    (targetCutoff s) (targetResonance s) (cutoffSmoothing s)
    (resonanceSmoothing s) (dcBlockInput s) v (manualCutoff s)
    (envelopeCutoff s) (envelopeActive s) (envelopeStartCutoff s)
    (envelopeTargetCutoff s) (envelopeStartTime s) (envelopeDuration s)
    (envelopeDecayTime s) (envelopeSustainLevel s) (envelopePhase s)
    (currentTime s).

Definition set_manualCutoff (v : flt) (s : State) : State :=
  mkState (inputBuffer s) (outputBuffer s) (stage s) (stageTanh s) (delay s)
    (thermal s) (tune s) (acr s) (resQuad s) (cutoff s) (resonance s)
    (targetCutoff s) (targetResonance s) (cutoffSmoothing s)
    (resonanceSmoothing s) (dcBlockInput s) (dcBlockOutput s) v
    (envelopeCutoff s) (envelopeActive s) (envelopeStartCutoff s)
    (envelopeTargetCutoff s) (envelopeStartTime s) (envelopeDuration s)
    (envelopeDecayTime s) (envelopeSustainLevel s) (envelopePhase s)
    (currentTime s).

Definition set_envelopeCutoff (v : flt) (s : State) : State :=
  mkState (inputBuffer s) (outputBuffer s) (stage s) (stageTanh s) (delay s)
    (thermal s) (tune s) (acr s) (resQuad s) (cutoff s) (resonance s)
    (targetCutoff s) (targetResonance s) (cutoffSmoothing s)
    (resonanceSmoothing s) (dcBlockInput s) (dcBlockOutput s)
    (manualCutoff s) v (envelopeActive s) (envelopeStartCutoff s)
    (envelopeTargetCutoff s) (envelopeStartTime s) (envelopeDuration s)
    (envelopeDecayTime s) (envelopeSustainLevel s) (envelopePhase s)
    (currentTime s).

Definition set_envelopeActive (v : Z) (s : State) : State :=
  mkState (inputBuffer s) (outputBuffer s) (stage s) (stageTanh s) (delay s)
    (thermal s) (tune s) (acr s) (resQuad s) (cutoff s) (resonance s)
    (targetCutoff s) (targetResonance s) (cutoffSmoothing s)
    (resonanceSmoothing s) (dcBlockInput s) (dcBlockOutput s)
    (manualCutoff s) (envelopeCutoff s) v (envelopeStartCutoff s)
    (envelopeTargetCutoff s) (envelopeStartTime s) (envelopeDuration s)
    (envelopeDecayTime s) (envelopeSustainLevel s) (envelopePhase s)
    (currentTime s).

Definition set_envelopeStartCutoff (v : flt) (s : State) : State :=
  mkState (inputBuffer s) (outputBuffer s) (stage s) (stageTanh s) (delay s)
    (thermal s) (tune s) (acr s) (resQuad s) (cutoff s) (resonance s)
    (targetCutoff s) (targetResonance s) (cutoffSmoothing s)
    (resonanceSmoothing s) (dcBlockInput s) (dcBlockOutput s)
    (manualCutoff s) (envelopeCutoff s) (envelopeActive s) v
    (envelopeTargetCutoff s) (envelopeStartTime s) (envelopeDuration s)
    (envelopeDecayTime s) (envelopeSustainLevel s) (envelopePhase s)
    (currentTime s).

Definition set_envelopeTargetCutoff (v : flt) (s : State) : State :=
  mkState (inputBuffer s) (outputBuffer s) (stage s) (stageTanh s) (delay s)
    (thermal s) (tune s) (acr s) (resQuad s) (cutoff s) (resonance s)
    (targetCutoff s) (targetResonance s) (cutoffSmoothing s)
    (resonanceSmoothing s) (dcBlockInput s) (dcBlockOutput s)
    (manualCutoff s) (envelopeCutoff s) (envelopeActive s)
    (envelopeStartCutoff s) v (envelopeStartTime s) (envelopeDuration s)
    (envelopeDecayTime s) (envelopeSustainLevel s) (envelopePhase s)
    (currentTime s).

Definition set_envelopeStartTime (v : flt) (s : State) : State :=
  mkState (inputBuffer s) (outputBuffer s) (stage s) (stageTanh s) (delay s)
    (thermal s) (tune s) (acr s) (resQuad s) (cutoff s) (resonance s)
    (targetCutoff s) (targetResonance s) (cutoffSmoothing s)
    (resonanceSmoothing s) (dcBlockInput s) (dcBlockOutput s)
    (manualCutoff s) (envelopeCutoff s) (envelopeActive s)
    (envelopeStartCutoff s) (envelopeTargetCutoff s) v (envelopeDuration s)
    (envelopeDecayTime s) (envelopeSustainLevel s) (envelopePhase s)
    (currentTime s).

Definition set_envelopeDuration (v : flt) (s : State) : State :=
  mkState (inputBuffer s) (outputBuffer s) (stage s) (stageTanh s) (delay s)
    (thermal s) (tune s) (acr s) (resQuad s) (cutoff s) (resonance s)
    (targetCutoff s) (targetResonance s) (cutoffSmoothing s)
    (resonanceSmoothing s) (dcBlockInput s) (dcBlockOutput s)
    (manualCutoff s) (envelopeCutoff s) (envelopeActive s)
    (envelopeStartCutoff s) (envelopeTargetCutoff s) (envelopeStartTime s) v
    (envelopeDecayTime s) (envelopeSustainLevel s) (envelopePhase s)
    (currentTime s).

Definition set_envelopeDecayTime (v : flt) (s : State) : State :=
  mkState (inputBuffer s) (outputBuffer s) (stage s) (stageTanh s) (delay s)
    (thermal s) (tune s) (acr s) (resQuad s) (cutoff s) (resonance s)
    (targetCutoff s) (targetResonance s) (cutoffSmoothing s)
    (resonanceSmoothing s) (dcBlockInput s) (dcBlockOutput s)
    (manualCutoff s) (envelopeCutoff s) (envelopeActive s)
    (envelopeStartCutoff s) (envelopeTargetCutoff s) (envelopeStartTime s)
    (envelopeDuration s) v (envelopeSustainLevel s) (envelopePhase s)
    (currentTime s).

Definition set_envelopeSustainLevel (v : flt) (s : State) : State :=
  mkState (inputBuffer s) (outputBuffer s) (stage s) (stageTanh s) (delay s)
    (thermal s) (tune s) (acr s) (resQuad s) (cutoff s) (resonance s)
    (targetCutoff s) (targetResonance s) (cutoffSmoothing s)
    (resonanceSmoothing s) (dcBlockInput s) (dcBlockOutput s)
    (manualCutoff s) (envelopeCutoff s) (envelopeActive s)
    (envelopeStartCutoff s) (envelopeTargetCutoff s) (envelopeStartTime s)
    (envelopeDuration s) (envelopeDecayTime s) v (envelopePhase s)
    (currentTime s).

Definition set_envelopePhase (v : Z) (s : State) : State :=
  mkState (inputBuffer s) (outputBuffer s) (stage s) (stageTanh s) (delay s)
    (thermal s) (tune s) (acr s) (resQuad s) (cutoff s) (resonance s)
    (targetCutoff s) (targetResonance s) (cutoffSmoothing s)
    (resonanceSmoothing s) (dcBlockInput s) (dcBlockOutput s)
    (manualCutoff s) (envelopeCutoff s) (envelopeActive s)
    (envelopeStartCutoff s) (envelopeTargetCutoff s) (envelopeStartTime s)
    (envelopeDuration s) (envelopeDecayTime s) (envelopeSustainLevel s) v
    (currentTime s).

Definition set_currentTime (v : flt) (s : State) : State :=
  mkState (inputBuffer s) (outputBuffer s) (stage s) (stageTanh s) (delay s)
    (thermal s) (tune s) (acr s) (resQuad s) (cutoff s) (resonance s)
    (targetCutoff s) (targetResonance s) (cutoffSmoothing s)
    (resonanceSmoothing s) (dcBlockInput s) (dcBlockOutput s)
    (manualCutoff s) (envelopeCutoff s) (envelopeActive s)
    (envelopeStartCutoff s) (envelopeTargetCutoff s) (envelopeStartTime s)
    (envelopeDuration s) (envelopeDecayTime s) (envelopeSustainLevel s)
    (envelopePhase s) v.

(** ** The kernel *)

Section Kernel.

Context {L : Libm}.

Local Open Scope flt_scope.

(** Update filter coefficients based on current cutoff and resonance.
    [clamped_fc] is the local [fc] after the [fmin]. *)
Definition clamped_fc (s : State) : flt :=
  let fc := cutoff s / SAMPLE_RATE in
  fmin fc (Fin 0.45).

Definition updateFilterCoefficients (s : State) : State :=
  let fc := clamped_fc s in
  let f := fc * Fin 0.5 in
  let fc2 := fc * fc in
  let fc3 := fc * fc * fc in
  let fcr := Fin 1.8730 * fc3 + Fin 0.4955 * fc2 - Fin 0.6490 * fc + Fin 0.9988 in
  let s := set_acr (- Fin 3.9364 * fc2 + Fin 1.8409 * fc + Fin 0.9968) s in
  let s := set_tune ((Fin 1.0 - exp (- ((Fin 2 * PI) * f * fcr))) / thermal s) s in
  set_resQuad (Fin 4.0 * resonance s * acr s) s.

Definition setCutoff (c : flt) (s : State) : State :=
  let s := set_manualCutoff c s in
  if (envelopeActive s =? 0)%Z then
    updateFilterCoefficients (set_targetCutoff c s)
  else s.

Definition setResonance (r : flt) (s : State) : State :=
  updateFilterCoefficients (set_targetResonance r s).

Definition setEnvelopeActive (active : Z) (s : State) : State :=
  let s := set_envelopeActive active s in
  if (active =? 0)%Z then
    let s := set_targetCutoff (manualCutoff s) s in
    let s := set_envelopePhase 0 s in
    updateFilterCoefficients s
  else s.

Definition setEnvelopeCutoff (c : flt) (s : State) : State :=
  let s := set_envelopeCutoff c s in
  if (envelopeActive s =? 0)%Z then s
  else updateFilterCoefficients (set_targetCutoff c s).

Definition setEnvelopeDecayTime (decayTime : flt) (s : State) : State :=
  set_envelopeDecayTime decayTime s.

Definition setEnvelopeSustainLevel (sustainLevel : flt) (s : State) : State :=
  set_envelopeSustainLevel sustainLevel s.

Definition setEnvelopeAttack (startCutoff peakCutoff attackTime : flt)
    (s : State) : State :=
  let s := set_envelopeStartCutoff startCutoff s in
  let s := set_envelopeTargetCutoff (peakCutoff * Fin 2.0) s in
  let s := set_envelopeStartTime (currentTime s) s in
  let s := set_envelopeDuration attackTime s in
  let s := set_envelopePhase 1 s in
  set_envelopeActive 1 s.

(** The parameter that the source calls [targetCutoff] (it shadows the
    file-scope variable of that name) is [target] here. *)
Definition setEnvelopeRelease (target releaseTime : flt) (s : State) : State :=
  let s := set_envelopeStartCutoff (envelopeCutoff s) s in
  let s := set_envelopeTargetCutoff target s in
  let s := set_envelopeStartTime (currentTime s) s in
  let s := set_envelopeDuration releaseTime s in
  set_envelopePhase 0 s.

(** The locals [elapsed] and [progress] of [updateEnvelope], read in a state
    whose [currentTime] is already the new time. *)
Definition envelope_progress (s : State) : flt :=
  let elapsed := currentTime s - envelopeStartTime s in
  elapsed / envelopeDuration s.

(** The last three statements of [updateEnvelope]. *)
Definition envelope_output (progress : flt) (s : State) : State :=
  let s :=
    set_envelopeCutoff
      (envelopeStartCutoff s
       + (envelopeTargetCutoff s - envelopeStartCutoff s) * progress) s in
  let s := set_targetCutoff (envelopeCutoff s) s in
  updateFilterCoefficients s.

Definition updateEnvelope (time : flt) (s : State) : State :=
  let s := set_currentTime time s in
  if (envelopePhase s =? 0)%Z then s
  else
    let progress := envelope_progress s in
    if fge progress (Fin 1.0) then
      if (envelopePhase s =? 1)%Z then
        let s := set_envelopeStartCutoff (envelopeTargetCutoff s) s in
        let sustainCutoff :=
          envelopeStartCutoff s
          + (manualCutoff s - envelopeStartCutoff s)
            * (Fin 1.0 - envelopeSustainLevel s) in
        let s := set_envelopeTargetCutoff sustainCutoff s in
        let s := set_envelopeStartTime (currentTime s) s in
        let s := set_envelopeDuration (envelopeDecayTime s) s in
        let s := set_envelopePhase 2 s in
        envelope_output (Fin 1.0) s
      else if (envelopePhase s =? 2)%Z then
        envelope_output (Fin 1.0) (set_envelopePhase 3 s)
      else if (envelopePhase s =? 3)%Z then s
      else envelope_output (Fin 1.0) s
    else envelope_output progress s.

Definition init (s : State) : State :=
  let s := set_stage (repeat (Fin 0) 4) s in
  let s := set_delay (repeat (Fin 0) 6) s in
  let s := set_stageTanh (repeat (Fin 0) 3) s in
  let s := setCutoff (Fin 1000.0) s in
  let s := setResonance (Fin 0.1) s in
  let s := set_manualCutoff (Fin 1000.0) s in
  let s := set_envelopeCutoff (Fin 1000.0) s in
  let s := set_envelopeActive 0 s in
  let s := set_envelopePhase 0 s in
  let s := set_currentTime (Fin 0.0) s in
  let s := set_envelopeSustainLevel (Fin 0.5) s in
  let s := set_cutoffSmoothing (Fin 0.1) s in
  set_resonanceSmoothing (Fin 0.1) s.

(** Smooth parameter interpolation to prevent popping *)
Definition smoothParameter (current target smoothing : flt) : flt :=
  current + (target - current) * smoothing.

(** Enhanced tanh with subtle Minimoog-style character *)
Definition enhanced_tanh (x : flt) : flt :=
  let basic_tanh := tanh x in
  let asymmetry := if fgt x (Fin 0) then Fin 1.0 else Fin 0.98 in
  let abs_x := fabs x in
  let input_scale := abs_x / (Fin 1.0 + abs_x) in
  let freq_scale := Fin 1.0 / (Fin 1.0 + Fin 2.0 * input_scale) in
  let harmonic_boost := Fin 1.0 + Fin 0.015 * input_scale * freq_scale in
  let even_harmonic :=
    Fin 0.008 * x * input_scale * freq_scale / (Fin 1.0 + abs_x) in
  let third_harmonic :=
    Fin 0.006 * x * input_scale * input_scale * freq_scale in
  let intermod := Fin 0.004 * x * input_scale * freq_scale in
  asymmetry * basic_tanh * harmonic_boost
  + even_harmonic + third_harmonic + intermod.

(** One pass of the body of the [j] loop of [filter] (one oversampling
    sub-step), statement by statement under the comments of the source.
    [dcBlockedInput] is the local of the enclosing [i] loop.  The value of an
    assignment expression is the value assigned. *)

(** First stage with enhanced saturation for warmth *)
Definition first_stage (dcBlockedInput : flt) (s : State) : State :=
  let input_sample := dcBlockedInput - resQuad s * (delay s).[5] in
  let v0 :=
    (delay s).[0]
    + tune s * (enhanced_tanh (input_sample * thermal s) - (stageTanh s).[0]) in
  let s := set_stage (upd 0 v0 (stage s)) s in
  set_delay (upd 0 v0 (delay s)) s.

(** Second stage *)
Definition second_stage (s : State) : State :=
  let stage1_input := (stage s).[0] in
  let t0 := enhanced_tanh (stage1_input * thermal s) in
  let s := set_stageTanh (upd 0 t0 (stageTanh s)) s in
  let s :=
    set_stage
      (upd 1 ((delay s).[1] + tune s * (t0 - (stageTanh s).[1])) (stage s)) s in
  set_delay (upd 1 (stage s).[1] (delay s)) s.

(** Third stage *)
Definition third_stage (s : State) : State :=
  let stage2_input := (stage s).[1] in
  let t1 := enhanced_tanh (stage2_input * thermal s) in
  let s := set_stageTanh (upd 1 t1 (stageTanh s)) s in
  let s :=
    set_stage
      (upd 2 ((delay s).[2] + tune s * (t1 - (stageTanh s).[2])) (stage s)) s in
  set_delay (upd 2 (stage s).[2] (delay s)) s.

(** Fourth stage *)
Definition fourth_stage (s : State) : State :=
  let stage3_input := (stage s).[2] in
  let t2 := enhanced_tanh (stage3_input * thermal s) in
  let s := set_stageTanh (upd 2 t2 (stageTanh s)) s in
  let s :=
    set_stage
      (upd 3
         ((delay s).[3]
          + tune s * (t2 - enhanced_tanh ((delay s).[3] * thermal s)))
         (stage s)) s in
  set_delay (upd 3 (stage s).[3] (delay s)) s.

(** 0.5 sample delay for phase compensation *)
Definition phase_compensation (s : State) : State :=
  let s :=
    set_delay (upd 5 (((stage s).[3] + (delay s).[4]) * Fin 0.5) (delay s)) s in
  set_delay (upd 4 (stage s).[3] (delay s)) s.

Definition ladder_substep (dcBlockedInput : flt) (s : State) : State :=
  phase_compensation
    (fourth_stage (third_stage (second_stage (first_stage dcBlockedInput s)))).

(** The DC blocking statements at the head of the [i] loop; the result
    carries the local [dcBlockedInput] next to the state. *)
Definition dc_block (i : nat) (s : State) : flt * State :=
  let input := (inputBuffer s).[i] in
  let dcBlockedInput := input - dcBlockInput s + dcBlockCoeff * dcBlockOutput s in
  let s := set_dcBlockInput input s in
  let s := set_dcBlockOutput dcBlockedInput s in
  (dcBlockedInput, s).

(** The [j] loop: [for (int j = 0; j < 2; j++)]. *)
Definition oversample (dcBlockedInput : flt) (s : State) : State :=
  fold_left (fun s (_ : nat) => ladder_substep dcBlockedInput s) (seq 0 2) s.

(** The body of the [i] loop. *)
Definition filter_sample (s : State) (i : nat) : State :=
  let (dcBlockedInput, s) := dc_block i s in
  let s := oversample dcBlockedInput s in
  set_outputBuffer (upd i (delay s).[5] (outputBuffer s)) s.

(** Huovilainen Moog ladder filter implementation *)
Definition smooth_and_update (s : State) : State :=
  let s :=
    set_cutoff
      (smoothParameter (cutoff s) (targetCutoff s) (cutoffSmoothing s)) s in
  let s :=
    set_resonance
      (smoothParameter (resonance s) (targetResonance s)
         (resonanceSmoothing s)) s in
  updateFilterCoefficients s.

Definition filter (s : State) : State :=
  let s := smooth_and_update s in
  fold_left filter_sample (seq 0 WEBEAUDIO_FRAME_SIZE) s.

(** ** The host's view

    The host obtains the two buffers through [inputBufferPtr] and
    [outputBufferPtr], writes a block of [WEBEAUDIO_FRAME_SIZE] samples into
    the first and reads the second, and calls the exported functions in any
    order. *)

Inductive call : Type :=
| WriteInput (block : list flt)
| SetCutoff (c : flt)
| SetResonance (r : flt)
| SetEnvelopeActive (active : Z)
| SetEnvelopeCutoff (c : flt)
| SetEnvelopeDecayTime (decayTime : flt)
| SetEnvelopeSustainLevel (sustainLevel : flt)
| SetEnvelopeAttack (startCutoff peakCutoff attackTime : flt)
| SetEnvelopeRelease (target releaseTime : flt)
| UpdateEnvelope (time : flt)
| Init
| Filter.

Definition run (c : call) (s : State) : State :=
  match c with
  | WriteInput block =>
      if (length block =? WEBEAUDIO_FRAME_SIZE)%nat
      then set_inputBuffer block s else s
  | SetCutoff c => setCutoff c s
  | SetResonance r => setResonance r s
  | SetEnvelopeActive active => setEnvelopeActive active s
  | SetEnvelopeCutoff c => setEnvelopeCutoff c s
  | SetEnvelopeDecayTime decayTime => setEnvelopeDecayTime decayTime s
  | SetEnvelopeSustainLevel sustainLevel =>
      setEnvelopeSustainLevel sustainLevel s
  | SetEnvelopeAttack startCutoff peakCutoff attackTime =>
      setEnvelopeAttack startCutoff peakCutoff attackTime s
  | SetEnvelopeRelease target releaseTime =>
      setEnvelopeRelease target releaseTime s
  | UpdateEnvelope time => updateEnvelope time s
  | Init => init s
  | Filter => filter s
  end.

Definition run_all (cs : list call) (s : State) : State :=
  fold_left (fun s c => run c s) cs s.

(** The states the host can bring a freshly loaded module into. *)
Inductive reachable : State -> Prop :=
| reachable_fresh : reachable fresh
| reachable_run : forall c s, reachable s -> reachable (run c s).

(** [processBlock] of the specification: write the block, run [filter], read
    the output buffer. *)
Definition processBlock (block : list flt) (s : State) : State :=
  filter (run (WriteInput block) s).

Definition silence : list flt := repeat (Fin 0) WEBEAUDIO_FRAME_SIZE.




End Kernel.

(** ** Predicates on states *)

(** The sizes of the arrays. *)
Definition wf (s : State) : Prop :=
  length (inputBuffer s) = WEBEAUDIO_FRAME_SIZE
  /\ length (outputBuffer s) = WEBEAUDIO_FRAME_SIZE
  /\ length (stage s) = 4%nat
  /\ length (stageTanh s) = 3%nat
  /\ length (delay s) = 6%nat.

(** Variables that no call changes, or only to the value they have. *)
Definition constants_ok (s : State) : Prop :=
  thermal s = Fin 0.000025
  /\ cutoffSmoothing s = Fin 0.1
  /\ resonanceSmoothing s = Fin 0.1.

(** The envelope runs only when it is the active source. *)
Definition phase_ok (s : State) : Prop :=
  (envelopeActive s = 0%Z -> envelopePhase s = 0%Z)
  /\ (0 <= envelopePhase s <= 3)%Z.

Definition finite (x : flt) : Prop := exists q, x = Fin q.

Definition positive (x : flt) : Prop := exists q, x = Fin q /\ 0 < q.

(** The envelope variables hold numbers, and every phase that is in
    progress has a strictly positive duration. *)
Definition env_ok (s : State) : Prop :=
  finite (currentTime s)
  /\ finite (envelopeStartTime s)
  /\ finite (envelopeStartCutoff s)
  /\ finite (envelopeTargetCutoff s)
  /\ finite (envelopeCutoff s)
  /\ finite (manualCutoff s)
  /\ finite (envelopeSustainLevel s)
  /\ positive (envelopeDecayTime s)
  /\ (envelopePhase s <> 0%Z -> positive (envelopeDuration s)).

(** Calls whose arguments are numbers and whose durations are strictly
    positive. *)
Definition timed_call (c : call) : Prop :=
  match c with
  | SetCutoff c => finite c
  | SetEnvelopeCutoff c => finite c
  | SetEnvelopeDecayTime decayTime => positive decayTime
  | SetEnvelopeSustainLevel sustainLevel => finite sustainLevel
  | SetEnvelopeAttack startCutoff peakCutoff attackTime =>
      finite startCutoff /\ finite peakCutoff /\ positive attackTime
  | SetEnvelopeRelease target releaseTime =>
      finite target /\ positive releaseTime
  | UpdateEnvelope time => finite time
  | _ => True
  end.

(** Everything but the ladder state, the DC blocker state and the output
    buffer: what the sample loop of [filter] leaves alone. *)
Definition controls (s : State) :=
  (inputBuffer s, thermal s, tune s, acr s, resQuad s, cutoff s, resonance s,
   targetCutoff s, targetResonance s, cutoffSmoothing s, resonanceSmoothing s,
   manualCutoff s, envelopeCutoff s, envelopeActive s, envelopeStartCutoff s,
   envelopeTargetCutoff s, envelopeStartTime s, envelopeDuration s,
   envelopeDecayTime s, envelopeSustainLevel s, envelopePhase s,
   currentTime s).

(** ** The specification's formulas *)

Section Specification.

Context {L : Libm}.

Local Open Scope flt_scope.

(** Section 4.3, steps 2 to 6: the coefficients from the normalised cutoff
    [fc], the resonance and the thermal constant. *)
Definition mapper_acr (fc : flt) : flt :=
  - Fin 3.9364 * (fc * fc) + Fin 1.8409 * fc + Fin 0.9968.

Definition mapper_tune (fc thermal : flt) : flt :=
  let fcr :=
    Fin 1.8730 * (fc * fc * fc) + Fin 0.4955 * (fc * fc) - Fin 0.6490 * fc
    + Fin 0.9988 in
  (Fin 1.0 - exp (- (Fin 2 * PI * (fc * Fin 0.5) * fcr))) / thermal.

Definition mapper_resQuad (fc resonance : flt) : flt :=
  Fin 4.0 * resonance * mapper_acr fc.

(** The coefficients belong to the live cutoff and resonance. *)
Definition synced (s : State) : Prop :=
  tune s = mapper_tune (clamped_fc s) (thermal s)
  /\ acr s = mapper_acr (clamped_fc s)
  /\ resQuad s = mapper_resQuad (clamped_fc s) (resonance s).

(** Section 4.5, steps 1 to 6: one sub-step on the delay line [d] and the
    saturator caches [c], with the saturator called [saturate] there.  The
    result is the new contents of [stage], [stageTanh] and [delay]. *)
Definition saturate : flt -> flt := enhanced_tanh.

Definition spec_substep (tune resQuad thermal dcBlockedSample : flt)
    (c d : list flt) : list flt * list flt * list flt :=
  let feedbackInput := dcBlockedSample - resQuad * d.[5] in
  let newStage0 :=
    d.[0] + tune * (saturate (feedbackInput * thermal) - c.[0]) in
  let c0 := saturate (newStage0 * thermal) in
  let newStage1 := d.[1] + tune * (c0 - c.[1]) in
  let c1 := saturate (newStage1 * thermal) in
  let newStage2 := d.[2] + tune * (c1 - c.[2]) in
  let c2 := saturate (newStage2 * thermal) in
  let newStage3 :=
    d.[3] + tune * (c2 - saturate (d.[3] * thermal)) in
  ([newStage0; newStage1; newStage2; newStage3],
   [c0; c1; c2],
   [newStage0; newStage1; newStage2; newStage3;
    newStage3; (newStage3 + d.[4]) / Fin 2]).

(** Section 4.2: the DC blocker. *)
Definition spec_dc (input prevInput prevOutput : flt) : flt :=
  input - prevInput + Fin 0.995 * prevOutput.

End Specification.

(** The envelope's linear ramp, on rationals: the value at time [t] of a
    phase that started at [t0] with value [a], lasts [d] and ends at [b]. *)
Definition ramp (a b t0 d t : Q) : Q := a + (b - a) * ((t - t0) / d).

(** The statements of [enhanced_tanh] on a finite argument, as rationals
    ([enhanced_tanh_fin] below relates the two). *)
Definition enhanced_tanhQ {L : Libm} (x : Q) : Q :=
  let basic_tanh := tanhQ x in
  let asymmetry := if negb (Qle_bool x 0) then 1.0 else 0.98 in
  let abs_x := Qabs x in
  let input_scale := abs_x / (1.0 + abs_x) in
  let freq_scale := 1.0 / (1.0 + 2.0 * input_scale) in
  let harmonic_boost := 1.0 + 0.015 * input_scale * freq_scale in
  let even_harmonic :=
    0.008 * x * input_scale * freq_scale / (1.0 + abs_x) in
  let third_harmonic :=
    0.006 * x * input_scale * input_scale * freq_scale in
  let intermod := 0.004 * x * input_scale * freq_scale in
  asymmetry * basic_tanh * harmonic_boost
  + even_harmonic + third_harmonic + intermod.

(** ** A rational stand-in for the C library

    Used to run the kernel on examples.  It has the qualitative shape of the
    two functions (odd, bounded by 1, zero at zero; positive, increasing, one
    at zero) but not their values. *)

Definition rational_libm : Libm := {|
  tanhQ := fun x => x / (1 + Qabs x);
  expQ := fun x => if Qle_bool x 0 then 1 / (1 - x) else 1 + x
|}.

(** Two input blocks: silence but for a last sample of 1, and silence but
    for a last sample that is not a number. *)
Definition click : list flt := repeat (Fin 0) 127 ++ [Fin 1].
Definition nan_block : list flt := repeat (Fin 0) 127 ++ [NaN].

(** The ladder holds numbers. *)
Definition ladder_finite (s : State) : Prop :=
  Forall finite (stage s)
  /\ Forall finite (stageTanh s)
  /\ Forall finite (delay s)
  /\ finite (tune s)
  /\ finite (resQuad s)
  /\ finite (thermal s).

(** Everything [filter] reads holds numbers, and the thermal constant is
    strictly positive. *)
Definition finite_state (s : State) : Prop :=
  Forall finite (inputBuffer s)
  /\ Forall finite (stage s)
  /\ Forall finite (stageTanh s)
  /\ Forall finite (delay s)
  /\ finite (dcBlockInput s)
  /\ finite (dcBlockOutput s)
  /\ positive (thermal s)
  /\ finite (cutoff s)
  /\ finite (resonance s)
  /\ finite (targetCutoff s)
  /\ finite (targetResonance s)
  /\ finite (cutoffSmoothing s)
  /\ finite (resonanceSmoothing s).

(** ** Predicates of the further properties *)

(** A value that is the number zero. *)
Definition zero (x : flt) : Prop := x =~ Fin 0.

(** A state in which a silent block stays silent: zero input, zero ladder,
    zero DC blocker, numbers for the parameters. *)
Definition quiet (s : State) : Prop :=
  Forall zero (inputBuffer s)
  /\ Forall zero (stage s)
  /\ Forall zero (stageTanh s)
  /\ Forall zero (delay s)
  /\ zero (dcBlockInput s)
  /\ zero (dcBlockOutput s)
  /\ positive (thermal s)
  /\ finite (cutoff s)
  /\ finite (resonance s)
  /\ finite (targetCutoff s)
  /\ finite (targetResonance s)
  /\ finite (cutoffSmoothing s)
  /\ finite (resonanceSmoothing s).

(** The ladder holds zeros and its coefficients are numbers. *)
Definition ladder_zero (s : State) : Prop :=
  Forall zero (stage s)
  /\ Forall zero (stageTanh s)
  /\ Forall zero (delay s)
  /\ finite (tune s)
  /\ finite (resQuad s)
  /\ finite (thermal s).

(** With the envelope inactive the filter aims at the manual cutoff. *)
Definition manual_tracks (s : State) : Prop :=
  envelopeActive s = 0%Z -> targetCutoff s = manualCutoff s.

(** Calls that do not write [manualCutoff]. *)
Definition keeps_manual (c : call) : Prop :=
  match c with
  | SetCutoff _ | Init => False
  | _ => True
  end.

(** The host calls [init] only while the envelope is inactive. *)
Fixpoint init_when_inactive {L : Libm} (cs : list call) (s : State) : Prop :=
  match cs with
  | [] => True
  | c :: cs =>
      (c = Init -> envelopeActive s = 0%Z)
      /\ init_when_inactive cs (run c s)
  end.

(** What [filter] reads: the input block, the memory of the ladder and of the
    DC blocker, the live and the target parameters, and the constants.  Two
    states are the same for the audio path when they agree on these. *)
Definition same_audio (s1 s2 : State) : Prop :=
  inputBuffer s1 = inputBuffer s2
  /\ stageTanh s1 = stageTanh s2
  /\ delay s1 = delay s2
  /\ dcBlockInput s1 = dcBlockInput s2
  /\ dcBlockOutput s1 = dcBlockOutput s2
  /\ thermal s1 = thermal s2
  /\ cutoff s1 = cutoff s2
  /\ resonance s1 = resonance s2
  /\ targetCutoff s1 = targetCutoff s2
  /\ targetResonance s1 = targetResonance s2
  /\ cutoffSmoothing s1 = cutoffSmoothing s2
  /\ resonanceSmoothing s1 = resonanceSmoothing s2.

(** The same inside the sample loop, where the coefficients are read. *)
Definition same_ladder (s1 s2 : State) : Prop :=
  same_audio s1 s2 /\ tune s1 = tune s2 /\ resQuad s1 = resQuad s2.

(** The calls that set parameters or drive the envelope: every call but
    writing a block, [init] and [filter]. *)
Definition is_control (c : call) : Prop :=
  match c with
  | WriteInput _ | Init | Filter => False
  | _ => True
  end.

(** The memory of the audio path: buffers, ladder, DC blocker and the live
    cutoff and resonance. *)
Definition audio_memory (s : State) :=
  (inputBuffer s, outputBuffer s, stage s, stageTanh s, delay s,
   dcBlockInput s, dcBlockOutput s, cutoff s, resonance s).

(** * Properties *)

(** ** Arithmetic on [flt] *)

Lemma feq_refl (x : flt) : x =~ x.
Proof. destruct x; simpl; auto with qarith. Qed.

Lemma feq_sym (x y : flt) : x =~ y -> y =~ x.
Proof. destruct x, y; simpl; auto with qarith. Qed.

Lemma feq_trans (x y z : flt) : x =~ y -> y =~ z -> x =~ z.
Proof.
  destruct x, y, z; simpl; try tauto.
  intros H1 H2. now rewrite H1.
Qed.

Lemma feq_of_eq (x y : flt) : x = y -> x =~ y.
Proof. intros ->. apply feq_refl. Qed.

Lemma feq_fin (a b : Q) : Fin a =~ Fin b <-> a == b.
Proof. reflexivity. Qed.

Lemma finite_Fin (q : Q) : finite (Fin q).
Proof. now exists q. Qed.

Lemma positive_finite (x : flt) : positive x -> finite x.
Proof. intros (q & -> & _). apply finite_Fin. Qed.

Lemma finite_not_nan (x : flt) : finite x -> x <> NaN.
Proof. intros (q & ->). discriminate. Qed.

Lemma finite_fadd (x y : flt) : finite x -> finite y -> finite (x + y)%flt.
Proof. intros (a & ->) (b & ->). apply finite_Fin. Qed.

Lemma finite_fsub (x y : flt) : finite x -> finite y -> finite (x - y)%flt.
Proof. intros (a & ->) (b & ->). apply finite_Fin. Qed.

Lemma finite_fmul (x y : flt) : finite x -> finite y -> finite (x * y)%flt.
Proof. intros (a & ->) (b & ->). apply finite_Fin. Qed.

Lemma fdiv_nonzero (a b : Q) : ~ b == 0 -> (Fin a / Fin b)%flt = Fin (a / b).
Proof.
  intros Hb. simpl. destruct (Qcompare_spec b 0) as [E | _ | _];
    [ contradiction | reflexivity | reflexivity ].
Qed.

Lemma fdiv_pos (a b : Q) : 0 < b -> (Fin a / Fin b)%flt = Fin (a / b).
Proof. intros Hb. apply fdiv_nonzero. intros E. rewrite E in Hb. lra. Qed.

Lemma finite_fdiv (x y : flt) : finite x -> positive y -> finite (x / y)%flt.
Proof.
  intros (a & ->) (b & -> & Hb). rewrite fdiv_pos by assumption.
  apply finite_Fin.
Qed.

Lemma fdiv_zero_zero : (Fin 0 / Fin 0)%flt = NaN.
Proof. reflexivity. Qed.

(** A NaN operand makes the result NaN. *)
Lemma fadd_nan_l (x : flt) : (NaN + x)%flt = NaN.
Proof. now destruct x. Qed.

Lemma fadd_nan_r (x : flt) : (x + NaN)%flt = NaN.
Proof. now destruct x. Qed.

Lemma fsub_nan_l (x : flt) : (NaN - x)%flt = NaN.
Proof. now destruct x. Qed.

Lemma fsub_nan_r (x : flt) : (x - NaN)%flt = NaN.
Proof. now destruct x. Qed.

Lemma fmul_nan_l (x : flt) : (NaN * x)%flt = NaN.
Proof. now destruct x. Qed.

Lemma fmul_nan_r (x : flt) : (x * NaN)%flt = NaN.
Proof. now destruct x. Qed.

Lemma fge_fin (a b : Q) : fge (Fin a) (Fin b) = true <-> b <= a.
Proof. unfold fge. simpl. apply Qle_bool_iff. Qed.

Lemma fge_fin_false (a b : Q) : fge (Fin a) (Fin b) = false <-> a < b.
Proof.
  unfold fge. simpl. split.
  - intros H. apply Qnot_le_lt. intros Hle.
    apply Qle_bool_iff in Hle. congruence.
  - intros H. destruct (Qle_bool b a) eqn:E; [ | reflexivity ].
    apply Qle_bool_iff in E. lra.
Qed.

(** Multiplying by one half is dividing by two. *)
Lemma fmul_half (x : flt) : (x * Fin 0.5)%flt =~ (x / Fin 2)%flt.
Proof.
  destruct x as [q | | |]; simpl; trivial.
  unfold Qdiv. setoid_replace (/ 2) with 0.5 by reflexivity. reflexivity.
Qed.

(** ** Arrays *)

Lemma upd_length (i : nat) (v : flt) (a : list flt) :
  length (upd i v a) = length a.
Proof.
  revert i. induction a as [ | x a IH]; intros [ | i]; simpl; auto.
Qed.

Lemma get_upd_same (i : nat) (v : flt) (a : list flt) :
  (i < length a)%nat -> (upd i v a).[i] = v.
Proof.
  revert i. induction a as [ | x a IH]; intros [ | i]; simpl; intros H;
    try lia; auto.
  apply IH. lia.
Qed.

Lemma get_upd_other (i j : nat) (v : flt) (a : list flt) :
  i <> j -> (upd i v a).[j] = a.[j].
Proof.
  revert i j. induction a as [ | x a IH]; intros [ | i] [ | j]; simpl;
    intros H; try congruence; auto.
  apply IH. congruence.
Qed.

Lemma get_repeat_zero (n i : nat) : (repeat (Fin 0) n).[i] = Fin 0.
Proof.
  unfold get. revert i. induction n as [ | n IH]; intros [ | i]; simpl; auto.
Qed.

(** ** What each function writes *)

Section Frames.

Context {L : Libm}.

Lemma fold_left_frame {A I : Type} (f : State -> A)
    (step : State -> I -> State) :
  (forall s i, f (step s i) = f s) ->
  forall l s, f (fold_left step l s) = f s.
Proof.
  intros Hstep l. induction l as [ | i l IH]; intros s; simpl.
  - reflexivity.
  - now rewrite IH, Hstep.
Qed.

Lemma controls_ladder_substep (dc : flt) (s : State) :
  controls (ladder_substep dc s) = controls s.
Proof. reflexivity. Qed.

Lemma controls_filter_sample (s : State) (i : nat) :
  controls (filter_sample s i) = controls s.
Proof. reflexivity. Qed.

Lemma controls_sample_loop (l : list nat) (s : State) :
  controls (fold_left filter_sample l s) = controls s.
Proof. apply fold_left_frame. apply controls_filter_sample. Qed.

Lemma controls_filter (s : State) :
  controls (filter s) = controls (smooth_and_update s).
Proof. unfold filter. apply controls_sample_loop. Qed.

(** The coefficient update writes [acr], [tune] and [resQuad] only. *)
Lemma updateFilterCoefficients_writes (s : State) :
  updateFilterCoefficients s
  = set_resQuad (mapper_resQuad (clamped_fc s) (resonance s))
      (set_tune (mapper_tune (clamped_fc s) (thermal s))
         (set_acr (mapper_acr (clamped_fc s)) s)).
Proof. reflexivity. Qed.

(** The sizes of the arrays never change. *)
Lemma ladder_substep_lengths (dc : flt) (s : State) :
  length (stage (ladder_substep dc s)) = length (stage s)
  /\ length (stageTanh (ladder_substep dc s)) = length (stageTanh s)
  /\ length (delay (ladder_substep dc s)) = length (delay s)
  /\ outputBuffer (ladder_substep dc s) = outputBuffer s.
Proof.
  assert (H1 : forall s, length (stage (first_stage dc s)) = length (stage s)
             /\ length (stageTanh (first_stage dc s)) = length (stageTanh s)
             /\ length (delay (first_stage dc s)) = length (delay s)).
  { intros s0. unfold first_stage.
    cbn [stage stageTanh delay set_stage set_stageTanh set_delay].
    rewrite !upd_length. auto. }
  assert (H2 : forall s, length (stage (second_stage s)) = length (stage s)
             /\ length (stageTanh (second_stage s)) = length (stageTanh s)
             /\ length (delay (second_stage s)) = length (delay s)).
  { intros s0. unfold second_stage.
    cbn [stage stageTanh delay set_stage set_stageTanh set_delay].
    rewrite !upd_length. auto. }
  assert (H3 : forall s, length (stage (third_stage s)) = length (stage s)
             /\ length (stageTanh (third_stage s)) = length (stageTanh s)
             /\ length (delay (third_stage s)) = length (delay s)).
  { intros s0. unfold third_stage.
    cbn [stage stageTanh delay set_stage set_stageTanh set_delay].
    rewrite !upd_length. auto. }
  assert (H4 : forall s, length (stage (fourth_stage s)) = length (stage s)
             /\ length (stageTanh (fourth_stage s)) = length (stageTanh s)
             /\ length (delay (fourth_stage s)) = length (delay s)).
  { intros s0. unfold fourth_stage.
    cbn [stage stageTanh delay set_stage set_stageTanh set_delay].
    rewrite !upd_length. auto. }
  assert (H5 : forall s, length (stage (phase_compensation s)) = length (stage s)
             /\ length (stageTanh (phase_compensation s)) = length (stageTanh s)
             /\ length (delay (phase_compensation s)) = length (delay s)).
  { intros s0. unfold phase_compensation.
    cbn [stage stageTanh delay set_stage set_stageTanh set_delay].
    rewrite !upd_length. auto. }
  unfold ladder_substep.
  destruct (H5 (fourth_stage (third_stage (second_stage (first_stage dc s)))))
    as (-> & -> & ->).
  destruct (H4 (third_stage (second_stage (first_stage dc s))))
    as (-> & -> & ->).
  destruct (H3 (second_stage (first_stage dc s))) as (-> & -> & ->).
  destruct (H2 (first_stage dc s)) as (-> & -> & ->).
  destruct (H1 s) as (-> & -> & ->).
  auto.
Qed.

Lemma wf_ladder_substep (dc : flt) (s : State) :
  wf s -> wf (ladder_substep dc s).
Proof.
  intros (Hi & Ho & Hs & Hc & Hd).
  destruct (ladder_substep_lengths dc s) as (Es & Ec & Ed & Eo).
  assert (Hin : inputBuffer (ladder_substep dc s) = inputBuffer s)
    by reflexivity.
  unfold wf. rewrite Es, Ec, Ed, Eo, Hin. auto.
Qed.

Lemma wf_filter_sample (s : State) (i : nat) : wf s -> wf (filter_sample s i).
Proof.
  intros H. unfold filter_sample.
  destruct (dc_block i s) as [dc s1] eqn:E.
  assert (H1 : wf s1).
  { unfold dc_block in E. injection E as _ <-. exact H. }
  unfold oversample. simpl fold_left.
  generalize (wf_ladder_substep dc (wf_ladder_substep dc H1)).
  generalize (ladder_substep dc (ladder_substep dc s1)).
  intros s2 (Hi & Ho & Hs & Hc & Hd).
  unfold wf.
  cbn [inputBuffer outputBuffer stage stageTanh delay set_outputBuffer].
  rewrite upd_length. auto.
Qed.

Lemma wf_updateFilterCoefficients (s : State) :
  wf s -> wf (updateFilterCoefficients s).
Proof. intros H. exact H. Qed.

Lemma wf_filter (s : State) : wf s -> wf (filter s).
Proof.
  intros H. unfold filter.
  assert (H0 : wf (smooth_and_update s)) by exact H.
  revert H0. generalize (smooth_and_update s). generalize (seq 0 WEBEAUDIO_FRAME_SIZE).
  intros l. induction l as [ | i l IH]; intros s0 H0; simpl; auto.
  apply IH. now apply wf_filter_sample.
Qed.

Lemma controls_inj (a b : State) :
  controls a = controls b ->
  inputBuffer a = inputBuffer b
  /\ thermal a = thermal b
  /\ tune a = tune b
  /\ acr a = acr b
  /\ resQuad a = resQuad b
  /\ cutoff a = cutoff b
  /\ resonance a = resonance b
  /\ targetCutoff a = targetCutoff b
  /\ targetResonance a = targetResonance b
  /\ cutoffSmoothing a = cutoffSmoothing b
  /\ resonanceSmoothing a = resonanceSmoothing b
  /\ manualCutoff a = manualCutoff b
  /\ envelopeCutoff a = envelopeCutoff b
  /\ envelopeActive a = envelopeActive b
  /\ envelopeStartCutoff a = envelopeStartCutoff b
  /\ envelopeTargetCutoff a = envelopeTargetCutoff b
  /\ envelopeStartTime a = envelopeStartTime b
  /\ envelopeDuration a = envelopeDuration b
  /\ envelopeDecayTime a = envelopeDecayTime b
  /\ envelopeSustainLevel a = envelopeSustainLevel b
  /\ envelopePhase a = envelopePhase b
  /\ currentTime a = currentTime b.
Proof.
  unfold controls. intros H. injection H. intros. repeat split; assumption.
Qed.

(** [filter] changes the live cutoff and resonance and the coefficients in
    its first three statements, and no other control variable at all. *)
Lemma filter_controls (s : State) :
  inputBuffer (filter s) = inputBuffer s
  /\ thermal (filter s) = thermal s
  /\ targetCutoff (filter s) = targetCutoff s
  /\ targetResonance (filter s) = targetResonance s
  /\ cutoffSmoothing (filter s) = cutoffSmoothing s
  /\ resonanceSmoothing (filter s) = resonanceSmoothing s
  /\ manualCutoff (filter s) = manualCutoff s
  /\ envelopeCutoff (filter s) = envelopeCutoff s
  /\ envelopeActive (filter s) = envelopeActive s
  /\ envelopeStartCutoff (filter s) = envelopeStartCutoff s
  /\ envelopeTargetCutoff (filter s) = envelopeTargetCutoff s
  /\ envelopeStartTime (filter s) = envelopeStartTime s
  /\ envelopeDuration (filter s) = envelopeDuration s
  /\ envelopeDecayTime (filter s) = envelopeDecayTime s
  /\ envelopeSustainLevel (filter s) = envelopeSustainLevel s
  /\ envelopePhase (filter s) = envelopePhase s
  /\ currentTime (filter s) = currentTime s.
Proof.
  generalize (controls_inj (controls_filter s)).
  generalize (filter s). intros s'.
  intros (-> & -> & _ & _ & _ & _ & _ & -> & -> & -> & -> & -> & -> & ->
          & -> & -> & -> & -> & -> & -> & -> & ->).
  repeat split.
Qed.

Lemma filter_live (s : State) :
  cutoff (filter s)
  = smoothParameter (cutoff s) (targetCutoff s) (cutoffSmoothing s)
  /\ resonance (filter s)
     = smoothParameter (resonance s) (targetResonance s)
         (resonanceSmoothing s)
  /\ tune (filter s) = tune (smooth_and_update s)
  /\ acr (filter s) = acr (smooth_and_update s)
  /\ resQuad (filter s) = resQuad (smooth_and_update s).
Proof.
  generalize (controls_inj (controls_filter s)).
  generalize (filter s). intros s'.
  intros (_ & _ & -> & -> & -> & -> & -> & _).
  repeat split.
Qed.

End Frames.

(** ** Invariants of the reachable states *)

Section Invariants.

Context {L : Libm}.

Ltac branches :=
  cbv zeta;
  repeat match goal with
    | |- context [if ?b then _ else _] => destruct b
    end.

Lemma wf_fresh : wf fresh.
Proof. repeat split. Qed.

Lemma wf_init (s : State) : wf s -> wf (init s).
Proof.
  intros (Hi & Ho & _). unfold init, setCutoff, setResonance. branches;
    (split; [ exact Hi | split; [ exact Ho | repeat split ] ]).
Qed.

Lemma wf_run (c : call) (s : State) : wf s -> wf (run c s).
Proof.
  intros H. destruct c; simpl run.
  - destruct (length block =? WEBEAUDIO_FRAME_SIZE)%nat eqn:E; [ | exact H ].
    apply Nat.eqb_eq in E. destruct H as (_ & H).
    split; [ exact E | exact H ].
  - unfold setCutoff. branches; exact H.
  - exact H.
  - unfold setEnvelopeActive. branches; exact H.
  - unfold setEnvelopeCutoff. branches; exact H.
  - exact H.
  - exact H.
  - exact H.
  - exact H.
  - unfold updateEnvelope. branches; exact H.
  - now apply wf_init.
  - now apply wf_filter.
Qed.

Lemma constants_run (c : call) (s : State) :
  constants_ok s -> constants_ok (run c s).
Proof.
  intros H. destruct c; simpl run.
  - destruct (length block =? WEBEAUDIO_FRAME_SIZE)%nat; exact H.
  - unfold setCutoff. branches; exact H.
  - exact H.
  - unfold setEnvelopeActive. branches; exact H.
  - unfold setEnvelopeCutoff. branches; exact H.
  - exact H.
  - exact H.
  - exact H.
  - exact H.
  - unfold updateEnvelope. branches; exact H.
  - destruct H as (Ht & _). unfold init, setCutoff, setResonance.
    branches; (split; [ exact Ht | split; reflexivity ]).
  - destruct H as (Ht & Hc & Hr).
    destruct (filter_controls s) as (_ & Et & _ & _ & Ec & Er & _).
    unfold constants_ok. rewrite Et, Ec, Er.
    split; [ exact Ht | split; [ exact Hc | exact Hr ] ].
Qed.

Lemma phase_run (c : call) (s : State) : phase_ok s -> phase_ok (run c s).
Proof.
  intros (Ha & Hp). destruct c; simpl run.
  - destruct (length block =? WEBEAUDIO_FRAME_SIZE)%nat; split; assumption.
  - unfold setCutoff. branches; split; assumption.
  - split; assumption.
  - unfold setEnvelopeActive, phase_ok.
    destruct (active =? 0)%Z eqn:E; cbn.
    + split; [ reflexivity | lia ].
    + apply Z.eqb_neq in E. split; [ intros; contradiction | exact Hp ].
  - unfold setEnvelopeCutoff. branches; split; assumption.
  - split; assumption.
  - split; assumption.
  - unfold phase_ok. cbn. split; [ discriminate | lia ].
  - unfold phase_ok. cbn. split; [ reflexivity | lia ].
  - unfold updateEnvelope, envelope_output, phase_ok.
    cbv zeta.
    cbn [envelopePhase envelopeActive set_currentTime set_envelopePhase
         set_envelopeStartCutoff set_envelopeTargetCutoff
         set_envelopeStartTime set_envelopeDuration set_envelopeCutoff
         set_targetCutoff updateFilterCoefficients set_acr set_tune
         set_resQuad].
    destruct (envelopePhase s =? 0)%Z eqn:E0; [ split; assumption | ].
    apply Z.eqb_neq in E0.
    assert (Hact : envelopeActive s <> 0%Z) by (intros E; auto).
    destruct (fge _ _);
      [ destruct (envelopePhase s =? 1)%Z eqn:E1;
        [ | destruct (envelopePhase s =? 2)%Z eqn:E2;
            [ | destruct (envelopePhase s =? 3)%Z eqn:E3 ] ] | ];
      cbn; split; try (intros; contradiction); try lia; try assumption.
  - unfold init, setCutoff, setResonance, phase_ok.
    branches; cbn; (split; [ reflexivity | lia ]).
  - destruct (filter_controls s)
      as (_ & _ & _ & _ & _ & _ & _ & _ & Ea & _ & _ & _ & _ & _ & _ & Ep & _).
    unfold phase_ok. rewrite Ea, Ep. split; assumption.
Qed.

Lemma reachable_invariants (s : State) :
  reachable s -> wf s /\ constants_ok s /\ phase_ok s.
Proof.
  induction 1 as [ | c s _ (Hw & Hc & Hp)].
  - repeat split; simpl; lia.
  - split; [ now apply wf_run | split ];
      [ now apply constants_run | now apply phase_run ].
Qed.

End Invariants.

(** ** The envelope generator *)

Section Envelope.

Context {L : Libm}.

(** The four ways through [updateEnvelope]. *)

Lemma updateEnvelope_idle (t : flt) (s : State) :
  envelopePhase s = 0%Z -> updateEnvelope t s = set_currentTime t s.
Proof.
  intros H. unfold updateEnvelope. cbv zeta.
  cbn [envelopePhase set_currentTime]. rewrite H. reflexivity.
Qed.

Lemma updateEnvelope_running (t : flt) (s : State) :
  envelopePhase s <> 0%Z ->
  fge (envelope_progress (set_currentTime t s)) (Fin 1.0) = false ->
  updateEnvelope t s
  = envelope_output (envelope_progress (set_currentTime t s))
      (set_currentTime t s).
Proof.
  intros H0 Hp. unfold updateEnvelope. cbv zeta.
  rewrite Hp. cbn [envelopePhase set_currentTime].
  apply Z.eqb_neq in H0. rewrite H0. reflexivity.
Qed.

Lemma updateEnvelope_attack_done (t : flt) (s : State) :
  envelopePhase s = 1%Z ->
  fge (envelope_progress (set_currentTime t s)) (Fin 1.0) = true ->
  updateEnvelope t s
  = envelope_output (Fin 1.0)
      (set_envelopePhase 2
         (set_envelopeDuration (envelopeDecayTime s)
            (set_envelopeStartTime t
               (set_envelopeTargetCutoff
                  (envelopeTargetCutoff s
                   + (manualCutoff s - envelopeTargetCutoff s)
                     * (Fin 1.0 - envelopeSustainLevel s))%flt
                  (set_envelopeStartCutoff (envelopeTargetCutoff s)
                     (set_currentTime t s)))))).
Proof.
  intros H1 Hp. unfold updateEnvelope. cbv zeta.
  rewrite Hp. cbn [envelopePhase set_currentTime]. rewrite H1.
  reflexivity.
Qed.

Lemma updateEnvelope_decay_done (t : flt) (s : State) :
  envelopePhase s = 2%Z ->
  fge (envelope_progress (set_currentTime t s)) (Fin 1.0) = true ->
  updateEnvelope t s
  = envelope_output (Fin 1.0) (set_envelopePhase 3 (set_currentTime t s)).
Proof.
  intros H2 Hp. unfold updateEnvelope. cbv zeta.
  rewrite Hp. cbn [envelopePhase set_currentTime]. rewrite H2.
  reflexivity.
Qed.

Lemma updateEnvelope_held (t : flt) (s : State) :
  envelopePhase s = 3%Z ->
  fge (envelope_progress (set_currentTime t s)) (Fin 1.0) = true ->
  updateEnvelope t s = set_currentTime t s.
Proof.
  intros H3 Hp. unfold updateEnvelope. cbv zeta.
  rewrite Hp. cbn [envelopePhase set_currentTime]. rewrite H3.
  reflexivity.
Qed.

(** The progress of a phase with a strictly positive duration. *)
Lemma envelope_progress_fin (t t0 d : Q) (s : State) :
  envelopeStartTime s = Fin t0 ->
  envelopeDuration s = Fin d ->
  0 < d ->
  envelope_progress (set_currentTime (Fin t) s) = Fin ((t - t0) / d).
Proof.
  intros Ht0 Hd Hpos. unfold envelope_progress.
  cbn [currentTime envelopeStartTime envelopeDuration set_currentTime].
  rewrite Ht0, Hd. cbn [fsub fneg fadd]. now rewrite fdiv_pos.
Qed.

(** What [envelope_output] writes. *)
Lemma envelope_output_fields (p : flt) (s : State) :
  let s' := envelope_output p s in
  envelopeCutoff s'
  = (envelopeStartCutoff s
     + (envelopeTargetCutoff s - envelopeStartCutoff s) * p)%flt
  /\ targetCutoff s' = envelopeCutoff s'
  /\ envelopePhase s' = envelopePhase s
  /\ envelopeActive s' = envelopeActive s
  /\ envelopeStartCutoff s' = envelopeStartCutoff s
  /\ envelopeTargetCutoff s' = envelopeTargetCutoff s
  /\ envelopeStartTime s' = envelopeStartTime s
  /\ envelopeDuration s' = envelopeDuration s
  /\ envelopeDecayTime s' = envelopeDecayTime s
  /\ envelopeSustainLevel s' = envelopeSustainLevel s
  /\ manualCutoff s' = manualCutoff s
  /\ currentTime s' = currentTime s.
Proof. repeat split. Qed.

(** C1.  A release never ramps: [setEnvelopeRelease] stores the start, the
    target, the start time and the duration of the ramp but leaves the phase
    at 0, and [updateEnvelope] returns before it reads them when the phase
    is 0.  So every later [updateEnvelope] only records the time and the
    envelope cutoff keeps the value it had at the trigger.  On a fresh module,
    after [setEnvelopeRelease(500, 1)] at time 0, [updateEnvelope(0.5)]
    leaves the envelope cutoff at 1000, where the ramp
    start + (target - start) * ((t - t0) / releaseTime) is 750. *)
Theorem release_is_not_interpolated :
  (forall (target releaseTime t : flt) (s : State),
      let s1 := setEnvelopeRelease target releaseTime s in
      updateEnvelope t s1 = set_currentTime t s1
      /\ envelopeCutoff (updateEnvelope t s1) = envelopeCutoff s
      /\ targetCutoff (updateEnvelope t s1) = targetCutoff s)
  /\ (let s1 := setEnvelopeRelease (Fin 500) (Fin 1) fresh in
      envelopeStartCutoff s1 = Fin 1000.0
      /\ envelopeTargetCutoff s1 = Fin 500
      /\ envelopeStartTime s1 = Fin 0.0
      /\ envelopeDuration s1 = Fin 1
      /\ envelopeCutoff (updateEnvelope (Fin 0.5) s1) = Fin 1000.0
      /\ ramp 1000.0 500 0.0 1 0.5 == 750
      /\ ~ Fin 1000.0 =~ Fin (ramp 1000.0 500 0.0 1 0.5)).
Proof.
  assert (G : forall (target releaseTime t : flt) (s : State),
             updateEnvelope t (setEnvelopeRelease target releaseTime s)
             = set_currentTime t (setEnvelopeRelease target releaseTime s)).
  { intros. apply updateEnvelope_idle. reflexivity. }
  split.
  - intros target releaseTime t s s1. subst s1.
    rewrite G. repeat split.
  - cbv zeta. rewrite G. repeat split; try reflexivity.
    simpl. unfold ramp. intros H. vm_compute in H. discriminate H.
Qed.

(** C8, as the code has it.  In every reachable state in which the envelope
    is inactive or idle, [updateEnvelope t] writes [currentTime] and nothing
    else. *)
Theorem idle_advance_records_time_only (t : flt) (s : State) :
  reachable s ->
  envelopeActive s = 0%Z \/ envelopePhase s = 0%Z ->
  updateEnvelope t s = set_currentTime t s.
Proof.
  intros Hr H. apply updateEnvelope_idle.
  destruct H as [H | H]; [ | exact H ].
  destruct (reachable_invariants Hr) as (_ & _ & Hp & _). auto.
Qed.

(** *** The ramp *)

Lemma ramp_start (a b t0 d : Q) : 0 < d -> ramp a b t0 d t0 == a.
Proof. intros Hd. unfold ramp. field. lra. Qed.




(** Progress below 1 and at least 1, in terms of the times. *)
Lemma progress_lt_1 (t t0 d : Q) : 0 < d -> ((t - t0) / d < 1 <-> t < t0 + d).
Proof.
  intros Hd. split; intros H.
  - apply Qnot_le_lt. intros Hle. apply (Qlt_not_le _ _ H).
    apply Qle_shift_div_l; [ exact Hd | lra ].
  - apply Qlt_shift_div_r; [ exact Hd | lra ].
Qed.

Lemma progress_ge_1 (t t0 d : Q) : 0 < d -> (1 <= (t - t0) / d <-> t0 + d <= t).
Proof.
  intros Hd. split; intros H.
  - apply Qnot_lt_le. intros Hlt. apply (Qle_not_lt _ _ H).
    apply progress_lt_1; assumption.
  - apply Qle_shift_div_l; [ exact Hd | lra ].
Qed.

(** One call in the middle of a phase: the envelope cutoff is on the ramp,
    it is copied to the target cutoff, and the phase and its parameters are
    kept. *)
Lemma updateEnvelope_ramp (a b t0 d t : Q) (s : State) :
  envelopePhase s <> 0%Z ->
  envelopeStartCutoff s = Fin a ->
  envelopeTargetCutoff s = Fin b ->
  envelopeStartTime s = Fin t0 ->
  envelopeDuration s = Fin d ->
  0 < d ->
  t < t0 + d ->
  let s' := updateEnvelope (Fin t) s in
  envelopeCutoff s' = Fin (ramp a b t0 d t)
  /\ targetCutoff s' = Fin (ramp a b t0 d t)
  /\ envelopePhase s' = envelopePhase s
  /\ envelopeStartCutoff s' = Fin a
  /\ envelopeTargetCutoff s' = Fin b
  /\ envelopeStartTime s' = Fin t0
  /\ envelopeDuration s' = Fin d.
Proof.
  intros Hph Ha Hb Ht0 Hd Hpos Ht s'. subst s'.
  pose proof (envelope_progress_fin t s Ht0 Hd Hpos) as Ep.
  rewrite updateEnvelope_running; [ | exact Hph | ].
  - rewrite Ep.
    destruct (envelope_output_fields (Fin ((t - t0) / d))
                (set_currentTime (Fin t) s))
      as (E1 & E2 & E3 & _ & E5 & E6 & E7 & E8 & _).
    rewrite E2, E1, E3, E5, E6, E7, E8.
    cbn [envelopeStartCutoff envelopeTargetCutoff envelopeStartTime
         envelopeDuration envelopePhase set_currentTime].
    rewrite Ha, Hb, Ht0, Hd. repeat split.
  - rewrite Ep. apply fge_fin_false.
    apply progress_lt_1 in Ht; [ | exact Hpos ]. lra.
Qed.


(** The end of the attack. *)
Lemma updateEnvelope_to_decay (b t0 d t m sl : Q) (s : State) :
  envelopePhase s = 1%Z ->
  envelopeTargetCutoff s = Fin b ->
  envelopeStartTime s = Fin t0 ->
  envelopeDuration s = Fin d ->
  manualCutoff s = Fin m ->
  envelopeSustainLevel s = Fin sl ->
  0 < d ->
  t0 + d <= t ->
  let s' := updateEnvelope (Fin t) s in
  envelopePhase s' = 2%Z
  /\ envelopeStartCutoff s' = Fin b
  /\ envelopeTargetCutoff s' = Fin (b + (m - b) * (1.0 - sl))
  /\ envelopeStartTime s' = Fin t
  /\ envelopeDuration s' = envelopeDecayTime s.
Proof.
  intros Hph Hb Ht0 Hd Hm Hsl Hpos Ht s'. subst s'.
  pose proof (envelope_progress_fin t s Ht0 Hd Hpos) as Ep.
  rewrite updateEnvelope_attack_done; [ | exact Hph | ].
  - rewrite Hb, Hm, Hsl. repeat split.
  - rewrite Ep. apply fge_fin. apply progress_ge_1 in Ht; [ | exact Hpos ].
    lra.
Qed.










End Envelope.

(** *** Runs of the envelope with the rational stand-in *)

(** C8 on a fresh module: the call at time 5 only records the time. *)
Lemma idle_advance_witness :
  updateEnvelope (L := rational_libm) (Fin 5) fresh = set_currentTime (Fin 5) fresh.
Proof.
  apply idle_advance_records_time_only.
  - apply reachable_fresh.
  - left. reflexivity.
Defined.

(** C8 as stated fails: on a fresh module (envelope inactive, phase idle)
    [updateEnvelope 5] changes [currentTime] from 0 to 5, and the next
    [setEnvelopeAttack] reads it as the start time of the attack. *)
Lemma idle_advance_is_observable :
  envelopeActive fresh = 0%Z
  /\ envelopePhase fresh = 0%Z
  /\ currentTime fresh = Fin 0.0
  /\ currentTime (updateEnvelope (L := rational_libm) (Fin 5) fresh) = Fin 5
  /\ updateEnvelope (L := rational_libm) (Fin 5) fresh <> fresh
  /\ envelopeStartTime
       (setEnvelopeAttack (Fin 200) (Fin 2000) (Fin 0.1)
          (updateEnvelope (L := rational_libm) (Fin 5) fresh)) = Fin 5
  /\ envelopeStartTime
       (setEnvelopeAttack (Fin 200) (Fin 2000) (Fin 0.1) fresh) = Fin 0.0.
Proof.
  repeat split. intros E.
  apply (f_equal currentTime) in E. discriminate E.
Qed.



(** ** The coefficient mapper *)

Section Coefficients.

Context {L : Libm}.

Ltac branches :=
  cbv zeta;
  repeat match goal with
    | |- context [if ?b then _ else _] => destruct b
    end.

Lemma fmin_le_r (x y : flt) : y <> NaN -> fle (fmin x y) y = true.
Proof.
  intros Hy. destruct x as [a | | |], y as [b | | |]; try congruence;
    simpl; try reflexivity.
  - destruct (Qle_bool a b) eqn:E; simpl; [ exact E | ].
    apply Qle_bool_iff. apply Qle_refl.
  - apply Qle_bool_iff. apply Qle_refl.
  - apply Qle_bool_iff. apply Qle_refl.
Qed.

Lemma clamped_fc_le (s : State) : fle (clamped_fc s) (Fin 0.45) = true.
Proof. unfold clamped_fc. cbv zeta. apply fmin_le_r. discriminate. Qed.

Lemma clamped_fc_high (c : Q) (s : State) :
  cutoff s = Fin c -> 0.45 * 44100.0 <= c -> clamped_fc s =~ Fin 0.45.
Proof.
  intros Hc Hle. unfold clamped_fc, SAMPLE_RATE. cbv zeta. rewrite Hc.
  rewrite fdiv_pos by reflexivity.
  assert (H : 0.45 <= c / 44100.0).
  { apply Qle_shift_div_l; [ reflexivity | exact Hle ]. }
  simpl. destruct (Qle_bool (c / 44100.0) 0.45) eqn:E.
  - apply Qle_bool_iff in E. simpl. lra.
  - simpl. reflexivity.
Qed.

Lemma clamped_fc_low (c : Q) (s : State) :
  cutoff s = Fin c -> c <= 0.45 * 44100.0 ->
  clamped_fc s = Fin (c / 44100.0).
Proof.
  intros Hc Hle. unfold clamped_fc, SAMPLE_RATE. cbv zeta. rewrite Hc.
  rewrite fdiv_pos by reflexivity.
  assert (H : c / 44100.0 <= 0.45).
  { apply Qle_shift_div_r; [ reflexivity | exact Hle ]. }
  apply Qle_bool_iff in H. simpl. now rewrite H.
Qed.

Lemma clamped_fc_special (s : State) :
  (cutoff s = PInf -> clamped_fc s = Fin 0.45)
  /\ (cutoff s = NaN -> clamped_fc s = Fin 0.45)
  /\ (cutoff s = NInf -> clamped_fc s = NInf).
Proof.
  unfold clamped_fc. cbv zeta. repeat split; intros ->; reflexivity.
Qed.

(** C4.  Whatever the live cutoff is (a number of any size, an infinity or
    NaN), the normalised frequency [fc] that [updateFilterCoefficients]
    uses is at most 0.45, and the three coefficients it writes are the
    mapper's formulas at that [fc]; a cutoff at or above 0.45 times the sample
    rate gives exactly 0.45.  The clamp is the first thing the function
    does. *)
Theorem cutoff_clamp_invariant (s : State) :
  fle (clamped_fc s) (Fin 0.45) = true
  /\ acr (updateFilterCoefficients s) = mapper_acr (clamped_fc s)
  /\ tune (updateFilterCoefficients s)
     = mapper_tune (clamped_fc s) (thermal s)
  /\ resQuad (updateFilterCoefficients s)
     = mapper_resQuad (clamped_fc s) (resonance s)
  /\ (forall c, cutoff s = Fin c -> 0.45 * 44100.0 <= c ->
      clamped_fc s =~ Fin 0.45)
  /\ (forall c, cutoff s = Fin c -> c <= 0.45 * 44100.0 ->
      clamped_fc s = Fin (c / 44100.0))
  /\ (cutoff s = PInf -> clamped_fc s = Fin 0.45)
  /\ (cutoff s = NaN -> clamped_fc s = Fin 0.45).
Proof.
  split; [ apply clamped_fc_le | ].
  do 3 (split; [ reflexivity | ]).
  split; [ intros c; apply clamped_fc_high | ].
  split; [ intros c; apply clamped_fc_low | ].
  destruct (clamped_fc_special s) as (H1 & H2 & _). split; assumption.
Qed.

(** *** Coefficients and live values *)

Lemma synced_update (s : State) : synced (updateFilterCoefficients s).
Proof. repeat split. Qed.

Lemma clamped_fc_ext (s s' : State) :
  cutoff s = cutoff s' -> clamped_fc s = clamped_fc s'.
Proof. intros H. unfold clamped_fc. now rewrite H. Qed.

Lemma synced_ext (s s' : State) :
  cutoff s' = cutoff s -> resonance s' = resonance s ->
  thermal s' = thermal s ->
  tune s' = tune s -> acr s' = acr s -> resQuad s' = resQuad s ->
  synced s -> synced s'.
Proof.
  intros Hc Hr Ht E1 E2 E3 (S1 & S2 & S3). unfold synced.
  rewrite (clamped_fc_ext s' s Hc), Hr, Ht, E1, E2, E3. auto.
Qed.

Lemma synced_filter (s : State) : synced (filter s).
Proof.
  generalize (controls_inj (controls_filter s)).
  generalize (filter s). intros s'
    (_ & Ht & E1 & E2 & E3 & Ec & Er & _).
  apply synced_ext with (s := smooth_and_update s); try assumption.
  apply synced_update.
Qed.

(** No call but [filter] writes the live cutoff or resonance. *)
Lemma live_frame (c : call) (s : State) :
  c <> Filter ->
  cutoff (run c s) = cutoff s
  /\ resonance (run c s) = resonance s
  /\ thermal (run c s) = thermal s.
Proof.
  intros Hc. destruct c; simpl run; try congruence.
  - destruct (length block =? WEBEAUDIO_FRAME_SIZE)%nat; repeat split.
  - unfold setCutoff. branches; repeat split.
  - repeat split.
  - unfold setEnvelopeActive. branches; repeat split.
  - unfold setEnvelopeCutoff. branches; repeat split.
  - repeat split.
  - repeat split.
  - repeat split.
  - repeat split.
  - unfold updateEnvelope. branches; repeat split.
  - unfold init, setCutoff. branches; repeat split.
Qed.

(** A call either recomputes the coefficients from the live values or leaves
    them alone. *)
Lemma run_coefficients (c : call) (s : State) :
  synced (run c s)
  \/ (tune (run c s) = tune s /\ acr (run c s) = acr s
      /\ resQuad (run c s) = resQuad s).
Proof.
  destruct c; simpl run.
  - right. destruct (length block =? WEBEAUDIO_FRAME_SIZE)%nat; repeat split.
  - unfold setCutoff. cbv zeta.
    destruct (_ =? _)%Z; [ left; apply synced_update | right; repeat split ].
  - left. apply synced_update.
  - unfold setEnvelopeActive. cbv zeta.
    destruct (_ =? _)%Z; [ left; apply synced_update | right; repeat split ].
  - unfold setEnvelopeCutoff. cbv zeta.
    destruct (_ =? _)%Z; [ right; repeat split | left; apply synced_update ].
  - right. repeat split.
  - right. repeat split.
  - right. repeat split.
  - right. repeat split.
  - unfold updateEnvelope. cbv zeta.
    destruct (_ =? 0)%Z; [ right; repeat split | ].
    destruct (fge _ _).
    + destruct (_ =? 1)%Z; [ left; apply synced_update | ].
      destruct (_ =? 2)%Z; [ left; apply synced_update | ].
      destruct (_ =? 3)%Z; [ right; repeat split | left; apply synced_update ].
    + left. apply synced_update.
  - left. unfold init, setCutoff, setResonance. branches; repeat split.
  - left. apply synced_filter.
Qed.

Lemma synced_run (c : call) (s : State) : synced s -> synced (run c s).
Proof.
  intros Hs.
  assert (Hc : c = Filter \/ c <> Filter)
    by (destruct c; (left; reflexivity) || (right; discriminate)).
  destruct Hc as [-> | Hc]; [ apply synced_filter | ].
  destruct (run_coefficients c s) as [H | (E1 & E2 & E3)]; [ exact H | ].
  destruct (live_frame s Hc) as (Ec & Er & Et).
  now apply synced_ext with (s := s).
Qed.

(** C9, as the code has it.  The coefficients written by
    [updateFilterCoefficients] are a function of the live cutoff, the live
    resonance and the thermal constant, whatever the targets are.  No call
    other than [filter] writes the live cutoff or resonance.  So, once the
    coefficients belong to the live values ([synced], which holds after any
    [init], [setResonance] or [filter] and is kept by every call), no call
    other than [filter] changes [tune], [acr] or [resQuad]. *)
Theorem coefficients_follow_live_values :
  (forall s,
      tune (updateFilterCoefficients s)
      = mapper_tune (clamped_fc s) (thermal s)
      /\ acr (updateFilterCoefficients s) = mapper_acr (clamped_fc s)
      /\ resQuad (updateFilterCoefficients s)
         = mapper_resQuad (clamped_fc s) (resonance s))
  /\ (forall s s',
        cutoff s = cutoff s' -> resonance s = resonance s' ->
        thermal s = thermal s' ->
        tune (updateFilterCoefficients s) = tune (updateFilterCoefficients s')
        /\ acr (updateFilterCoefficients s)
           = acr (updateFilterCoefficients s')
        /\ resQuad (updateFilterCoefficients s)
           = resQuad (updateFilterCoefficients s'))
  /\ (forall c s,
        c <> Filter ->
        cutoff (run c s) = cutoff s /\ resonance (run c s) = resonance s)
  /\ (forall c s,
        synced s -> c <> Filter ->
        tune (run c s) = tune s
        /\ acr (run c s) = acr s
        /\ resQuad (run c s) = resQuad s)
  /\ (forall c s, synced s -> synced (run c s))
  /\ (forall s,
        synced (filter s) /\ synced (init s)
        /\ forall r, synced (setResonance r s)).
Proof.
  split; [ intros s; repeat split | ].
  split.
  { intros s s' Hc Hr Ht.
    cbn [tune acr resQuad updateFilterCoefficients set_acr set_tune
         set_resQuad thermal resonance].
    rewrite (clamped_fc_ext s s' Hc), Hr, Ht. repeat split. }
  split.
  { intros c s Hc. destruct (live_frame s Hc) as (E1 & E2 & _).
    split; assumption. }
  split.
  { intros c s (S1 & S2 & S3) Hc.
    destruct (live_frame s Hc) as (Ec & Er & Et).
    destruct (run_coefficients c s) as [(T1 & T2 & T3) | H]; [ | exact H ].
    rewrite T1, T2, T3, S1, S2, S3.
    rewrite (clamped_fc_ext (run c s) s Ec), Er, Et. repeat split. }
  split; [ intros c s; apply synced_run | ].
  intros s. split; [ apply synced_filter | ].
  split; [ | intros r; apply synced_update ].
  unfold init, setCutoff, setResonance. branches; repeat split.
Qed.

End Coefficients.

(** C4 on a cutoff request of 30000 Hz, above 0.45 * 44100 = 19845 Hz. *)
Lemma cutoff_clamp_witness :
  clamped_fc (set_cutoff (Fin 30000) fresh) =~ Fin 0.45.
Proof.
  apply (proj1 (proj2 (proj2 (proj2 (proj2
           (cutoff_clamp_invariant (L := rational_libm)
              (set_cutoff (Fin 30000) fresh)))))) 30000).
  - reflexivity.
  - discriminate.
Defined.

(** C9 after [init]: a cutoff request leaves the coefficients alone. *)
Lemma coefficients_witness :
  let s := init (L := rational_libm) fresh in
  tune (run (L := rational_libm) (SetCutoff (Fin 5000)) s) = tune s
  /\ acr (run (L := rational_libm) (SetCutoff (Fin 5000)) s) = acr s
  /\ resQuad (run (L := rational_libm) (SetCutoff (Fin 5000)) s) = resQuad s.
Proof.
  cbv zeta.
  pose proof (coefficients_follow_live_values (L := rational_libm))
    as (_ & _ & _ & Hsame & _ & Hsync).
  refine (Hsame (SetCutoff (Fin 5000)) (init (L := rational_libm) fresh)
            (proj1 (proj2 (Hsync fresh))) _).
  discriminate.
Defined.

(** C9 as stated fails: a freshly loaded module has zero coefficients, and
    the first [setCutoff] or [setResonance], which leave the live cutoff and
    resonance as they are, set [acr] and [resQuad] to the mapper's values. *)
Lemma first_setter_changes_coefficients :
  let s1 := setCutoff (L := rational_libm) (Fin 500) fresh in
  let s2 := setResonance (L := rational_libm) (Fin 0.5) fresh in
  acr fresh = Fin 0
  /\ resQuad fresh = Fin 0
  /\ cutoff s1 = cutoff fresh /\ resonance s1 = resonance fresh
  /\ cutoff s2 = cutoff fresh /\ resonance s2 = resonance fresh
  /\ ~ acr s1 =~ acr fresh
  /\ ~ resQuad s1 =~ resQuad fresh
  /\ ~ acr s2 =~ acr fresh
  /\ ~ resQuad s2 =~ resQuad fresh.
Proof.
  cbv zeta. repeat split; intros H; vm_compute in H; discriminate H.
Qed.

(** ** The saturation nonlinearity *)

Section Saturation.

Context {L : Libm}.

Lemma input_scale_bounds (x : Q) :
  0 <= Qabs x / (1.0 + Qabs x) < 1.
Proof.
  pose proof (Qabs_nonneg x) as H.
  split.
  - apply Qle_shift_div_l; lra.
  - apply Qlt_shift_div_r; lra.
Qed.

(** On a finite argument every division of [enhanced_tanh] has a strictly
    positive divisor, so the result is the rational [enhanced_tanhQ]. *)
Lemma enhanced_tanh_fin (q : Q) :
  enhanced_tanh (Fin q) = Fin (enhanced_tanhQ q).
Proof.
  pose proof (Qabs_nonneg q) as Habs.
  pose proof (input_scale_bounds q) as (Hs0 & Hs1).
  unfold enhanced_tanh, enhanced_tanhQ. cbv zeta.
  cbn [fabs tanh fadd].
  rewrite (@fdiv_pos (Qabs q) (1.0 + Qabs q)) by lra.
  cbn [fmul fadd].
  rewrite (@fdiv_pos 1.0 (1.0 + 2.0 * (Qabs q / (1.0 + Qabs q)))) by lra.
  cbn [fmul fadd].
  rewrite fdiv_pos by lra.
  unfold fgt. cbn [flt_lt].
  destruct (negb (Qle_bool q 0)); reflexivity.
Qed.

Lemma scaled_bound (q u A : Q) :
  - A <= q <= A -> 0 <= u <= 1 -> - A <= q * u <= A.
Proof.
  intros (H1 & H2) (H3 & H4).
  assert (0 <= (A - q) * u) by (apply Qmult_le_0_compat; lra).
  assert (0 <= (A + q) * u) by (apply Qmult_le_0_compat; lra).
  assert (0 <= (A - q) * (1 - u)) by (apply Qmult_le_0_compat; lra).
  assert (0 <= (A + q) * (1 - u)) by (apply Qmult_le_0_compat; lra).
  assert ((A - q) * u == A * u - q * u) by ring.
  assert ((A + q) * u == A * u + q * u) by ring.
  assert ((A - q) * (1 - u) == A - q - A * u + q * u) by ring.
  assert ((A + q) * (1 - u) == A + q - A * u - q * u) by ring.
  split; lra.
Qed.

Lemma unit_product (u v : Q) : 0 <= u <= 1 -> 0 <= v <= 1 -> 0 <= u * v <= 1.
Proof.
  intros (H1 & H2) (H3 & H4).
  assert (0 <= u * v) by (apply Qmult_le_0_compat; lra).
  assert (0 <= (1 - u) * v) by (apply Qmult_le_0_compat; lra).
  assert ((1 - u) * v == v - u * v) by ring.
  split; lra.
Qed.

Lemma enhanced_tanhQ_bound (q : Q) :
  (forall x, -1 <= tanhQ x <= 1) ->
  - (1.015 + 0.018 * Qabs q) <= enhanced_tanhQ q <= 1.015 + 0.018 * Qabs q.
Proof.
  intros Ht.
  pose proof (Qabs_nonneg q) as HA.
  pose proof (input_scale_bounds q) as (HI0 & HI1).
  assert (Hq : - Qabs q <= q <= Qabs q).
  { split; [ | apply Qle_Qabs ].
    rewrite <- (Qopp_involutive q) at 2. apply Qopp_le_compat.
    rewrite <- Qabs_opp. apply Qle_Qabs. }
  unfold enhanced_tanhQ. cbv zeta.
  set (A := Qabs q) in *.
  set (I := A / (1.0 + A)) in *.
  set (F := 1.0 / (1.0 + 2.0 * I)).
  assert (HF : 0 <= F <= 1).
  { unfold F. split.
    - apply Qle_shift_div_l; lra.
    - apply Qle_shift_div_r; lra. }
  assert (HD : 0 <= 1 / (1.0 + A) <= 1).
  { split.
    - apply Qle_shift_div_l; lra.
    - apply Qle_shift_div_r; lra. }
  assert (HI : 0 <= I <= 1) by lra.
  pose proof (unit_product HI HF) as HW.
  pose proof (unit_product HW HD) as HU.
  pose proof (unit_product HI HW) as HV.
  pose proof (scaled_bound Hq HU) as B1.
  pose proof (scaled_bound Hq HV) as B2.
  pose proof (scaled_bound Hq HW) as B3.
  assert (E1 : 0.008 * q * I * F / (1.0 + A)
               == 0.008 * (q * (I * F * (1 / (1.0 + A))))).
  { field. lra. }
  assert (E2 : 0.006 * q * I * I * F == 0.006 * (q * (I * (I * F)))) by ring.
  assert (E3 : 0.004 * q * I * F == 0.004 * (q * (I * F))) by ring.
  rewrite E1, E2, E3.
  set (a := if negb (Qle_bool q 0) then 1.0 else 0.98).
  assert (Ha : 0 <= a <= 1) by (unfold a; destruct (negb _); split; discriminate).
  assert (HB : - (1.015) <= a * tanhQ q * (1.0 + 0.015 * I * F) <= 1.015).
  { assert (T1 : - (1) <= tanhQ q * a <= 1).
    { apply (@scaled_bound (tanhQ q) a 1); [ apply Ht | exact Ha ]. }
    assert (E : a * tanhQ q * (1.0 + 0.015 * I * F)
                == tanhQ q * a + 0.015 * (tanhQ q * a * (I * F))) by ring.
    pose proof (@scaled_bound (tanhQ q * a) (I * F) 1 T1 HW) as T2.
    rewrite E. lra. }
  lra.
Qed.
(** C7.  [enhanced_tanh] is a function of its argument alone.  On every
    finite argument its result is finite: no division has a zero divisor and
    no operand is NaN; when the C library's [tanh] stays within [-1, 1] the
    result is within 1.015 + 0.018 |x| of zero.  At 0 the result is 0, given
    that the C library's [tanh] is 0 at 0. *)
Theorem saturate_finite_and_zero_at_zero :
  tanhQ 0 == 0 ->
  (forall q : Q, exists r : Q,
      enhanced_tanh (Fin q) = Fin r
      /\ ((forall x, -1 <= tanhQ x <= 1) ->
          - (1.015 + 0.018 * Qabs q) <= r <= 1.015 + 0.018 * Qabs q))
  /\ (forall q : Q, is_finite (enhanced_tanh (Fin q)) = true)
  /\ enhanced_tanh (Fin 0) =~ Fin 0.
Proof.
  intros H0. split; [ | split ].
  - intros q. exists (enhanced_tanhQ q).
    split; [ apply enhanced_tanh_fin | apply enhanced_tanhQ_bound ].
  - intros q. now rewrite enhanced_tanh_fin.
  - rewrite enhanced_tanh_fin. apply feq_fin.
    unfold enhanced_tanhQ. cbv zeta. rewrite H0.
    change (Qabs 0) with 0. change (negb (Qle_bool 0 0)) with false.
    cbv iota. field.
Qed.

End Saturation.

Lemma rational_tanh_bounded (x : Q) :
  -1 <= tanhQ (Libm := rational_libm) x <= 1.
Proof.
  pose proof (Qabs_nonneg x) as HA.
  assert (Hq : - Qabs x <= x <= Qabs x).
  { split; [ | apply Qle_Qabs ].
    rewrite <- (Qopp_involutive x) at 2. apply Qopp_le_compat.
    rewrite <- Qabs_opp. apply Qle_Qabs. }
  simpl. split.
  - apply Qle_shift_div_l; lra.
  - apply Qle_shift_div_r; lra.
Qed.

(** C7 with the rational stand-in, at 3 and at 0. *)
Lemma saturate_witness :
  (exists r : Q,
      enhanced_tanh (L := rational_libm) (Fin 3) = Fin r
      /\ - (1.015 + 0.018 * Qabs 3) <= r <= 1.015 + 0.018 * Qabs 3)
  /\ enhanced_tanh (L := rational_libm) (Fin 0) =~ Fin 0.
Proof.
  destruct (@saturate_finite_and_zero_at_zero rational_libm)
    as (Hfin & _ & Hzero).
  - reflexivity.
  - split; [ | exact Hzero ].
    destruct (Hfin 3) as (r & E & B). exists r.
    split; [ exact E | apply B, rational_tanh_bounded ].
Defined.

(** ** The parameter smoother *)

Section Smoothing.

Context {L : Libm}.






End Smoothing.


(** ** The ladder *)

Section Ladder.

Context {L : Libm}.

Ltac sized_lists :=
  repeat match goal with
    | H : length ?l = _ |- _ =>
        is_var l; destruct l; simpl in H; try discriminate H;
        try (injection H as H)
    | H : length [] = _ |- _ => clear H
    | H : O = O |- _ => clear H
    end.

(** One sub-step writes the three arrays as Section 4.5 says, in a state
    whose arrays have their sizes. *)
Lemma ladder_substep_spec (dc : flt) (s : State) :
  wf s ->
  stage (ladder_substep dc s)
  = fst (fst (spec_substep (tune s) (resQuad s) (thermal s) dc
                (stageTanh s) (delay s)))
  /\ stageTanh (ladder_substep dc s)
     = snd (fst (spec_substep (tune s) (resQuad s) (thermal s) dc
                   (stageTanh s) (delay s)))
  /\ Forall2 feq (delay (ladder_substep dc s))
       (snd (spec_substep (tune s) (resQuad s) (thermal s) dc
               (stageTanh s) (delay s))).
Proof.
  intros (_ & _ & Hs & Hc & Hd).
  destruct s as [ib ob st c d th tu ac rq cu re tc tr cs rs dbi dbo mc ec ea
                   esc etc est ed edt esl ep ct].
  cbn [stage stageTanh delay tune resQuad thermal] in *.
  sized_lists.
  cbv -[enhanced_tanh fadd fsub fmul fdiv feq].
  split; [ reflexivity | ]. split; [ reflexivity | ].
  repeat (constructor; [ apply feq_refl | ]).
  constructor; [ | constructor ].
  apply fmul_half.
Qed.

(** The sample loop body: DC blocker, two sub-steps, output. *)
Lemma filter_sample_unfold (s : State) (i : nat) :
  filter_sample s i
  = let input := (inputBuffer s).[i] in
    let dc := spec_dc input (dcBlockInput s) (dcBlockOutput s) in
    let s1 := set_dcBlockOutput dc (set_dcBlockInput input s) in
    let s2 := ladder_substep dc (ladder_substep dc s1) in
    set_outputBuffer (upd i (delay s2).[5] (outputBuffer s2)) s2.
Proof. reflexivity. Qed.

Lemma filter_sample_output (s : State) (i : nat) :
  wf s -> (i < WEBEAUDIO_FRAME_SIZE)%nat ->
  (outputBuffer (filter_sample s i)).[i] = (delay (filter_sample s i)).[5].
Proof.
  intros H Hi. rewrite filter_sample_unfold. cbv zeta.
  match goal with
  | |- context [ladder_substep ?dc (ladder_substep ?dc ?s1)] =>
      assert (H2 : wf (ladder_substep dc (ladder_substep dc s1)))
        by (do 2 apply wf_ladder_substep; exact H);
      generalize dependent (ladder_substep dc (ladder_substep dc s1))
  end.
  intros s2 (_ & Ho & _).
  cbn [outputBuffer delay set_outputBuffer].
  apply get_upd_same. rewrite Ho. exact Hi.
Qed.

Lemma filter_sample_output_other (s : State) (i j : nat) :
  i <> j ->
  (outputBuffer (filter_sample s j)).[i] = (outputBuffer s).[i].
Proof.
  intros Hij. rewrite filter_sample_unfold. cbv zeta.
  cbn [outputBuffer set_outputBuffer].
  rewrite get_upd_other by congruence.
  match goal with
  | |- context [ladder_substep ?dc (ladder_substep ?dc ?s1)] =>
      destruct (ladder_substep_lengths dc (ladder_substep dc s1))
        as (_ & _ & _ & ->);
      destruct (ladder_substep_lengths dc s1) as (_ & _ & _ & ->)
  end.
  reflexivity.
Qed.

Lemma sample_loop_output_other (i : nat) (l : list nat) :
  ~ In i l ->
  forall s,
    (outputBuffer (fold_left filter_sample l s)).[i] = (outputBuffer s).[i].
Proof.
  induction l as [ | j l IH]; intros Hin s; simpl.
  - reflexivity.
  - rewrite IH by (intros H; apply Hin; now right).
    apply filter_sample_output_other. intros ->. apply Hin. now left.
Qed.

Lemma wf_sample_loop (l : list nat) (s : State) :
  wf s -> wf (fold_left filter_sample l s).
Proof.
  revert s. induction l as [ | i l IH]; intros s H; simpl; auto.
  apply IH. now apply wf_filter_sample.
Qed.

(** The state of [filter] after the samples 0 to [i]. *)
Lemma filter_output (s : State) (i : nat) :
  wf s -> (i < WEBEAUDIO_FRAME_SIZE)%nat ->
  (outputBuffer (filter s)).[i]
  = (delay (fold_left filter_sample (seq 0 (S i)) (smooth_and_update s))).[5].
Proof.
  intros H Hi. unfold filter. cbv zeta.
  replace WEBEAUDIO_FRAME_SIZE
    with (S i + (WEBEAUDIO_FRAME_SIZE - S i))%nat by lia.
  rewrite seq_app, fold_left_app.
  rewrite sample_loop_output_other.
  2:{ rewrite in_seq. lia. }
  rewrite seq_S, fold_left_app. simpl fold_left.
  apply filter_sample_output; [ | exact Hi ].
  apply wf_sample_loop. exact H.
Qed.

(** C5.  For every input sample [filter] first applies the DC blocker, then
    runs exactly two sub-steps, then writes [delay[5]] to the output block.
    Each sub-step computes the feedback input
    dcBlockedSample - resQuad * delay[5], updates the stages 0 to 3 in order
    with the cached saturator outputs [stageTanh[0..2]] (stage 3 saturates its
    own previous delay value afresh), and sets
    delay[5] = (newStage3 + delay[4]) / 2 and delay[4] = newStage3:
    [spec_substep] is Section 4.5 and [spec_dc] Section 4.2. *)
Theorem ladder_follows_specification :
  (forall (dc : flt) (s : State),
      wf s ->
      let new :=
        spec_substep (tune s) (resQuad s) (thermal s) dc (stageTanh s)
          (delay s) in
      stage (ladder_substep dc s) = fst (fst new)
      /\ stageTanh (ladder_substep dc s) = snd (fst new)
      /\ Forall2 feq (delay (ladder_substep dc s)) (snd new)
      /\ controls (ladder_substep dc s) = controls s
      /\ dcBlockInput (ladder_substep dc s) = dcBlockInput s
      /\ dcBlockOutput (ladder_substep dc s) = dcBlockOutput s
      /\ outputBuffer (ladder_substep dc s) = outputBuffer s)
  /\ (forall (s : State) (i : nat),
        filter_sample s i
        = let input := (inputBuffer s).[i] in
          let dc := spec_dc input (dcBlockInput s) (dcBlockOutput s) in
          let s1 := set_dcBlockOutput dc (set_dcBlockInput input s) in
          let s2 := ladder_substep dc (ladder_substep dc s1) in
          set_outputBuffer (upd i (delay s2).[5] (outputBuffer s2)) s2)
  /\ (forall (s : State) (i : nat),
        wf s -> (i < WEBEAUDIO_FRAME_SIZE)%nat ->
        (outputBuffer (filter_sample s i)).[i]
        = (delay (filter_sample s i)).[5]
        /\ (outputBuffer (filter s)).[i]
           = (delay (fold_left filter_sample (seq 0 (S i))
                       (smooth_and_update s))).[5])
  /\ (forall s : State,
        filter s
        = fold_left filter_sample (seq 0 WEBEAUDIO_FRAME_SIZE)
            (smooth_and_update s)).
Proof.
  split; [ | split; [ | split ] ].
  - intros dc s H new. subst new.
    destruct (ladder_substep_spec dc H) as (E1 & E2 & E3).
    destruct (ladder_substep_lengths dc s) as (_ & _ & _ & E4).
    repeat (split; [ first [ assumption | reflexivity ] | ]). exact E4.
  - intros s i. apply filter_sample_unfold.
  - intros s i H Hi. split.
    + now apply filter_sample_output.
    + now apply filter_output.
  - reflexivity.
Qed.

End Ladder.

(** C5 on a fresh module: sample 0 of the first block. *)
Lemma ladder_witness :
  (outputBuffer (filter_sample (L := rational_libm) fresh 0)).[0]
  = (delay (filter_sample (L := rational_libm) fresh 0)).[5]
  /\ (outputBuffer (filter (L := rational_libm) fresh)).[0]
     = (delay (fold_left (filter_sample (L := rational_libm)) (seq 0 1)
                 (smooth_and_update (L := rational_libm) fresh))).[5].
Proof.
  apply (proj1 (proj2 (proj2
           (ladder_follows_specification (L := rational_libm))))).
  - exact wf_fresh.
  - unfold WEBEAUDIO_FRAME_SIZE. lia.
Defined.

(** ** The division in [updateEnvelope] *)

Section Division.

Context {L : Libm}.

Lemma env_ok_envelope_output (p : flt) (s : State) :
  finite p -> env_ok s -> env_ok (envelope_output p s).
Proof.
  intros Hp (H1 & H2 & H3 & H4 & H5 & H6 & H7 & H8 & H9).
  unfold env_ok.
  destruct (envelope_output_fields p s)
    as (E1 & _ & E3 & _ & E5 & E6 & E7 & E8 & E9 & E10 & E11 & E12).
  cbv zeta in *.
  rewrite E1, E3, E5, E6, E7, E8, E9, E10, E11, E12.
  repeat (split; [ assumption | ]).
  split; [ | split; [ assumption | ] ].
  - apply finite_fadd; [ assumption | ].
    apply finite_fmul; [ | assumption ]. now apply finite_fsub.
  - split; [ assumption | ]. split; assumption.
Qed.

Lemma env_ok_progress (t : flt) (s : State) :
  env_ok s -> finite t -> envelopePhase s <> 0%Z ->
  positive (envelopeDuration s)
  /\ finite (envelope_progress (set_currentTime t s)).
Proof.
  intros (_ & H2 & _ & _ & _ & _ & _ & _ & H9) Ht Hph.
  specialize (H9 Hph). split; [ exact H9 | ].
  unfold envelope_progress.
  cbn [currentTime envelopeStartTime envelopeDuration set_currentTime].
  apply finite_fdiv; [ | exact H9 ]. now apply finite_fsub.
Qed.

Lemma env_ok_set_currentTime (t : flt) (s : State) :
  finite t -> env_ok s -> env_ok (set_currentTime t s).
Proof.
  intros Ht (H1 & H). split; [ exact Ht | exact H ].
Qed.

Lemma env_ok_updateEnvelope (t : flt) (s : State) :
  env_ok s -> finite t -> env_ok (updateEnvelope t s).
Proof.
  intros Hok Ht.
  pose proof (env_ok_set_currentTime Ht Hok) as Hok'.
  destruct (Z.eq_dec (envelopePhase s) 0) as [E0 | N0].
  { now rewrite updateEnvelope_idle. }
  destruct (env_ok_progress Hok Ht N0) as (Hd & Hp).
  destruct (fge (envelope_progress (set_currentTime t s)) (Fin 1.0)) eqn:Eg.
  2:{ rewrite updateEnvelope_running by assumption.
      now apply env_ok_envelope_output. }
  destruct (Z.eq_dec (envelopePhase s) 1) as [E1 | N1].
  { rewrite updateEnvelope_attack_done by assumption.
    apply env_ok_envelope_output; [ apply finite_Fin | ].
    destruct Hok' as (H1 & H2 & H3 & H4 & H5 & H6 & H7 & H8 & H9).
    cbn [currentTime envelopeStartTime envelopeStartCutoff
         envelopeTargetCutoff envelopeCutoff manualCutoff
         envelopeSustainLevel envelopeDecayTime envelopeDuration
         envelopePhase set_currentTime] in *.
    unfold env_ok.
    cbn [currentTime envelopeStartTime envelopeStartCutoff
         envelopeTargetCutoff envelopeCutoff manualCutoff
         envelopeSustainLevel envelopeDecayTime envelopeDuration
         envelopePhase set_currentTime set_envelopePhase
         set_envelopeDuration set_envelopeStartTime
         set_envelopeTargetCutoff set_envelopeStartCutoff].
    repeat (split; [ first [ assumption | exact Ht ] | ]).
    split.
    - apply finite_fadd; [ assumption | ].
      apply finite_fmul; [ now apply finite_fsub | ].
      apply finite_fsub; [ apply finite_Fin | assumption ].
    - repeat (split; [ assumption | ]). intros _. assumption. }
  destruct (Z.eq_dec (envelopePhase s) 2) as [E2 | N2].
  { rewrite updateEnvelope_decay_done by assumption.
    apply env_ok_envelope_output; [ apply finite_Fin | ].
    destruct Hok' as (H1 & H2 & H3 & H4 & H5 & H6 & H7 & H8 & H9).
    repeat (split; [ assumption | ]). intros _. exact Hd. }
  destruct (Z.eq_dec (envelopePhase s) 3) as [E3 | N3].
  { now rewrite updateEnvelope_held. }
  unfold updateEnvelope. cbv zeta. rewrite Eg.
  cbn [envelopePhase set_currentTime].
  apply Z.eqb_neq in N0, N1, N2, N3. rewrite N0, N1, N2, N3.
  apply env_ok_envelope_output; [ apply finite_Fin | exact Hok' ].
Qed.

Lemma env_ok_fresh : env_ok fresh.
Proof.
  unfold env_ok. simpl.
  repeat (split; [ apply finite_Fin | ]).
  split; [ | intros H; now contradiction H ].
  exists 0.5. split; reflexivity.
Qed.

Lemma env_ok_run (c : call) (s : State) :
  env_ok s -> timed_call c -> env_ok (run c s).
Proof.
  intros Hok Hc.
  pose proof Hok as (H1 & H2 & H3 & H4 & H5 & H6 & H7 & H8 & H9).
  destruct c; simpl run; simpl in Hc.
  - destruct (length block =? WEBEAUDIO_FRAME_SIZE)%nat; exact Hok.
  - unfold setCutoff. cbv zeta. destruct (_ =? _)%Z;
      (repeat (split; [ first [ assumption | exact Hc ] | ]); assumption).
  - exact Hok.
  - unfold setEnvelopeActive. cbv zeta. destruct (_ =? _)%Z.
    + repeat (split; [ assumption | ]). intros H; now contradiction H.
    + exact Hok.
  - unfold setEnvelopeCutoff. cbv zeta. destruct (_ =? _)%Z;
      (repeat (split; [ first [ assumption | exact Hc ] | ]); assumption).
  - repeat (split; [ first [ assumption | exact Hc ] | ]). assumption.
  - repeat (split; [ first [ assumption | exact Hc ] | ]). assumption.
  - destruct Hc as (Ha & Hp & HT).
    repeat (split; [ first [ assumption | exact Hc ] | ]).
    split; [ apply finite_fmul; [ assumption | apply finite_Fin ] | ].
    repeat (split; [ assumption | ]). intros _. exact HT.
  - destruct Hc as (Ha & HT).
    repeat (split; [ assumption | ]). intros H; now contradiction H.
  - now apply env_ok_updateEnvelope.
  - unfold init, setCutoff, setResonance. cbv zeta.
    destruct (_ =? _)%Z;
      (split; [ apply finite_Fin | ];
       repeat (split; [ first [ assumption | apply finite_Fin ] | ]);
       intros H; now contradiction H).
  - destruct (filter_controls s)
      as (_ & _ & _ & _ & _ & _ & E1 & E2 & _ & E3 & E4 & E5 & E6 & E7 & E8
          & E9 & E10).
    unfold env_ok. rewrite E1, E2, E3, E4, E5, E6, E7, E8, E9, E10.
    exact Hok.
Qed.

Lemma env_ok_run_all (cs : list call) (s : State) :
  env_ok s -> Forall timed_call cs -> env_ok (run_all cs s).
Proof.
  intros Hok Hall. revert s Hok.
  induction Hall as [ | c cs Hc _ IH]; intros s Hok.
  - exact Hok.
  - change (run_all (c :: cs) s) with (run_all cs (run c s)).
    apply IH. now apply env_ok_run.
Qed.
(** A zero attack time, at the trigger time: zero over zero. *)
Lemma zero_attack_progress (a p : flt) (t0 : Q) (s : State) :
  currentTime s = Fin t0 ->
  let s1 := setEnvelopeAttack a p (Fin 0) s in
  envelope_progress (set_currentTime (Fin t0) s1) = NaN
  /\ envelopeCutoff (updateEnvelope (Fin t0) s1) = NaN
  /\ targetCutoff (updateEnvelope (Fin t0) s1) = NaN.
Proof.
  intros Hc s1.
  assert (Ep : envelope_progress (set_currentTime (Fin t0) s1) = NaN).
  { unfold envelope_progress, s1.
    cbn [currentTime envelopeStartTime envelopeDuration set_currentTime
         setEnvelopeAttack set_envelopeActive set_envelopePhase
         set_envelopeDuration set_envelopeStartTime
         set_envelopeTargetCutoff set_envelopeStartCutoff].
    rewrite Hc. cbn [fsub fneg fadd fdiv].
    change (0 ?= 0) with Eq. cbv iota.
    assert (E : (t0 + - t0 ?= 0) = Eq) by (apply Qeq_alt; ring).
    now rewrite E. }
  split; [ exact Ep | ].
  rewrite updateEnvelope_running.
  - rewrite Ep.
    destruct (envelope_output_fields NaN (set_currentTime (Fin t0) s1))
      as (E1 & E2 & _).
    cbv zeta in E1, E2. rewrite E2, E1.
    rewrite fmul_nan_r, fadd_nan_r. split; reflexivity.
  - discriminate.
  - now rewrite Ep.
Qed.

(** C10.  Whenever the phase is not Idle, [updateEnvelope] divides the
    elapsed time by [envelopeDuration] without looking at the divisor.  Along
    every run of calls whose arguments are numbers and whose attack, release
    and decay times are strictly positive, starting from a state that is
    [env_ok] (a fresh module is), the state stays [env_ok]: at every
    [updateEnvelope] in a non-Idle phase the divisor is a strictly positive
    number, the progress is a number and so is the envelope cutoff.  With an
    attack time of 0, [updateEnvelope] at the trigger time computes 0 / 0: the
    progress is NaN, and so are the envelope cutoff and the target cutoff. *)
Theorem progress_division_defined :
  (forall (t : flt) (s : State),
      envelopePhase s <> 0%Z ->
      fge (envelope_progress (set_currentTime t s)) (Fin 1.0) = false ->
      envelope_progress (set_currentTime t s)
      = ((t - envelopeStartTime s) / envelopeDuration s)%flt
      /\ envelopeCutoff (updateEnvelope t s)
         = (envelopeStartCutoff s
            + (envelopeTargetCutoff s - envelopeStartCutoff s)
              * ((t - envelopeStartTime s) / envelopeDuration s))%flt)
  /\ env_ok fresh
  /\ (forall (cs : list call) (s : State),
        env_ok s -> Forall timed_call cs -> env_ok (run_all cs s))
  /\ (forall (t : flt) (s : State),
        env_ok s -> finite t -> envelopePhase s <> 0%Z ->
        positive (envelopeDuration s)
        /\ finite (envelope_progress (set_currentTime t s))
        /\ finite (envelopeCutoff (updateEnvelope t s)))
  /\ (forall (a p : flt) (t0 : Q) (s : State),
        currentTime s = Fin t0 ->
        let s1 := setEnvelopeAttack a p (Fin 0) s in
        envelope_progress (set_currentTime (Fin t0) s1) = NaN
        /\ envelopeCutoff (updateEnvelope (Fin t0) s1) = NaN
        /\ targetCutoff (updateEnvelope (Fin t0) s1) = NaN).
Proof.
  split; [ | split; [ | split; [ | split ] ] ].
  - intros t s Hph Hp. split; [ reflexivity | ].
    rewrite updateEnvelope_running by assumption. reflexivity.
  - apply env_ok_fresh.
  - intros cs s. apply env_ok_run_all.
  - intros t s Hok Ht Hph.
    destruct (env_ok_progress Hok Ht Hph) as (Hd & Hp).
    split; [ exact Hd | ]. split; [ exact Hp | ].
    apply (env_ok_updateEnvelope Hok Ht).
  - intros a p t0 s. apply zero_attack_progress.
Qed.

End Division.

(** C10 on a fresh module: an attack of 0.1 s read at 0.05 s, and an attack
    of 0 s read at the trigger time 0. *)
Lemma progress_division_witness :
  (let s := run_all (L := rational_libm)
              [SetEnvelopeAttack (Fin 200) (Fin 2000) (Fin 0.1)] fresh in
   positive (envelopeDuration s)
   /\ finite (envelope_progress (set_currentTime (Fin 0.05) s))
   /\ finite (envelopeCutoff
                (updateEnvelope (L := rational_libm) (Fin 0.05) s)))
  /\ (let s1 := setEnvelopeAttack (Fin 200) (Fin 2000) (Fin 0) fresh in
      envelope_progress (set_currentTime (Fin 0.0) s1) = NaN
      /\ envelopeCutoff
           (updateEnvelope (L := rational_libm) (Fin 0.0) s1) = NaN
      /\ targetCutoff
           (updateEnvelope (L := rational_libm) (Fin 0.0) s1) = NaN).
Proof.
  destruct (progress_division_defined (L := rational_libm))
    as (_ & Hfresh & Hrun & Hdiv & Hzero).
  split.
  - cbv zeta. apply Hdiv.
    + apply Hrun; [ exact Hfresh | ].
      constructor; [ | constructor ].
      split; [ apply finite_Fin | ]. split; [ apply finite_Fin | ].
      exists 0.1. split; reflexivity.
    + apply finite_Fin.
    + discriminate.
  - apply (Hzero (Fin 200) (Fin 2000) 0.0 fresh). reflexivity.
Defined.

(** ** Numbers in, numbers out *)

Section Finiteness.

Context {L : Libm}.

Lemma finite_get (a : list flt) (i : nat) : Forall finite a -> finite a.[i].
Proof.
  intros H. unfold get. revert i.
  induction H as [ | x a Hx _ IH]; intros [ | i]; simpl;
    try apply finite_Fin; auto.
Qed.

Lemma finite_upd (a : list flt) (i : nat) (v : flt) :
  Forall finite a -> finite v -> Forall finite (upd i v a).
Proof.
  intros H Hv. revert i.
  induction H as [ | x a Hx Ha IH]; intros [ | i]; simpl;
    constructor; auto.
Qed.

Lemma enhanced_tanh_finite (x : flt) : finite x -> finite (enhanced_tanh x).
Proof. intros (q & ->). rewrite enhanced_tanh_fin. apply finite_Fin. Qed.

Lemma finite_fmin (x y : flt) : finite x -> finite y -> finite (fmin x y).
Proof.
  intros (a & ->) (b & ->). simpl.
  destruct (Qle_bool a b); apply finite_Fin.
Qed.

Lemma finite_fneg (x : flt) : finite x -> finite (- x)%flt.
Proof. intros (a & ->). apply finite_Fin. Qed.

Lemma finite_exp (x : flt) : finite x -> finite (exp x).
Proof. intros (a & ->). apply finite_Fin. Qed.

Ltac finite_step :=
  first
    [ assumption
    | apply finite_Fin
    | apply finite_upd
    | apply finite_get
    | apply enhanced_tanh_finite
    | apply finite_fadd
    | apply finite_fsub
    | apply finite_fmul
    | apply finite_fneg
    | apply finite_exp
    | apply finite_fmin
    | (apply finite_fdiv; [ | assumption ]) ].

Ltac ladder_stage :=
  intros (Hs & Hc & Hd & Ht & Hr & Hth);
  unfold ladder_finite; cbv zeta;
  cbn [stage stageTanh delay tune resQuad thermal set_stage set_stageTanh
       set_delay];
  repeat split; repeat finite_step.

Lemma finite_first_stage (dc : flt) (s : State) :
  finite dc -> ladder_finite s -> ladder_finite (first_stage dc s).
Proof. intros Hdc. unfold first_stage. ladder_stage. Qed.

Lemma finite_second_stage (s : State) :
  ladder_finite s -> ladder_finite (second_stage s).
Proof. unfold second_stage. ladder_stage. Qed.

Lemma finite_third_stage (s : State) :
  ladder_finite s -> ladder_finite (third_stage s).
Proof. unfold third_stage. ladder_stage. Qed.

Lemma finite_fourth_stage (s : State) :
  ladder_finite s -> ladder_finite (fourth_stage s).
Proof. unfold fourth_stage. ladder_stage. Qed.

Lemma finite_phase_compensation (s : State) :
  ladder_finite s -> ladder_finite (phase_compensation s).
Proof. unfold phase_compensation. ladder_stage. Qed.

Lemma finite_ladder_substep (dc : flt) (s : State) :
  finite dc -> ladder_finite s -> ladder_finite (ladder_substep dc s).
Proof.
  intros Hdc H. unfold ladder_substep.
  apply finite_phase_compensation, finite_fourth_stage, finite_third_stage,
    finite_second_stage, finite_first_stage; assumption.
Qed.

(** The coefficients of a finite live cutoff and resonance. *)
Lemma finite_coefficients (s : State) :
  finite (cutoff s) -> finite (resonance s) -> positive (thermal s) ->
  finite (tune (updateFilterCoefficients s))
  /\ finite (acr (updateFilterCoefficients s))
  /\ finite (resQuad (updateFilterCoefficients s)).
Proof.
  intros Hc Hr Ht.
  assert (Hfc : finite (clamped_fc s)).
  { unfold clamped_fc, SAMPLE_RATE. cbv zeta.
    apply finite_fmin; [ | apply finite_Fin ].
    apply finite_fdiv; [ exact Hc | ]. exists 44100.0. split; reflexivity. }
  rewrite updateFilterCoefficients_writes.
  cbn [tune acr resQuad set_resQuad set_tune set_acr].
  unfold mapper_tune, mapper_acr, mapper_resQuad, mapper_acr, PI. cbv zeta.
  repeat split; repeat finite_step.
Qed.

(** One sample. *)
Lemma finite_filter_sample (s : State) (i : nat) :
  Forall finite (inputBuffer s) ->
  finite (dcBlockInput s) -> finite (dcBlockOutput s) ->
  ladder_finite s ->
  let s' := filter_sample s i in
  Forall finite (inputBuffer s')
  /\ finite (dcBlockInput s') /\ finite (dcBlockOutput s')
  /\ ladder_finite s'
  /\ finite (delay s').[5].
Proof.
  intros Hin Hi Ho Hl s'. subst s'. rewrite filter_sample_unfold. cbv zeta.
  set (input := (inputBuffer s).[i]).
  set (dc := spec_dc input (dcBlockInput s) (dcBlockOutput s)).
  assert (Hinput : finite input) by (apply finite_get; exact Hin).
  assert (Hdc : finite dc) by (unfold dc, spec_dc; repeat finite_step).
  set (s1 := set_dcBlockOutput dc (set_dcBlockInput input s)).
  assert (H1 : ladder_finite s1) by exact Hl.
  pose proof (finite_ladder_substep Hdc (finite_ladder_substep Hdc H1)) as H2.
  assert (Ein : inputBuffer (ladder_substep dc (ladder_substep dc s1))
                = inputBuffer s) by reflexivity.
  assert (Ei : dcBlockInput (ladder_substep dc (ladder_substep dc s1))
               = input) by reflexivity.
  assert (Eo : dcBlockOutput (ladder_substep dc (ladder_substep dc s1))
               = dc) by reflexivity.
  revert H2 Ein Ei Eo.
  generalize (ladder_substep dc (ladder_substep dc s1)).
  intros s2 H2 Ein Ei Eo.
  cbn [inputBuffer dcBlockInput dcBlockOutput delay set_outputBuffer].
  rewrite Ein, Ei, Eo.
  split; [ exact Hin | ]. split; [ exact Hinput | ]. split; [ exact Hdc | ].
  split; [ exact H2 | ].
  apply finite_get. apply H2.
Qed.

Lemma finite_sample_loop (l : list nat) (s : State) :
  Forall finite (inputBuffer s) ->
  finite (dcBlockInput s) -> finite (dcBlockOutput s) ->
  ladder_finite s ->
  let s' := fold_left filter_sample l s in
  Forall finite (inputBuffer s')
  /\ finite (dcBlockInput s') /\ finite (dcBlockOutput s')
  /\ ladder_finite s'.
Proof.
  revert s. induction l as [ | i l IH]; intros s Hin Hi Ho Hl; simpl.
  - repeat split; try assumption; apply Hl.
  - destruct (finite_filter_sample i Hin Hi Ho Hl) as (A & B & C & D & _).
    now apply IH.
Qed.

(** A block: every output sample of [filter] is a number. *)
Lemma finite_filter (s : State) (i : nat) :
  wf s -> finite_state s -> (i < WEBEAUDIO_FRAME_SIZE)%nat ->
  finite (outputBuffer (filter s)).[i].
Proof.
  intros Hwf (Hin & Hs & Hc & Hd & Hdi & Hdo & Hth & Hcu & Hre & Htc & Htr
              & Hcs & Hrs) Hi.
  rewrite filter_output by assumption.
  assert (H0 : ladder_finite (smooth_and_update s)).
  { unfold smooth_and_update. cbv zeta.
    match goal with
    | |- ladder_finite (updateFilterCoefficients ?t) =>
        destruct (@finite_coefficients t) as (F1 & F2 & F3)
    end.
    - cbn [cutoff set_resonance set_cutoff]. unfold smoothParameter.
      repeat finite_step.
    - cbn [resonance set_resonance set_cutoff]. unfold smoothParameter.
      repeat finite_step.
    - exact Hth.
    - unfold ladder_finite. rewrite updateFilterCoefficients_writes in *.
      cbn [stage stageTanh delay tune resQuad thermal set_resQuad set_tune
           set_acr set_resonance set_cutoff] in *.
      repeat (split; [ assumption | ]). now apply positive_finite. }
  rewrite seq_S, fold_left_app. simpl fold_left.
  destruct (@finite_sample_loop (seq 0 i) (smooth_and_update s))
    as (A & B & C & D); try assumption.
  destruct (finite_filter_sample (0 + i) A B C D) as (_ & _ & _ & _ & F).
  exact F.
Qed.

End Finiteness.

(** ** Initialisation *)

Section Initialisation.

Context {L : Libm}.

Ltac sized_lists :=
  repeat match goal with
    | H : length ?l = _ |- _ =>
        is_var l; destruct l; simpl in H; try discriminate H;
        try (injection H as H)
    | H : length [] = _ |- _ => clear H
    | H : O = O |- _ => clear H
    end.

Lemma enhanced_tanh_nan : enhanced_tanh NaN = NaN.
Proof. reflexivity. Qed.

(** A sub-step driven by NaN leaves NaN in [delay[5]]. *)
Lemma ladder_substep_nan (s : State) :
  wf s -> (delay (ladder_substep NaN s)).[5] = NaN.
Proof.
  intros (_ & _ & Hs & Hc & Hd).
  destruct s as [ib ob st c d th tu ac rq cu re tc tr cs rs dbi dbo mc ec ea
                   esc etc est ed edt esl ep ct].
  cbn [stage stageTanh delay tune resQuad thermal] in *.
  sized_lists.
  cbv -[enhanced_tanh fadd fsub fmul fdiv].
  repeat (rewrite ?fsub_nan_l, ?fmul_nan_l, ?fmul_nan_r, ?fadd_nan_l,
           ?fadd_nan_r, ?enhanced_tanh_nan).
  reflexivity.
Qed.

Lemma dc_frame_ladder_substep (dc : flt) (s : State) :
  dcBlockInput (ladder_substep dc s) = dcBlockInput s
  /\ dcBlockOutput (ladder_substep dc s) = dcBlockOutput s.
Proof. split; reflexivity. Qed.

(** Once the DC blocker's output is NaN it stays NaN, and so is every
    output sample. *)
Lemma filter_sample_nan (s : State) (i : nat) :
  wf s -> dcBlockOutput s = NaN ->
  dcBlockOutput (filter_sample s i) = NaN
  /\ (delay (filter_sample s i)).[5] = NaN.
Proof.
  intros H Ho. rewrite filter_sample_unfold. cbv zeta.
  assert (E : spec_dc (inputBuffer s).[i] (dcBlockInput s) (dcBlockOutput s)
              = NaN).
  { unfold spec_dc. rewrite Ho. now rewrite fmul_nan_r, fadd_nan_r. }
  rewrite E.
  set (s1 := set_dcBlockOutput NaN (set_dcBlockInput (inputBuffer s).[i] s)).
  assert (H1 : wf (ladder_substep NaN s1))
    by (apply wf_ladder_substep; exact H).
  assert (Eo : dcBlockOutput (ladder_substep NaN (ladder_substep NaN s1))
               = NaN).
  { destruct (dc_frame_ladder_substep NaN (ladder_substep NaN s1)) as (_ & ->).
    destruct (dc_frame_ladder_substep NaN s1) as (_ & ->). reflexivity. }
  pose proof (ladder_substep_nan H1) as E5.
  revert Eo E5. generalize (ladder_substep NaN (ladder_substep NaN s1)).
  intros s2 Eo E5.
  cbn [dcBlockOutput delay set_outputBuffer]. split; assumption.
Qed.

Lemma sample_loop_nan (l : list nat) (s : State) :
  wf s -> dcBlockOutput s = NaN ->
  dcBlockOutput (fold_left filter_sample l s) = NaN.
Proof.
  revert s. induction l as [ | i l IH]; intros s H Ho; simpl.
  - exact Ho.
  - apply IH; [ apply wf_filter_sample; exact H | ].
    apply filter_sample_nan; assumption.
Qed.

Lemma filter_nan (s : State) (i : nat) :
  wf s -> dcBlockOutput s = NaN -> (i < WEBEAUDIO_FRAME_SIZE)%nat ->
  (outputBuffer (filter s)).[i] = NaN.
Proof.
  intros H Ho Hi. rewrite filter_output by assumption.
  rewrite seq_S, fold_left_app. simpl fold_left.
  apply filter_sample_nan.
  - apply wf_sample_loop. exact H.
  - apply sample_loop_nan; [ exact H | exact Ho ].
Qed.

(** What [init] leaves as it finds it. *)
Lemma init_keeps (s : State) :
  dcBlockInput (init s) = dcBlockInput s
  /\ dcBlockOutput (init s) = dcBlockOutput s
  /\ cutoff (init s) = cutoff s
  /\ resonance (init s) = resonance s
  /\ envelopeDecayTime (init s) = envelopeDecayTime s
  /\ inputBuffer (init s) = inputBuffer s
  /\ (envelopeActive s <> 0%Z -> targetCutoff (init s) = targetCutoff s).
Proof.
  unfold init, setCutoff, setResonance. cbv zeta.
  cbn [envelopeActive set_manualCutoff set_stageTanh set_delay set_stage].
  destruct (envelopeActive s =? 0)%Z eqn:E.
  - repeat (split; [ reflexivity | ]). apply Z.eqb_eq in E.
    intros H. contradiction.
  - repeat (split; [ reflexivity | ]). intros _. reflexivity.
Qed.


Lemma finite_repeat_zero (n : nat) : Forall finite (repeat (Fin 0) n).
Proof. induction n; simpl; constructor; auto. apply finite_Fin. Qed.

Lemma finite_state_fresh_silence :
  finite_state (run (WriteInput silence) fresh).
Proof.
  change (run (WriteInput silence) fresh)
    with (set_inputBuffer silence fresh).
  unfold finite_state, silence.
  cbn [inputBuffer stage stageTanh delay dcBlockInput dcBlockOutput thermal
       cutoff resonance targetCutoff targetResonance cutoffSmoothing
       resonanceSmoothing set_inputBuffer fresh].
  do 4 (split; [ apply finite_repeat_zero | ]).
  do 2 (split; [ apply finite_Fin | ]).
  split; [ exists 0.000025; split; reflexivity | ].
  repeat (split; [ apply finite_Fin | ]). apply finite_Fin.
Qed.

Lemma reachable_run_all (cs : list call) (s : State) :
  reachable s -> reachable (run_all cs s).
Proof.
  revert s. induction cs as [ | c cs IH]; intros s H.
  - exact H.
  - change (run_all (c :: cs) s) with (run_all cs (run c s)).
    apply IH. now apply reachable_run.
Qed.

Lemma wf_processBlock_input (block : list flt) (s : State) :
  wf s -> wf (run (WriteInput block) s).
Proof. apply wf_run. Qed.

Lemma dc_frame_write (block : list flt) (s : State) :
  dcBlockInput (run (WriteInput block) s) = dcBlockInput s
  /\ dcBlockOutput (run (WriteInput block) s) = dcBlockOutput s.
Proof.
  simpl run. destruct (length block =? WEBEAUDIO_FRAME_SIZE)%nat;
    split; reflexivity.
Qed.

(** C2 (code defect).  [init] does not write the DC blocker's two variables,
    the live cutoff and resonance or the decay time, and it writes the
    target cutoff only when the envelope is inactive at the call (it calls
    [setCutoff] before it clears [envelopeActive]).  Three reachable prior
    states show the difference to a fresh module: after a block that ends
    with a sample of 1, [init] leaves the DC blocker at (1, 1), so the first
    sample of a silent block enters the ladder as -0.005 instead of 0; after
    a cutoff request of 5000 Hz and one block, [init] leaves the live cutoff
    at 1400 Hz, and the next block runs at 1360 Hz instead of 1000 Hz; after a
    block that ends with a NaN sample, every output sample of the silent
    block after [init] is NaN, where every output sample of a fresh module is
    a number. *)
Theorem init_does_not_restore_fresh_state :
  (forall s : State,
      dcBlockInput (init s) = dcBlockInput s
      /\ dcBlockOutput (init s) = dcBlockOutput s
      /\ cutoff (init s) = cutoff s
      /\ resonance (init s) = resonance s
      /\ envelopeDecayTime (init s) = envelopeDecayTime s
      /\ inputBuffer (init s) = inputBuffer s
      /\ (envelopeActive s <> 0%Z -> targetCutoff (init s) = targetCutoff s))
  /\ (let prior := run_all [WriteInput click; Filter] fresh in
      reachable prior
      /\ dcBlockInput (init prior) = Fin 1
      /\ dcBlockOutput (init prior) =~ Fin 1
      /\ dcBlockInput fresh = Fin 0.0
      /\ dcBlockOutput fresh = Fin 0.0
      /\ fst (dc_block 0 (run (WriteInput silence) (init prior)))
         =~ Fin (-0.005)
      /\ fst (dc_block 0 (run (WriteInput silence) fresh)) =~ Fin 0)
  /\ (let prior := run_all [SetCutoff (Fin 5000); Filter] fresh in
      reachable prior
      /\ cutoff (init prior) =~ Fin 1400
      /\ cutoff fresh = Fin 1000.0
      /\ cutoff (processBlock silence (init prior)) =~ Fin 1360
      /\ cutoff (processBlock silence fresh) =~ Fin 1000)
  /\ (let prior := run_all [WriteInput nan_block; Filter] fresh in
      reachable prior
      /\ forall i : nat,
          (i < WEBEAUDIO_FRAME_SIZE)%nat ->
          (outputBuffer (processBlock silence (init prior))).[i] = NaN
          /\ finite (outputBuffer (processBlock silence fresh)).[i]).
Proof.
  split; [ apply init_keeps | ].
  split; [ | split ].
  - cbv zeta.
    split; [ apply reachable_run_all, reachable_fresh | ].
    split; [ reflexivity | ].
    split; [ lazy; reflexivity | ].
    split; [ reflexivity | ]. split; [ reflexivity | ].
    split; lazy; reflexivity.
  - cbv zeta.
    split; [ apply reachable_run_all, reachable_fresh | ].
    split; [ lazy; reflexivity | ].
    split; [ reflexivity | ].
    split; lazy; reflexivity.
  - cbv zeta.
    split; [ apply reachable_run_all, reachable_fresh | ].
    intros i Hi. split.
    + unfold processBlock. apply filter_nan; [ | | exact Hi ].
      * apply wf_run.
        assert (Hr : reachable
                       (run Init (run_all [WriteInput nan_block; Filter]
                                    fresh)))
          by apply reachable_run, reachable_run_all, reachable_fresh.
        exact (proj1 (reachable_invariants Hr)).
      * destruct (dc_frame_write silence
                    (init (run_all [WriteInput nan_block; Filter] fresh)))
          as (_ & ->).
        destruct (init_keeps (run_all [WriteInput nan_block; Filter] fresh))
          as (_ & -> & _).
        reflexivity.
    + unfold processBlock. apply finite_filter; [ | | exact Hi ].
      * apply wf_run, wf_fresh.
      * apply finite_state_fresh_silence.
Qed.

End Initialisation.

(** * Further properties of the kernel *)

(** ** States the host can reach *)

Section Reachable.

Context {L : Libm}.

(** X1.  In every state the host can reach, the five arrays have their
    declared sizes, the thermal constant is 0.000025 and both smoothing
    coefficients are 0.1, the envelope phase is one of 0, 1, 2, 3, and a
    phase other than 0 occurs only while the envelope is active. *)
Theorem reachable_state_invariants (s : State) :
  reachable s ->
  (length (inputBuffer s) = WEBEAUDIO_FRAME_SIZE
   /\ length (outputBuffer s) = WEBEAUDIO_FRAME_SIZE
   /\ length (stage s) = 4%nat
   /\ length (stageTanh s) = 3%nat
   /\ length (delay s) = 6%nat)
  /\ (thermal s = Fin 0.000025
      /\ cutoffSmoothing s = Fin 0.1
      /\ resonanceSmoothing s = Fin 0.1)
  /\ ((envelopeActive s = 0%Z -> envelopePhase s = 0%Z)
      /\ (0 <= envelopePhase s <= 3)%Z).
Proof. apply reachable_invariants. Qed.

End Reachable.

Lemma reachable_state_witness :
  let s :=
    run_all (L := rational_libm)
      [Init; SetEnvelopeAttack (Fin 200) (Fin 2000) (Fin 0.1);
       UpdateEnvelope (Fin 0.2); Filter] fresh in
  length (outputBuffer s) = WEBEAUDIO_FRAME_SIZE
  /\ thermal s = Fin 0.000025
  /\ (0 <= envelopePhase s <= 3)%Z.
Proof.
  cbv zeta.
  destruct (@reachable_state_invariants rational_libm
              (run_all (L := rational_libm)
                 [Init; SetEnvelopeAttack (Fin 200) (Fin 2000) (Fin 0.1);
                  UpdateEnvelope (Fin 0.2); Filter] fresh))
    as ((_ & H1 & _) & (H2 & _) & (_ & H3)).
  - apply reachable_run_all, reachable_fresh.
  - split; [ exact H1 | ]. split; [ exact H2 | exact H3 ].
Defined.

(** ** Numbers and NaN through [filter] *)

Section Propagation.

Context {L : Libm}.

Ltac branches :=
  cbv zeta;
  repeat match goal with
    | |- context [if ?b then _ else _] => destruct b
    end.

Lemma finite_state_filter (s : State) :
  finite_state s -> finite_state (filter s).
Proof.
  intros (Hin & Hs & Hc & Hd & Hdi & Hdo & Hth & Hcu & Hre & Htc & Htr
          & Hcs & Hrs).
  destruct (filter_controls s)
    as (E1 & E2 & E3 & E4 & E5 & E6 & _).
  destruct (filter_live s) as (F1 & F2 & _).
  assert (H0 : ladder_finite (smooth_and_update s)).
  { unfold smooth_and_update. cbv zeta.
    match goal with
    | |- ladder_finite (updateFilterCoefficients ?t) =>
        destruct (@finite_coefficients _ t) as (G1 & G2 & G3)
    end.
    - cbn [cutoff set_resonance set_cutoff]. unfold smoothParameter.
      apply finite_fadd; [ assumption | ].
      apply finite_fmul; [ now apply finite_fsub | assumption ].
    - cbn [resonance set_resonance set_cutoff]. unfold smoothParameter.
      apply finite_fadd; [ assumption | ].
      apply finite_fmul; [ now apply finite_fsub | assumption ].
    - exact Hth.
    - unfold ladder_finite. rewrite updateFilterCoefficients_writes in *.
      cbn [stage stageTanh delay tune resQuad thermal set_resQuad set_tune
           set_acr set_resonance set_cutoff] in *.
      repeat (split; [ assumption | ]). now apply positive_finite. }
  destruct (@finite_sample_loop _ (seq 0 WEBEAUDIO_FRAME_SIZE)
              (smooth_and_update s))
    as (A & B & C & (D1 & D2 & D3 & _)); try assumption.
  assert (Ef : fold_left filter_sample (seq 0 WEBEAUDIO_FRAME_SIZE)
                 (smooth_and_update s) = filter s) by reflexivity.
  rewrite Ef in A, B, C, D1, D2, D3. clear Ef.
  unfold finite_state. rewrite E2, E3, E4, E5, E6, F1, F2.
  repeat (split; [ assumption | ]).
  split.
  { unfold smoothParameter. apply finite_fadd; [ assumption | ].
    apply finite_fmul; [ now apply finite_fsub | assumption ]. }
  split.
  { unfold smoothParameter. apply finite_fadd; [ assumption | ].
    apply finite_fmul; [ now apply finite_fsub | assumption ]. }
  repeat (split; [ assumption | ]). assumption.
Qed.


(** *** NaN *)

Lemma filter_sample_dc (s : State) (i : nat) :
  dcBlockInput (filter_sample s i) = (inputBuffer s).[i]
  /\ dcBlockOutput (filter_sample s i)
     = spec_dc (inputBuffer s).[i] (dcBlockInput s) (dcBlockOutput s)
  /\ inputBuffer (filter_sample s i) = inputBuffer s.
Proof.
  rewrite filter_sample_unfold. cbv zeta.
  match goal with
  | |- context [ladder_substep ?dc (ladder_substep ?dc ?s1)] =>
      destruct (dc_frame_ladder_substep dc (ladder_substep dc s1))
        as (A1 & A2);
      destruct (dc_frame_ladder_substep dc s1) as (B1 & B2);
      assert (C1 : inputBuffer (ladder_substep dc (ladder_substep dc s1))
                   = inputBuffer s) by reflexivity;
      revert A1 A2 C1;
      generalize (ladder_substep dc (ladder_substep dc s1));
      rewrite B1, B2
  end.
  intros s2 A1 A2 C1.
  cbn [dcBlockInput dcBlockOutput inputBuffer set_outputBuffer].
  rewrite A1, A2, C1. repeat split.
Qed.

Lemma inputBuffer_sample_loop (l : list nat) (s : State) :
  inputBuffer (fold_left filter_sample l s) = inputBuffer s.
Proof.
  revert s. induction l as [ | i l IH]; intros s; simpl.
  - reflexivity.
  - rewrite IH. apply filter_sample_dc.
Qed.

(** A NaN sample anywhere in the block leaves NaN in the DC blocker. *)
Lemma filter_nan_input (s : State) (k : nat) :
  wf s -> (k < WEBEAUDIO_FRAME_SIZE)%nat -> (inputBuffer s).[k] = NaN ->
  dcBlockOutput (filter s) = NaN.
Proof.
  intros Hwf Hk Hnan. unfold filter. cbv zeta.
  replace WEBEAUDIO_FRAME_SIZE
    with (S k + (WEBEAUDIO_FRAME_SIZE - S k))%nat by lia.
  rewrite seq_app, fold_left_app.
  apply sample_loop_nan.
  - apply wf_sample_loop. exact Hwf.
  - rewrite seq_S, fold_left_app. cbn [fold_left].
    change (0 + k)%nat with k.
    destruct (filter_sample_dc
                (fold_left filter_sample (seq 0 k) (smooth_and_update s))
                k) as (_ & -> & _).
    rewrite inputBuffer_sample_loop.
    change (inputBuffer (smooth_and_update s)) with (inputBuffer s).
    rewrite Hnan. unfold spec_dc.
    rewrite fsub_nan_l, fadd_nan_l. reflexivity.
Qed.

(** No call takes NaN out of the DC blocker. *)
Lemma nan_sticky_run (c : call) (s : State) :
  wf s -> dcBlockOutput s = NaN -> dcBlockOutput (run c s) = NaN.
Proof.
  intros Hwf Ho. destruct c; simpl run.
  - destruct (length block =? WEBEAUDIO_FRAME_SIZE)%nat; exact Ho.
  - unfold setCutoff. branches; exact Ho.
  - exact Ho.
  - unfold setEnvelopeActive. branches; exact Ho.
  - unfold setEnvelopeCutoff. branches; exact Ho.
  - exact Ho.
  - exact Ho.
  - exact Ho.
  - exact Ho.
  - unfold updateEnvelope. branches; exact Ho.
  - destruct (init_keeps s) as (_ & -> & _). exact Ho.
  - unfold filter. cbv zeta. apply sample_loop_nan; [ exact Hwf | exact Ho ].
Qed.

Lemma nan_sticky_run_all (cs : list call) (s : State) :
  wf s -> dcBlockOutput s = NaN ->
  wf (run_all cs s) /\ dcBlockOutput (run_all cs s) = NaN.
Proof.
  revert s. induction cs as [ | c cs IH]; intros s Hwf Ho.
  - split; assumption.
  - change (run_all (c :: cs) s) with (run_all cs (run c s)).
    apply IH; [ now apply wf_run | now apply nan_sticky_run ].
Qed.

(** X3.  NaN sticks.  If one sample of an input block is NaN, [filter]
    leaves NaN in [dcBlockOutput]; and once [dcBlockOutput] is NaN, no
    sequence of calls of the exported functions ([init] included) and of
    input blocks removes it: after any such sequence [dcBlockOutput] is still
    NaN and every sample of every output block is NaN. *)
Theorem nan_input_poisons_filter (s : State) :
  wf s ->
  (forall k : nat,
      (k < WEBEAUDIO_FRAME_SIZE)%nat -> (inputBuffer s).[k] = NaN ->
      dcBlockOutput (filter s) = NaN)
  /\ (dcBlockOutput s = NaN ->
      forall (cs : list call) (i : nat),
        (i < WEBEAUDIO_FRAME_SIZE)%nat ->
        dcBlockOutput (run_all cs s) = NaN
        /\ (outputBuffer (filter (run_all cs s))).[i] = NaN).
Proof.
  intros Hwf. split.
  - intros k Hk Hnan. exact (filter_nan_input Hwf Hk Hnan).
  - intros Ho cs i Hi.
    destruct (nan_sticky_run_all cs Hwf Ho) as (Hwf' & Ho').
    split; [ exact Ho' | ]. now apply filter_nan.
Qed.

End Propagation.


(** X3 on a fresh module: a block with a NaN sample, then [init] and a
    silent block. *)
Lemma nan_input_poisons_witness :
  dcBlockOutput
    (filter (L := rational_libm) (set_inputBuffer nan_block fresh)) = NaN
  /\ (outputBuffer
        (filter (L := rational_libm)
           (run_all (L := rational_libm) [Init; WriteInput silence]
              (filter (L := rational_libm)
                 (set_inputBuffer nan_block fresh))))).[0] = NaN.
Proof.
  assert (Hwf : wf (set_inputBuffer nan_block fresh)) by (repeat split).
  assert (H1 : dcBlockOutput
                 (filter (L := rational_libm)
                    (set_inputBuffer nan_block fresh)) = NaN).
  { apply (proj1 (@nan_input_poisons_filter rational_libm
                    (set_inputBuffer nan_block fresh) Hwf) 127%nat).
    - unfold WEBEAUDIO_FRAME_SIZE. lia.
    - reflexivity. }
  split; [ exact H1 | ].
  apply (proj2 (@nan_input_poisons_filter rational_libm
                  (filter (L := rational_libm)
                     (set_inputBuffer nan_block fresh))
                  (wf_filter Hwf)) H1 [Init; WriteInput silence] 0%nat).
  unfold WEBEAUDIO_FRAME_SIZE. lia.
Defined.

(** ** The DC blocker *)

Section DCBlocker.

Context {L : Libm}.

Lemma Qpower_succ_nat (q : Q) (n : nat) :
  ~ q == 0 -> q ^ Z.of_nat (S n) == q * q ^ Z.of_nat n.
Proof.
  intros Hq. rewrite Nat2Z.inj_succ. unfold Z.succ.
  rewrite Qpower_plus by exact Hq. simpl (q ^ 1). ring.
Qed.

(** The blocker on a run of samples equal to the previous input: its output
    is multiplied by 0.995 per sample. *)
Lemma dc_constant_loop (c : Q) (l : list nat) :
  forall (s : State) (y : Q),
    (forall i, In i l -> (inputBuffer s).[i] = Fin c) ->
    dcBlockInput s = Fin c ->
    dcBlockOutput s = Fin y ->
    exists y' : Q,
      dcBlockOutput (fold_left filter_sample l s) = Fin y'
      /\ y' == 0.995 ^ Z.of_nat (length l) * y
      /\ dcBlockInput (fold_left filter_sample l s) = Fin c.
Proof.
  induction l as [ | i l IH]; intros s y Hin Hi Ho.
  - exists y. split; [ exact Ho | ]. split; [ | exact Hi ].
    simpl. ring.
  - destruct (filter_sample_dc s i) as (E1 & E2 & E3).
    rewrite (Hin i (or_introl eq_refl)) in E1, E2.
    rewrite Hi, Ho in E2. unfold spec_dc in E2.
    cbn [fsub fneg fadd fmul] in E2.
    destruct (IH (filter_sample s i) (c + - c + 0.995 * y))
      as (y' & F1 & F2 & F3).
    + intros j Hj. rewrite E3. apply Hin. now right.
    + exact E1.
    + exact E2.
    + exists y'. simpl fold_left. split; [ exact F1 | ].
      split; [ | exact F3 ].
      change (length (i :: l)) with (S (length l)).
      rewrite Qpower_succ_nat by discriminate. rewrite F2. ring.
Qed.

Lemma filter_first_sample (s : State) :
  filter s
  = fold_left filter_sample (seq 1 127)
      (filter_sample (smooth_and_update s) 0).
Proof.
  unfold filter. cbv zeta.
  replace WEBEAUDIO_FRAME_SIZE with (1 + 127)%nat by reflexivity.
  rewrite seq_app, fold_left_app. reflexivity.
Qed.

Lemma dc_first_sample (c x0 y : Q) (s : State) :
  (inputBuffer s).[0] = Fin c ->
  dcBlockInput s = Fin x0 ->
  dcBlockOutput s = Fin y ->
  dcBlockInput (filter_sample (smooth_and_update s) 0) = Fin c
  /\ dcBlockOutput (filter_sample (smooth_and_update s) 0)
     = Fin (c + - x0 + 0.995 * y)
  /\ inputBuffer (filter_sample (smooth_and_update s) 0) = inputBuffer s.
Proof.
  intros Hin Hi Ho.
  destruct (filter_sample_dc (smooth_and_update s) 0) as (E1 & E2 & E3).
  rewrite E1, E2, E3.
  change (inputBuffer (smooth_and_update s)) with (inputBuffer s).
  change (dcBlockInput (smooth_and_update s)) with (dcBlockInput s).
  change (dcBlockOutput (smooth_and_update s)) with (dcBlockOutput s).
  rewrite Hin, Hi, Ho. repeat split.
Qed.

(** X4.  The DC blocker rejects a constant.  Let the input block hold the
    same number [c] in all 128 samples, and let the blocker's previous input
    and output be the numbers [x0] and [y].  After [filter] the blocker's
    previous input is [c] and its output is
    0.995^128 * y + 0.995^127 * (c - x0): the step [c - x0] and the old
    output both fade by the factor 0.995 per sample, so a block that
    continues the previous input level ([x0 = c]) only multiplies the output
    by 0.995^128, whatever the ladder does. *)
Theorem dc_blocker_rejects_constant (c x0 y : Q) (s : State) :
  (forall i : nat,
      (i < WEBEAUDIO_FRAME_SIZE)%nat -> (inputBuffer s).[i] = Fin c) ->
  dcBlockInput s = Fin x0 ->
  dcBlockOutput s = Fin y ->
  exists y' : Q,
    dcBlockOutput (filter s) = Fin y'
    /\ y' == 0.995 ^ Z.of_nat 128 * y + 0.995 ^ 127 * (c - x0)
    /\ dcBlockInput (filter s) = Fin c.
Proof.
  intros Hin Hi Ho.
  assert (H0 : (inputBuffer s).[0] = Fin c)
    by (apply Hin; unfold WEBEAUDIO_FRAME_SIZE; lia).
  destruct (dc_first_sample s H0 Hi Ho) as (E1 & E2 & E3).
  rewrite filter_first_sample.
  revert E1 E2 E3. generalize (filter_sample (smooth_and_update s) 0).
  intros s1 E1 E2 E3.
  destruct (@dc_constant_loop c (seq 1 127) s1 (c + - x0 + 0.995 * y))
    as (y' & F1 & F2 & F3).
  - intros j Hj. rewrite E3. apply Hin. apply in_seq in Hj.
    unfold WEBEAUDIO_FRAME_SIZE. lia.
  - exact E1.
  - exact E2.
  - exists y'. split; [ exact F1 | ]. split; [ | exact F3 ].
    rewrite F2. rewrite length_seq.
    change (Z.of_nat 127) with 127%Z.
    rewrite (Qpower_succ_nat 127 (q := 0.995)) by discriminate.
    change (Z.of_nat 127) with 127%Z.
    generalize (0.995 ^ 127). intros p. ring.
Qed.

End DCBlocker.

(** X4 on a fresh module fed a constant block of 1/2. *)
Lemma dc_blocker_witness :
  exists y' : Q,
    dcBlockOutput
      (filter (L := rational_libm)
         (set_inputBuffer (repeat (Fin 0.5) WEBEAUDIO_FRAME_SIZE) fresh))
    = Fin y'
    /\ y' == 0.995 ^ Z.of_nat 128 * 0.0 + 0.995 ^ 127 * (0.5 - 0.0).
Proof.
  destruct (@dc_blocker_rejects_constant rational_libm 0.5 0.0 0.0
              (set_inputBuffer (repeat (Fin 0.5) WEBEAUDIO_FRAME_SIZE) fresh))
    as (y' & E1 & E2 & _).
  - intros i Hi.
    cbn [inputBuffer set_inputBuffer]. unfold get.
    apply nth_repeat_lt. exact Hi.
  - reflexivity.
  - reflexivity.
  - exists y'. split; assumption.
Defined.

(** ** Silence *)

Section Silence.

Context {L : Libm}.

Hypothesis tanh_zero : tanhQ 0 == 0.
Hypothesis tanh_proper : forall x y : Q, x == y -> tanhQ x == tanhQ y.

Lemma zero_Fin (q : Q) : q == 0 -> zero (Fin q).
Proof. intros H. exact H. Qed.

Lemma zero_inv (x : flt) : zero x -> exists q, x = Fin q /\ q == 0.
Proof.
  destruct x as [q | | |]; simpl; intros H; try contradiction.
  exists q. split; [ reflexivity | exact H ].
Qed.

Lemma zero_feq (x : flt) : zero x -> x =~ Fin 0.
Proof. intros H. exact H. Qed.

Lemma zero_finite (x : flt) : zero x -> finite x.
Proof. intros H. destruct (zero_inv _ H) as (q & -> & _). apply finite_Fin. Qed.

Lemma zero_fadd (x y : flt) : zero x -> zero y -> zero (x + y)%flt.
Proof.
  intros Hx Hy. destruct (zero_inv _ Hx) as (a & -> & Ha).
  destruct (zero_inv _ Hy) as (b & -> & Hb).
  apply zero_Fin. rewrite Ha, Hb. reflexivity.
Qed.

Lemma zero_fsub (x y : flt) : zero x -> zero y -> zero (x - y)%flt.
Proof.
  intros Hx Hy. destruct (zero_inv _ Hx) as (a & -> & Ha).
  destruct (zero_inv _ Hy) as (b & -> & Hb).
  apply zero_Fin. rewrite Ha, Hb. reflexivity.
Qed.

Lemma zero_fmul_r (x y : flt) : finite x -> zero y -> zero (x * y)%flt.
Proof.
  intros (a & ->) Hy. destruct (zero_inv _ Hy) as (b & -> & Hb).
  apply zero_Fin. rewrite Hb. ring.
Qed.

Lemma zero_fmul_l (x y : flt) : zero x -> finite y -> zero (x * y)%flt.
Proof.
  intros Hx (b & ->). destruct (zero_inv _ Hx) as (a & -> & Ha).
  apply zero_Fin. rewrite Ha. ring.
Qed.

Lemma enhanced_tanhQ_zero (q : Q) : q == 0 -> enhanced_tanhQ q == 0.
Proof.
  intros Hq. unfold enhanced_tanhQ. cbv zeta.
  pose proof (@tanh_proper q 0 Hq) as Ht. rewrite tanh_zero in Ht.
  pose proof (Qabs_nonneg q) as HA.
  pose proof (input_scale_bounds q) as (HI0 & HI1).
  assert (Hx : forall u : Q, q * u == 0) by (intros u; rewrite Hq; ring).
  set (I := Qabs q / (1.0 + Qabs q)) in *.
  set (F := 1.0 / (1.0 + 2.0 * I)).
  set (a := if negb (Qle_bool q 0) then 1.0 else 0.98).
  assert (E1 : 0.008 * q * I * F / (1.0 + Qabs q)
               == 0.008 * (q * (I * F * (1 / (1.0 + Qabs q))))).
  { field. lra. }
  assert (E2 : 0.006 * q * I * I * F == 0.006 * (q * (I * I * F))) by ring.
  assert (E3 : 0.004 * q * I * F == 0.004 * (q * (I * F))) by ring.
  rewrite E1, E2, E3, !Hx, Ht. ring.
Qed.

Lemma enhanced_tanh_zero (x : flt) : zero x -> zero (enhanced_tanh x).
Proof.
  intros Hx. destruct (zero_inv _ Hx) as (q & -> & Hq).
  rewrite enhanced_tanh_fin. apply zero_Fin. now apply enhanced_tanhQ_zero.
Qed.

Lemma zero_get (a : list flt) (i : nat) : Forall zero a -> zero a.[i].
Proof.
  intros H. unfold get. revert i.
  induction H as [ | x a Hx _ IH]; intros [ | i]; simpl;
    try (apply zero_Fin; reflexivity); auto.
Qed.

Lemma zero_upd (a : list flt) (i : nat) (v : flt) :
  Forall zero a -> zero v -> Forall zero (upd i v a).
Proof.
  intros H Hv. revert i.
  induction H as [ | x a Hx Ha IH]; intros [ | i]; simpl;
    constructor; auto.
Qed.

Ltac zero_step :=
  first
    [ assumption
    | apply zero_upd
    | apply zero_get
    | apply enhanced_tanh_zero
    | apply zero_fsub
    | apply zero_fadd
    | (apply zero_fmul_r; [ assumption | ])
    | (apply zero_fmul_l; [ | first [ assumption | apply finite_Fin ] ]) ].

Ltac zero_stage :=
  intros (Hs & Hc & Hd & Ht & Hr & Hth);
  unfold ladder_zero; cbv zeta;
  cbn [stage stageTanh delay tune resQuad thermal set_stage set_stageTanh
       set_delay];
  repeat (split; [ repeat zero_step | ]); try assumption.

Lemma zero_first_stage (dc : flt) (s : State) :
  zero dc -> ladder_zero s -> ladder_zero (first_stage dc s).
Proof. intros Hdc. unfold first_stage. zero_stage. Qed.

Lemma zero_second_stage (s : State) :
  ladder_zero s -> ladder_zero (second_stage s).
Proof. unfold second_stage. zero_stage. Qed.

Lemma zero_third_stage (s : State) :
  ladder_zero s -> ladder_zero (third_stage s).
Proof. unfold third_stage. zero_stage. Qed.

Lemma zero_fourth_stage (s : State) :
  ladder_zero s -> ladder_zero (fourth_stage s).
Proof. unfold fourth_stage. zero_stage. Qed.

Lemma zero_phase_compensation (s : State) :
  ladder_zero s -> ladder_zero (phase_compensation s).
Proof. unfold phase_compensation. zero_stage. Qed.

Lemma zero_ladder_substep (dc : flt) (s : State) :
  zero dc -> ladder_zero s -> ladder_zero (ladder_substep dc s).
Proof.
  intros Hdc H. unfold ladder_substep.
  apply zero_phase_compensation, zero_fourth_stage, zero_third_stage,
    zero_second_stage, zero_first_stage; assumption.
Qed.

Lemma zero_filter_sample (s : State) (i : nat) :
  Forall zero (inputBuffer s) ->
  zero (dcBlockInput s) -> zero (dcBlockOutput s) ->
  ladder_zero s ->
  Forall zero (inputBuffer (filter_sample s i))
  /\ zero (dcBlockInput (filter_sample s i))
  /\ zero (dcBlockOutput (filter_sample s i))
  /\ ladder_zero (filter_sample s i)
  /\ zero (delay (filter_sample s i)).[5].
Proof.
  intros Hin Hi Ho Hl.
  destruct (filter_sample_dc s i) as (E1 & E2 & E3).
  rewrite E1, E2, E3.
  assert (Hinput : zero (inputBuffer s).[i]) by (apply zero_get; exact Hin).
  assert (Hdc : zero (spec_dc (inputBuffer s).[i] (dcBlockInput s)
                        (dcBlockOutput s))).
  { unfold spec_dc. apply zero_fadd; [ now apply zero_fsub | ].
    apply zero_fmul_r; [ apply finite_Fin | exact Ho ]. }
  split; [ exact Hin | ]. split; [ exact Hinput | ]. split; [ exact Hdc | ].
  rewrite filter_sample_unfold. cbv zeta.
  set (dc := spec_dc (inputBuffer s).[i] (dcBlockInput s) (dcBlockOutput s))
    in *.
  set (s1 := set_dcBlockOutput dc (set_dcBlockInput (inputBuffer s).[i] s)).
  assert (H1 : ladder_zero s1) by exact Hl.
  pose proof (@zero_ladder_substep _ _ Hdc (@zero_ladder_substep _ _ Hdc H1)) as H2.
  revert H2. generalize (ladder_substep dc (ladder_substep dc s1)).
  intros s2 H2. split; [ exact H2 | ].
  cbn [delay set_outputBuffer]. apply zero_get. apply H2.
Qed.

Lemma zero_sample_loop (l : list nat) (s : State) :
  Forall zero (inputBuffer s) ->
  zero (dcBlockInput s) -> zero (dcBlockOutput s) ->
  ladder_zero s ->
  Forall zero (inputBuffer (fold_left filter_sample l s))
  /\ zero (dcBlockInput (fold_left filter_sample l s))
  /\ zero (dcBlockOutput (fold_left filter_sample l s))
  /\ ladder_zero (fold_left filter_sample l s).
Proof.
  revert s. induction l as [ | i l IH]; intros s Hin Hi Ho Hl; simpl.
  - repeat split; try assumption; apply Hl.
  - destruct (@zero_filter_sample s i Hin Hi Ho Hl) as (A & B & C & D & _).
    now apply IH.
Qed.

Lemma quiet_finite_state (s : State) : quiet s -> finite_state s.
Proof.
  intros (Hin & Hs & Hc & Hd & Hdi & Hdo & Hrest).
  unfold finite_state.
  repeat (split;
          [ first [ now apply zero_finite
                  | (eapply Forall_impl; [ | eassumption ];
                     intros x; apply zero_finite) ] | ]).
  exact Hrest.
Qed.

Lemma quiet_ladder (s : State) :
  quiet s -> ladder_zero (smooth_and_update s).
Proof.
  intros Hq. pose proof (@quiet_finite_state _ Hq) as Hf.
  destruct Hq as (Hin & Hs & Hc & Hd & Hdi & Hdo & Hth & Hcu & Hre & Htc
                  & Htr & Hcs & Hrs).
  unfold smooth_and_update. cbv zeta.
  match goal with
  | |- ladder_zero (updateFilterCoefficients ?t) =>
      destruct (@finite_coefficients _ t) as (G1 & G2 & G3)
  end.
  - cbn [cutoff set_resonance set_cutoff]. unfold smoothParameter.
    apply finite_fadd; [ assumption | ].
    apply finite_fmul; [ now apply finite_fsub | assumption ].
  - cbn [resonance set_resonance set_cutoff]. unfold smoothParameter.
    apply finite_fadd; [ assumption | ].
    apply finite_fmul; [ now apply finite_fsub | assumption ].
  - exact Hth.
  - unfold ladder_zero. rewrite updateFilterCoefficients_writes in *.
    cbn [stage stageTanh delay tune resQuad thermal set_resQuad set_tune
         set_acr set_resonance set_cutoff] in *.
    repeat (split; [ assumption | ]). now apply positive_finite.
Qed.

(** X5.  Silence in, silence out.  Take a C library whose [tanh] is 0 at
    0.  In a state whose input block, ladder arrays and DC blocker hold zeros
    and whose parameters are numbers, [filter] writes 0 to all 128 output
    samples and leaves a state of the same kind: the filter stays silent for
    as long as it is fed silence, whatever the cutoff and the resonance
    are. *)
Theorem silence_in_silence_out (s : State) :
  wf s -> quiet s ->
  (forall i : nat,
      (i < WEBEAUDIO_FRAME_SIZE)%nat ->
      (outputBuffer (filter s)).[i] =~ Fin 0)
  /\ quiet (filter s).
Proof.
  intros Hwf Hq.
  pose proof (@quiet_ladder _ Hq) as H0.
  pose proof (@finite_state_filter _ _ (@quiet_finite_state _ Hq)) as Hf.
  destruct Hq as (Hin & Hs & Hc & Hd & Hdi & Hdo & Hrest).
  split.
  - intros i Hi. apply zero_feq. rewrite filter_output by assumption.
    rewrite seq_S, fold_left_app. cbn [fold_left].
    destruct (@zero_sample_loop (seq 0 i) (smooth_and_update s))
      as (A & B & C & D); try assumption.
    destruct (@zero_filter_sample _ (0 + i)%nat A B C D) as (_ & _ & _ & _ & F).
    exact F.
  - destruct (@zero_sample_loop (seq 0 WEBEAUDIO_FRAME_SIZE)
                (smooth_and_update s))
      as (A & B & C & (D1 & D2 & D3 & _)); try assumption.
    assert (Ef : fold_left filter_sample (seq 0 WEBEAUDIO_FRAME_SIZE)
                   (smooth_and_update s) = filter s) by reflexivity.
    rewrite Ef in A, B, C, D1, D2, D3. clear Ef.
    destruct Hf as (_ & _ & _ & _ & _ & _ & Hf).
    unfold quiet. repeat (split; [ assumption | ]). exact Hf.
Qed.

End Silence.

Lemma rational_tanh_proper (x y : Q) :
  x == y -> tanhQ (Libm := rational_libm) x == tanhQ (Libm := rational_libm) y.
Proof. intros H. simpl. now rewrite H. Qed.

Lemma quiet_fresh_silence :
  quiet (run (L := rational_libm) (WriteInput silence) fresh).
Proof.
  change (run (L := rational_libm) (WriteInput silence) fresh)
    with (set_inputBuffer silence fresh).
  assert (Z : forall n, Forall zero (repeat (Fin 0) n)).
  { induction n; simpl; constructor; auto. reflexivity. }
  unfold quiet, silence.
  cbn [inputBuffer stage stageTanh delay dcBlockInput dcBlockOutput thermal
       cutoff resonance targetCutoff targetResonance cutoffSmoothing
       resonanceSmoothing set_inputBuffer fresh].
  do 4 (split; [ apply Z | ]).
  do 2 (split; [ reflexivity | ]).
  split; [ exists 0.000025; split; reflexivity | ].
  repeat (split; [ apply finite_Fin | ]). apply finite_Fin.
Qed.

(** X5 on a fresh module fed silence. *)
Lemma silence_witness :
  (outputBuffer
     (filter (L := rational_libm)
        (run (L := rational_libm) (WriteInput silence) fresh))).[7]
  =~ Fin 0.
Proof.
  apply (proj1 (@silence_in_silence_out rational_libm
                  (eq_refl : tanhQ (Libm := rational_libm) 0 == 0)
                  rational_tanh_proper
                  (run (L := rational_libm) (WriteInput silence) fresh)
                  (wf_run (WriteInput silence) wf_fresh)
                  quiet_fresh_silence)).
  unfold WEBEAUDIO_FRAME_SIZE. lia.
Defined.

(** ** Range of the coefficients *)

Section CoefficientRange.

Context {L : Libm}.

(** The exponential of the C library on arguments that are not positive. *)
Hypothesis exp_range : forall x : Q, x <= 0 -> 0 < expQ x /\ expQ x <= 1.

Lemma clamped_fc_range (c : Q) (s : State) :
  cutoff s = Fin c -> 0 <= c ->
  exists fc : Q, clamped_fc s = Fin fc /\ 0 <= fc /\ fc <= 0.45.
Proof.
  intros Hc H0.
  destruct (Qlt_le_dec (0.45 * 44100.0) c) as [Hhi | Hlo].
  - pose proof (@clamped_fc_high c s Hc (Qlt_le_weak _ _ Hhi)) as E.
    destruct (clamped_fc s) as [fc | | |]; simpl in E; try contradiction.
    exists fc. split; [ reflexivity | lra ].
  - exists (c / 44100.0). split; [ now apply clamped_fc_low | ].
    split.
    + apply Qle_shift_div_l; [ reflexivity | lra ].
    + apply Qle_shift_div_r; [ reflexivity | lra ].
Qed.

Lemma acr_range (fc : Q) :
  0 <= fc -> fc <= 0.45 ->
  0.9968 <= - 3.9364 * (fc * fc) + 1.8409 * fc + 0.9968
  /\ - 3.9364 * (fc * fc) + 1.8409 * fc + 0.9968 <= 1.2121.
Proof.
  intros H0 H1. split.
  - assert (H : 0 <= fc * (0.45 - fc)).
    { apply Qmult_le_0_compat; lra. }
    lra.
  - assert (H : 0 <= (fc - 0.2338) * (fc - 0.2338)).
    { destruct (Qlt_le_dec (fc - 0.2338) 0) as [Hn | Hp].
      - setoid_replace ((fc - 0.2338) * (fc - 0.2338))
          with ((0.2338 - fc) * (0.2338 - fc)) by ring.
        apply Qmult_le_0_compat; lra.
      - apply Qmult_le_0_compat; lra. }
    lra.
Qed.

Lemma fcr_positive (fc : Q) :
  0 <= fc -> fc <= 0.45 ->
  0 < 1.8730 * (fc * fc * fc) + 0.4955 * (fc * fc) - 0.6490 * fc + 0.9988.
Proof.
  intros H0 H1.
  assert (H2 : 0 <= fc * fc) by (apply Qmult_le_0_compat; lra).
  assert (H3 : 0 <= fc * fc * fc) by (apply Qmult_le_0_compat; lra).
  lra.
Qed.

(** X6.  For a live cutoff that is a non-negative number (of any size), a
    resonance that is a number and a strictly positive thermal constant, and a
    C library whose [exp] is in (0, 1] on arguments that are not positive,
    [updateFilterCoefficients] writes numbers in fixed ranges: [acr] is
    between 0.9968 and 1.2121, [tune * thermal] is in [0, 1), and [resQuad] is
    4 * resonance * acr, so a resonance in [0, 1] gives a feedback gain
    [resQuad] between 0 and 4.8484. *)
Theorem coefficient_ranges (c r th : Q) (s : State) :
  cutoff s = Fin c -> resonance s = Fin r -> thermal s = Fin th ->
  0 <= c -> 0 < th ->
  exists a t q : Q,
    acr (updateFilterCoefficients s) = Fin a
    /\ tune (updateFilterCoefficients s) = Fin t
    /\ resQuad (updateFilterCoefficients s) = Fin q
    /\ 0.9968 <= a <= 1.2121
    /\ 0 <= t * th < 1
    /\ q == 4 * r * a
    /\ (0 <= r <= 1 -> 0 <= q <= 4.8484).
Proof.
  intros Hc Hr Hth H0 Hpos.
  destruct (clamped_fc_range s Hc H0) as (fc & Efc & Hfc0 & Hfc1).
  rewrite updateFilterCoefficients_writes.
  cbn [acr tune resQuad set_resQuad set_tune set_acr].
  rewrite Efc, Hr, Hth.
  pose proof (acr_range Hfc0 Hfc1) as (Ha0 & Ha1).
  pose proof (fcr_positive Hfc0 Hfc1) as Hfcr.
  set (a := - 3.9364 * (fc * fc) + 1.8409 * fc + 0.9968) in *.
  set (fcr := 1.8730 * (fc * fc * fc) + 0.4955 * (fc * fc) - 0.6490 * fc
              + 0.9988) in *.
  set (x := - (2 * 3.14159265359 * (fc * 0.5) * fcr)).
  assert (Hx : x <= 0).
  { unfold x. assert (0 <= fc * fcr) by (apply Qmult_le_0_compat; lra).
    setoid_replace (- (2 * 3.14159265359 * (fc * 0.5) * fcr))
      with (- (3.14159265359 * (fc * fcr))) by ring.
    assert (0 <= 3.14159265359 * (fc * fcr))
      by (apply Qmult_le_0_compat; [ discriminate | assumption ]).
    lra. }
  destruct (exp_range Hx) as (He0 & He1).
  exists a, ((1.0 - expQ x) / th), (4.0 * r * a).
  split; [ reflexivity | ].
  split.
  { unfold mapper_tune, PI. cbv zeta.
    cbn [fmul fadd fsub fneg exp]. fold fcr. fold x.
    now rewrite fdiv_pos. }
  split; [ reflexivity | ].
  split; [ split; assumption | ].
  split.
  { assert (E : (1.0 - expQ x) / th * th == 1.0 - expQ x).
    { field. lra. }
    rewrite E. split; lra. }
  split; [ ring | ].
  intros (Hr0 & Hr1).
  assert (P1 : 0 <= r * a) by (apply Qmult_le_0_compat; lra).
  assert (P2 : 0 <= (1 - r) * a) by (apply Qmult_le_0_compat; lra).
  split; lra.
Qed.

End CoefficientRange.

Lemma rational_exp_range (x : Q) :
  x <= 0 ->
  0 < expQ (Libm := rational_libm) x /\ expQ (Libm := rational_libm) x <= 1.
Proof.
  intros Hx. simpl. apply Qle_bool_iff in Hx as Hb. rewrite Hb.
  split.
  - apply Qlt_shift_div_l; lra.
  - apply Qle_shift_div_r; lra.
Qed.

(** X6 on a fresh module: cutoff 1000, resonance 0.1. *)
Lemma coefficient_ranges_witness :
  exists a t q : Q,
    acr (updateFilterCoefficients (L := rational_libm) fresh) = Fin a
    /\ tune (updateFilterCoefficients (L := rational_libm) fresh) = Fin t
    /\ resQuad (updateFilterCoefficients (L := rational_libm) fresh) = Fin q
    /\ 0.9968 <= a <= 1.2121
    /\ 0 <= t * 0.000025 < 1
    /\ q == 4 * 0.1 * a
    /\ (0 <= 0.1 <= 1 -> 0 <= q <= 4.8484).
Proof.
  apply (@coefficient_ranges rational_libm rational_exp_range
           1000.0 0.1 0.000025 fresh);
    first [ reflexivity | discriminate ].
Defined.

(** ** The manual cutoff *)

Section ManualCutoff.

Context {L : Libm}.

Ltac branches :=
  cbv zeta;
  repeat match goal with
    | |- context [if ?b then _ else _] => destruct b
    end.

Lemma updateEnvelope_active (t : flt) (s : State) :
  envelopeActive (updateEnvelope t s) = envelopeActive s
  /\ manualCutoff (updateEnvelope t s) = manualCutoff s.
Proof.
  unfold updateEnvelope, envelope_output. branches; split; reflexivity.
Qed.

Lemma manual_tracks_run (c : call) (s : State) :
  phase_ok s -> manual_tracks s ->
  (c = Init -> envelopeActive s = 0%Z) ->
  manual_tracks (run c s).
Proof.
  intros (Hph & _) Hm Hinit. unfold manual_tracks in *.
  destruct c; simpl run.
  - destruct (length block =? WEBEAUDIO_FRAME_SIZE)%nat; exact Hm.
  - unfold setCutoff. cbv zeta. cbn [envelopeActive set_manualCutoff].
    destruct (envelopeActive s =? 0)%Z eqn:E.
    + intros _. reflexivity.
    + apply Z.eqb_neq in E. intros H. contradiction.
  - exact Hm.
  - unfold setEnvelopeActive. cbv zeta.
    destruct (active =? 0)%Z eqn:E.
    + intros _. reflexivity.
    + apply Z.eqb_neq in E. intros H. contradiction.
  - unfold setEnvelopeCutoff. cbv zeta. cbn [envelopeActive set_envelopeCutoff].
    destruct (envelopeActive s =? 0)%Z eqn:E.
    + exact Hm.
    + apply Z.eqb_neq in E. intros H. contradiction.
  - exact Hm.
  - exact Hm.
  - intros H. discriminate H.
  - exact Hm.
  - destruct (updateEnvelope_active time s) as (Ea & _).
    rewrite Ea. intros H. rewrite updateEnvelope_idle by (apply Hph; exact H).
    exact (Hm H).
  - specialize (Hinit eq_refl). intros _.
    unfold init, setCutoff, setResonance. cbv zeta.
    cbn [envelopeActive set_manualCutoff set_stageTanh set_delay set_stage].
    rewrite Hinit. reflexivity.
  - destruct (filter_controls s)
      as (_ & _ & Et & _ & _ & _ & Em & _ & Ea & _).
    rewrite Et, Em, Ea. exact Hm.
Qed.

(** X7.  As long as the host does not call [init] while the envelope is
    active, the filter aims at the manual cutoff whenever the envelope is
    inactive: in every state of such a run from a state with this property (a
    freshly loaded module has it), [envelopeActive = 0] gives
    [targetCutoff = manualCutoff]. *)
Theorem inactive_target_is_manual (cs : list call) (s : State) :
  phase_ok s -> manual_tracks s -> init_when_inactive cs s ->
  manual_tracks (run_all cs s).
Proof.
  revert s. induction cs as [ | c cs IH]; intros s Hp Hm Hi.
  - exact Hm.
  - destruct Hi as (Hc & Hi).
    change (run_all (c :: cs) s) with (run_all cs (run c s)).
    apply IH; [ apply phase_run; exact Hp | | exact Hi ].
    apply manual_tracks_run; assumption.
Qed.

Lemma manualCutoff_run (c : call) (s : State) :
  keeps_manual c -> manualCutoff (run c s) = manualCutoff s.
Proof.
  intros Hk. destruct c; simpl in Hk; try contradiction; simpl run.
  - destruct (length block =? WEBEAUDIO_FRAME_SIZE)%nat; reflexivity.
  - reflexivity.
  - unfold setEnvelopeActive. branches; reflexivity.
  - unfold setEnvelopeCutoff. branches; reflexivity.
  - reflexivity.
  - reflexivity.
  - reflexivity.
  - reflexivity.
  - exact (proj2 (updateEnvelope_active time s)).
  - destruct (filter_controls s) as (_ & _ & _ & _ & _ & _ & Em & _).
    exact Em.
Qed.

Lemma manualCutoff_run_all (cs : list call) (s : State) :
  Forall keeps_manual cs -> manualCutoff (run_all cs s) = manualCutoff s.
Proof.
  intros H. revert s. induction H as [ | c cs Hc _ IH]; intros s.
  - reflexivity.
  - change (run_all (c :: cs) s) with (run_all cs (run c s)).
    rewrite IH. apply manualCutoff_run. exact Hc.
Qed.

(** X8.  Switching the envelope off gives the filter back to the knob:
    after [setCutoff c], whatever the host calls next other than [setCutoff]
    and [init] (triggers, envelope updates, blocks of audio),
    [setEnvelopeActive 0] sets the target cutoff to [c], the phase to Idle,
    and leaves the envelope inactive. *)
Theorem envelope_off_restores_manual (c : flt) (cs : list call) (s : State) :
  Forall keeps_manual cs ->
  let s' := run (SetEnvelopeActive 0) (run_all cs (run (SetCutoff c) s)) in
  targetCutoff s' = c
  /\ manualCutoff s' = c
  /\ envelopePhase s' = 0%Z
  /\ envelopeActive s' = 0%Z.
Proof.
  intros H s'. subst s'.
  assert (E : manualCutoff (run_all cs (run (SetCutoff c) s)) = c).
  { rewrite manualCutoff_run_all by exact H. simpl run.
    unfold setCutoff. branches; reflexivity. }
  revert E. generalize (run_all cs (run (SetCutoff c) s)). intros s1 E.
  simpl run. unfold setEnvelopeActive. cbv zeta.
  change (0 =? 0)%Z with true. cbv iota.
  repeat split; exact E.
Qed.

End ManualCutoff.

(** X7 on a fresh module: a note is triggered, the knob is turned while the
    envelope runs, and the envelope is switched off. *)
Lemma inactive_target_witness :
  manual_tracks
    (run_all (L := rational_libm)
       [SetEnvelopeAttack (Fin 200) (Fin 2000) (Fin 0.5);
        UpdateEnvelope (Fin 0.25);
        SetCutoff (Fin 440);
        SetEnvelopeActive 0] fresh).
Proof.
  apply (@inactive_target_is_manual rational_libm).
  - split; [ reflexivity | cbn; lia ].
  - intros _. reflexivity.
  - cbn [init_when_inactive]. repeat split; discriminate.
Defined.

(** X8 on a fresh module: the knob is set to 440 Hz, a note is triggered and
    advanced, and the envelope is switched off. *)
Lemma envelope_off_witness :
  targetCutoff
    (run (L := rational_libm) (SetEnvelopeActive 0)
       (run_all (L := rational_libm)
          [SetEnvelopeAttack (Fin 200) (Fin 2000) (Fin 0.5);
           UpdateEnvelope (Fin 0.25)]
          (run (L := rational_libm) (SetCutoff (Fin 440)) fresh)))
  = Fin 440.
Proof.
  apply (@envelope_off_restores_manual rational_libm (Fin 440)
           [SetEnvelopeAttack (Fin 200) (Fin 2000) (Fin 0.5);
            UpdateEnvelope (Fin 0.25)] fresh).
  repeat constructor.
Defined.

(** ** The onset of the decay, and repeated updates *)

Section DecayOnset.

Context {L : Libm}.

(** X9.  The call of [updateEnvelope] that ends the attack does not put the
    envelope cutoff at the attack target [b] (twice the peak): it sets up the
    decay from [b] to [e = b + (manualCutoff - b) * (1 - sustainLevel)] and
    then evaluates it with progress 1, so the envelope cutoff and the target
    cutoff of the filter jump to the end [e] of the decay at once.  Every
    later call within the decay time puts the cutoff back on the line from
    [b] to [e]; a second call at the same time gives [b]. *)
Theorem decay_onset_jumps_to_sustain (b t0 d t m sl dd : Q) (s : State) :
  envelopePhase s = 1%Z ->
  envelopeTargetCutoff s = Fin b ->
  envelopeStartTime s = Fin t0 ->
  envelopeDuration s = Fin d ->
  manualCutoff s = Fin m ->
  envelopeSustainLevel s = Fin sl ->
  envelopeDecayTime s = Fin dd ->
  0 < d -> 0 < dd ->
  t0 + d <= t ->
  let e := b + (m - b) * (1.0 - sl) in
  let s1 := updateEnvelope (Fin t) s in
  envelopeCutoff s1 =~ Fin e
  /\ targetCutoff s1 =~ Fin e
  /\ envelopeCutoff (updateEnvelope (Fin t) s1) =~ Fin b
  /\ (forall t' : Q,
         t <= t' < t + dd ->
         envelopeCutoff (updateEnvelope (Fin t') s1)
         = Fin (ramp b e t dd t')).
Proof.
  intros Hph Hb Ht0 Hd Hm Hsl Hdd Hpos Hdpos Ht e s1.
  destruct (@updateEnvelope_to_decay _ b t0 d t m sl s Hph Hb Ht0 Hd Hm Hsl
              Hpos Ht) as (P & A & B & T & D).
  fold s1 in P, A, B, T, D. fold e in B. rewrite Hdd in D.
  assert (Ec : envelopeCutoff s1 =~ Fin e /\ targetCutoff s1 =~ Fin e).
  { unfold s1. rewrite updateEnvelope_attack_done; [ | exact Hph | ].
    - cbn [envelopeCutoff targetCutoff envelope_output set_envelopeCutoff
           set_targetCutoff updateFilterCoefficients set_acr set_tune
           set_resQuad envelopeStartCutoff envelopeTargetCutoff
           set_envelopePhase set_envelopeDuration set_envelopeStartTime
           set_envelopeTargetCutoff set_envelopeStartCutoff set_currentTime].
      rewrite Hb, Hm, Hsl. unfold e. simpl. split; ring.
    - rewrite (envelope_progress_fin t s Ht0 Hd Hpos). apply fge_fin.
      apply progress_ge_1 in Ht; [ | exact Hpos ]. lra. }
  assert (Hramp : forall t' : Q,
             t <= t' < t + dd ->
             envelopeCutoff (updateEnvelope (Fin t') s1)
             = Fin (ramp b e t dd t')).
  { intros t' (_ & Hlt).
    assert (P0 : envelopePhase s1 <> 0%Z) by (rewrite P; discriminate).
    exact (proj1 (@updateEnvelope_ramp _ b e t dd t' s1 P0 A B T D Hdpos
                    Hlt)). }
  split; [ exact (proj1 Ec) | ]. split; [ exact (proj2 Ec) | ].
  split; [ | exact Hramp ].
  rewrite Hramp by lra. simpl. apply ramp_start. exact Hdpos.
Qed.

Lemma set_currentTime_twice (t : flt) (s : State) :
  set_currentTime t (set_currentTime t s) = set_currentTime t s.
Proof. destruct s. reflexivity. Qed.

Lemma envelope_output_twice (p t : flt) (s : State) :
  envelope_output p (set_currentTime t (envelope_output p s))
  = envelope_output p (set_currentTime t s).
Proof. destruct s. reflexivity. Qed.

Lemma envelope_output_time (p t : flt) (s : State) :
  currentTime s = t ->
  set_currentTime t (envelope_output p s) = envelope_output p s.
Proof. intros E. destruct s. simpl in E. subst t. reflexivity. Qed.

Lemma updateEnvelope_other (t : flt) (s : State) :
  envelopePhase s <> 0%Z -> envelopePhase s <> 1%Z ->
  envelopePhase s <> 2%Z -> envelopePhase s <> 3%Z ->
  fge (envelope_progress (set_currentTime t s)) (Fin 1.0) = true ->
  updateEnvelope t s = envelope_output (Fin 1.0) (set_currentTime t s).
Proof.
  intros H0 H1 H2 H3 Hp. unfold updateEnvelope. cbv zeta.
  rewrite Hp. cbn [envelopePhase set_currentTime].
  apply Z.eqb_neq in H0, H1, H2, H3. rewrite H0, H1, H2, H3. reflexivity.
Qed.

(** X10.  Calling [updateEnvelope] twice with the same time is the same as
    calling it once, in every state and for every time (a number or not),
    but for the one call that ends the attack. *)
Theorem updateEnvelope_idempotent (t : flt) (s : State) :
  (envelopePhase s = 1%Z ->
   fge (envelope_progress (set_currentTime t s)) (Fin 1.0) = false) ->
  updateEnvelope t (updateEnvelope t s) = updateEnvelope t s.
Proof.
  intros H.
  destruct (Z.eq_dec (envelopePhase s) 0) as [E0 | N0].
  { rewrite (updateEnvelope_idle t s E0).
    rewrite updateEnvelope_idle by exact E0.
    apply set_currentTime_twice. }
  destruct (fge (envelope_progress (set_currentTime t s)) (Fin 1.0)) eqn:Hp.
  - destruct (Z.eq_dec (envelopePhase s) 1) as [E1 | N1].
    { specialize (H E1). discriminate H. }
    destruct (Z.eq_dec (envelopePhase s) 2) as [E2 | N2].
    { rewrite (updateEnvelope_decay_done t s E2 Hp).
      rewrite updateEnvelope_held; [ | reflexivity | exact Hp ].
      apply envelope_output_time. reflexivity. }
    destruct (Z.eq_dec (envelopePhase s) 3) as [E3 | N3].
    { rewrite (updateEnvelope_held t s E3 Hp).
      rewrite updateEnvelope_held; [ | exact E3 | ].
      - apply set_currentTime_twice.
      - rewrite set_currentTime_twice. exact Hp. }
    rewrite (updateEnvelope_other t s N0 N1 N2 N3 Hp).
    rewrite updateEnvelope_other by assumption.
    rewrite envelope_output_time by reflexivity.
    apply envelope_output_twice.
  - rewrite (updateEnvelope_running t s N0 Hp).
    rewrite updateEnvelope_running; [ | exact N0 | exact Hp ].
    change (envelope_progress
              (set_currentTime t
                 (envelope_output (envelope_progress (set_currentTime t s))
                    (set_currentTime t s))))
      with (envelope_progress (set_currentTime t s)).
    generalize (envelope_progress (set_currentTime t s)). intros p.
    rewrite envelope_output_time by reflexivity.
    apply envelope_output_twice.
Qed.

End DecayOnset.

(** X9 on a fresh module: attack from 200 to 2 * 2000 over 0.5 s, the knob
    at 1000 and the sustain level at 0.5; the call at 0.5 s gives 2500. *)
Lemma decay_onset_witness :
  envelopeCutoff
    (updateEnvelope (L := rational_libm) (Fin 0.5)
       (setEnvelopeAttack (Fin 200) (Fin 2000) (Fin 0.5) fresh))
  =~ Fin (2000 * 2.0 + (1000.0 - 2000 * 2.0) * (1.0 - 0.5)).
Proof.
  refine (proj1 (@decay_onset_jumps_to_sustain rational_libm
                   (2000 * 2.0) 0.0 0.5 0.5 1000.0 0.5 0.5
                   (setEnvelopeAttack (Fin 200) (Fin 2000) (Fin 0.5) fresh)
                   eq_refl eq_refl eq_refl eq_refl eq_refl eq_refl eq_refl
                   eq_refl eq_refl _)).
  discriminate.
Defined.

(** X10 on a fresh module during an attack. *)
Lemma updateEnvelope_idempotent_witness :
  updateEnvelope (L := rational_libm) (Fin 0.25)
    (updateEnvelope (L := rational_libm) (Fin 0.25)
       (setEnvelopeAttack (Fin 200) (Fin 2000) (Fin 0.5) fresh))
  = updateEnvelope (L := rational_libm) (Fin 0.25)
      (setEnvelopeAttack (Fin 200) (Fin 2000) (Fin 0.5) fresh).
Proof.
  apply (@updateEnvelope_idempotent rational_libm).
  intros _. reflexivity.
Defined.

(** ** What the audio path reads *)

Section AudioPath.

Context {L : Libm}.

Ltac sized_lists :=
  repeat match goal with
    | H : length ?l = _ |- _ =>
        is_var l; destruct l; simpl in H; try discriminate H;
        try (injection H as H)
    | H : length [] = _ |- _ => clear H
    | H : O = O |- _ => clear H
    end.

(** One sub-step writes [stage] before it reads it, so the contents of
    [stage] before the sub-step do not matter. *)
Lemma same_ladder_substep (dc : flt) (s1 s2 : State) :
  wf s1 -> wf s2 -> same_ladder s1 s2 ->
  same_ladder (ladder_substep dc s1) (ladder_substep dc s2).
Proof.
  intros (_ & _ & Hs1 & Hc1 & Hd1) (_ & _ & Hs2 & _ & _).
  intros ((Ei & Ec & Ed & Edi & Edo & Eth & Ecu & Ere & Etc & Etr & Ecs
           & Ers) & Etu & Erq).
  destruct s1 as [ib ob st c d th tu ac rq cu re tc tr cs rs dbi dbo mc ec ea
                    esc etc est ed edt esl ep ct].
  destruct s2 as [ib' ob' st' c' d' th' tu' ac' rq' cu' re' tc' tr' cs' rs'
                    dbi' dbo' mc' ec' ea' esc' etc' est' ed' edt' esl' ep'
                    ct'].
  cbn [inputBuffer stage stageTanh delay tune resQuad thermal cutoff
       resonance targetCutoff targetResonance cutoffSmoothing
       resonanceSmoothing dcBlockInput dcBlockOutput] in *.
  subst ib' c' d' dbi' dbo' th' cu' re' tc' tr' cs' rs' tu' rq'.
  sized_lists.
  cbv -[enhanced_tanh fadd fsub fmul fdiv].
  repeat split.
Qed.

Lemma same_ladder_filter_sample (s1 s2 : State) (i : nat) :
  wf s1 -> wf s2 -> same_ladder s1 s2 ->
  same_ladder (filter_sample s1 i) (filter_sample s2 i).
Proof.
  intros H1 H2 H. rewrite !filter_sample_unfold. cbv zeta.
  destruct H as ((Ei & Ec & Ed & Edi & Edo & Eth & Ecu & Ere & Etc & Etr
                  & Ecs & Ers) & Etu & Erq).
  rewrite <- Ei, <- Edi, <- Edo.
  set (x := (inputBuffer s1).[i]).
  set (dc := spec_dc x (dcBlockInput s1) (dcBlockOutput s1)).
  set (a1 := set_dcBlockOutput dc (set_dcBlockInput x s1)).
  set (a2 := set_dcBlockOutput dc (set_dcBlockInput x s2)).
  assert (Ha : same_ladder a1 a2).
  { unfold same_ladder, same_audio. subst a1 a2.
    cbn [inputBuffer stageTanh delay dcBlockInput dcBlockOutput thermal cutoff
         resonance targetCutoff targetResonance cutoffSmoothing
         resonanceSmoothing tune resQuad set_dcBlockOutput set_dcBlockInput].
    repeat split; assumption. }
  assert (W1 : wf a1) by exact H1.
  assert (W2 : wf a2) by exact H2.
  pose proof (same_ladder_substep dc (wf_ladder_substep dc W1)
                (wf_ladder_substep dc W2)
                (same_ladder_substep dc W1 W2 Ha)) as Hb.
  revert Hb.
  generalize (ladder_substep dc (ladder_substep dc a1)).
  generalize (ladder_substep dc (ladder_substep dc a2)).
  intros b2 b1 ((Fi & Fc & Fd & Frest) & Ftu & Frq).
  unfold same_ladder, same_audio.
  cbn [inputBuffer stageTanh delay dcBlockInput dcBlockOutput thermal cutoff
       resonance targetCutoff targetResonance cutoffSmoothing
       resonanceSmoothing tune resQuad set_outputBuffer].
  repeat split; try assumption; apply Frest.
Qed.

Lemma same_ladder_sample_loop (l : list nat) (s1 s2 : State) :
  wf s1 -> wf s2 -> same_ladder s1 s2 ->
  same_ladder (fold_left filter_sample l s1) (fold_left filter_sample l s2).
Proof.
  revert s1 s2. induction l as [ | i l IH]; intros s1 s2 H1 H2 H.
  - exact H.
  - cbn [fold_left].
    apply IH; [ now apply wf_filter_sample | now apply wf_filter_sample | ].
    now apply same_ladder_filter_sample.
Qed.

Lemma same_ladder_smooth (s1 s2 : State) :
  same_audio s1 s2 ->
  same_ladder (smooth_and_update s1) (smooth_and_update s2).
Proof.
  intros (Ei & Ec & Ed & Edi & Edo & Eth & Ecu & Ere & Etc & Etr & Ecs & Ers).
  unfold smooth_and_update. cbv zeta.
  rewrite !updateFilterCoefficients_writes.
  unfold same_ladder, same_audio, clamped_fc. cbv zeta.
  cbn [inputBuffer stageTanh delay dcBlockInput dcBlockOutput thermal cutoff
       resonance targetCutoff targetResonance cutoffSmoothing
       resonanceSmoothing tune resQuad set_resQuad set_tune set_acr
       set_resonance set_cutoff].
  rewrite Ei, Ec, Ed, Edi, Edo, Eth, Ecu, Ere, Etc, Etr, Ecs, Ers.
  repeat split.
Qed.

Lemma same_audio_outputs (s1 s2 : State) (i : nat) :
  wf s1 -> wf s2 -> same_audio s1 s2 ->
  (i < WEBEAUDIO_FRAME_SIZE)%nat ->
  (outputBuffer (filter s1)).[i] = (outputBuffer (filter s2)).[i].
Proof.
  intros H1 H2 H Hi. rewrite !filter_output by assumption.
  assert (W1 : wf (smooth_and_update s1)) by exact H1.
  assert (W2 : wf (smooth_and_update s2)) by exact H2.
  destruct (same_ladder_sample_loop (seq 0 (S i)) W1 W2
              (same_ladder_smooth H)) as ((_ & _ & E & _) & _).
  rewrite E. reflexivity.
Qed.

(** X11.  The audio path reads nothing but the input block, the saturator
    caches, the delay line, the DC blocker's memory, the live and target
    cutoff and resonance and the constants: two states that agree on these
    give the same 128 output samples and agree on them again afterwards,
    whatever their envelope variables, manual cutoff, coefficients, [stage]
    array and output buffer hold. *)
Theorem filter_reads_audio_state_only (s1 s2 : State) :
  wf s1 -> wf s2 -> same_audio s1 s2 ->
  (forall i : nat,
      (i < WEBEAUDIO_FRAME_SIZE)%nat ->
      (outputBuffer (filter s1)).[i] = (outputBuffer (filter s2)).[i])
  /\ same_audio (filter s1) (filter s2).
Proof.
  intros H1 H2 H. split.
  - intros i Hi. now apply same_audio_outputs.
  - assert (W1 : wf (smooth_and_update s1)) by exact H1.
    assert (W2 : wf (smooth_and_update s2)) by exact H2.
    exact (proj1 (same_ladder_sample_loop (seq 0 WEBEAUDIO_FRAME_SIZE) W1 W2
                    (same_ladder_smooth H))).
Qed.





End AudioPath.

(** X11 on a fresh module and one in which a release was requested. *)
Lemma filter_reads_witness :
  (outputBuffer (filter (L := rational_libm) fresh)).[0]
  = (outputBuffer
       (filter (L := rational_libm)
          (setEnvelopeRelease (Fin 500) (Fin 1) fresh))).[0].
Proof.
  refine (proj1 (@filter_reads_audio_state_only rational_libm fresh
                   (setEnvelopeRelease (Fin 500) (Fin 1) fresh)
                   wf_fresh wf_fresh _) 0%nat _).
  - repeat split.
  - unfold WEBEAUDIO_FRAME_SIZE. lia.
Defined.


(** ** Control calls *)

Section ControlCalls.

Context {L : Libm}.

Ltac branches :=
  cbv zeta;
  repeat match goal with
    | |- context [if ?b then _ else _] => destruct b
    end.

Lemma audio_memory_run (c : call) (s : State) :
  is_control c -> audio_memory (run c s) = audio_memory s.
Proof.
  intros Hc. destruct c; simpl in Hc; try contradiction; simpl run.
  - unfold setCutoff. branches; reflexivity.
  - reflexivity.
  - unfold setEnvelopeActive. branches; reflexivity.
  - unfold setEnvelopeCutoff. branches; reflexivity.
  - reflexivity.
  - reflexivity.
  - reflexivity.
  - reflexivity.
  - unfold updateEnvelope, envelope_output. branches; reflexivity.
Qed.

(** X13.  Setting parameters and driving the envelope never touches the
    memory of the audio path: after any sequence of calls other than writing
    a block, [init] and [filter], the two buffers, the three ladder arrays,
    the DC blocker's memory and the live cutoff and resonance are what they
    were.  The next block starts from what the previous block left. *)
Theorem control_calls_keep_audio_memory (cs : list call) (s : State) :
  Forall is_control cs ->
  audio_memory (run_all cs s) = audio_memory s.
Proof.
  intros H. revert s. induction H as [ | c cs Hc _ IH]; intros s.
  - reflexivity.
  - change (run_all (c :: cs) s) with (run_all cs (run c s)).
    rewrite IH. apply audio_memory_run. exact Hc.
Qed.

Lemma envelope_output_sustain (p x : flt) (s : State) :
  envelope_output p (set_envelopeSustainLevel x s)
  = set_envelopeSustainLevel x (envelope_output p s).
Proof. destruct s. reflexivity. Qed.

Lemma envelope_output_decay (p x : flt) (s : State) :
  envelope_output p (set_envelopeDecayTime x s)
  = set_envelopeDecayTime x (envelope_output p s).
Proof. destruct s. reflexivity. Qed.

Lemma updateEnvelope_cases (t : flt) (s : State) :
  (envelopePhase s = 1%Z ->
   fge (envelope_progress (set_currentTime t s)) (Fin 1.0) = false) ->
  updateEnvelope t s
  = if (envelopePhase s =? 0)%Z then set_currentTime t s
    else if fge (envelope_progress (set_currentTime t s)) (Fin 1.0) then
      if (envelopePhase s =? 2)%Z then
        envelope_output (Fin 1.0) (set_envelopePhase 3 (set_currentTime t s))
      else if (envelopePhase s =? 3)%Z then set_currentTime t s
      else envelope_output (Fin 1.0) (set_currentTime t s)
    else envelope_output (envelope_progress (set_currentTime t s))
           (set_currentTime t s).
Proof.
  intros H. unfold updateEnvelope. cbv zeta.
  cbn [envelopePhase set_currentTime].
  destruct (envelopePhase s =? 0)%Z; [ reflexivity | ].
  destruct (fge (envelope_progress (set_currentTime t s)) (Fin 1.0));
    [ | reflexivity ].
  destruct (envelopePhase s =? 1)%Z eqn:E1; [ | reflexivity ].
  apply Z.eqb_eq in E1. specialize (H E1). discriminate H.
Qed.

(** X14.  The decay time and the sustain level are read by one statement
    only, the one that ends the attack: on every other call of
    [updateEnvelope] (during the attack, during the decay, in Held, when
    idle) setting either of them before the call or after it gives the same
    state, so a change made during the decay does not alter the decay that
    is running. *)
Theorem decay_settings_are_read_at_attack_end (t x : flt) (s : State) :
  (envelopePhase s = 1%Z ->
   fge (envelope_progress (set_currentTime t s)) (Fin 1.0) = false) ->
  updateEnvelope t (setEnvelopeSustainLevel x s)
  = setEnvelopeSustainLevel x (updateEnvelope t s)
  /\ updateEnvelope t (setEnvelopeDecayTime x s)
     = setEnvelopeDecayTime x (updateEnvelope t s).
Proof.
  intros H. unfold setEnvelopeSustainLevel, setEnvelopeDecayTime.
  rewrite (updateEnvelope_cases t s H).
  rewrite (updateEnvelope_cases t (set_envelopeSustainLevel x s) H).
  rewrite (updateEnvelope_cases t (set_envelopeDecayTime x s) H).
  change (envelopePhase (set_envelopeSustainLevel x s))
    with (envelopePhase s).
  change (envelopePhase (set_envelopeDecayTime x s)) with (envelopePhase s).
  change (envelope_progress (set_currentTime t (set_envelopeSustainLevel x s)))
    with (envelope_progress (set_currentTime t s)).
  change (envelope_progress (set_currentTime t (set_envelopeDecayTime x s)))
    with (envelope_progress (set_currentTime t s)).
  generalize (envelope_progress (set_currentTime t s)). intros p.
  change (set_currentTime t (set_envelopeSustainLevel x s))
    with (set_envelopeSustainLevel x (set_currentTime t s)).
  change (set_currentTime t (set_envelopeDecayTime x s))
    with (set_envelopeDecayTime x (set_currentTime t s)).
  change (set_envelopePhase 3
            (set_envelopeSustainLevel x (set_currentTime t s)))
    with (set_envelopeSustainLevel x
            (set_envelopePhase 3 (set_currentTime t s))).
  change (set_envelopePhase 3
            (set_envelopeDecayTime x (set_currentTime t s)))
    with (set_envelopeDecayTime x
            (set_envelopePhase 3 (set_currentTime t s))).
  rewrite !envelope_output_sustain, !envelope_output_decay.
  destruct (envelopePhase s =? 0)%Z; [ split; reflexivity | ].
  destruct (fge p (Fin 1.0)); [ | split; reflexivity ].
  destruct (envelopePhase s =? 2)%Z; [ split; reflexivity | ].
  destruct (envelopePhase s =? 3)%Z; split; reflexivity.
Qed.

End ControlCalls.

(** X13 on a fresh module: a note is played and the knobs are turned. *)
Lemma control_calls_witness :
  audio_memory
    (run_all (L := rational_libm)
       [SetCutoff (Fin 440); SetResonance (Fin 0.7);
        SetEnvelopeAttack (Fin 200) (Fin 2000) (Fin 0.5);
        UpdateEnvelope (Fin 0.25); SetEnvelopeActive 0] fresh)
  = audio_memory fresh.
Proof.
  apply (@control_calls_keep_audio_memory rational_libm).
  repeat constructor.
Defined.

(** X14 during the decay of a note. *)
Lemma decay_settings_witness :
  updateEnvelope (L := rational_libm) (Fin 0.75)
    (setEnvelopeSustainLevel (Fin 0.9)
       (updateEnvelope (L := rational_libm) (Fin 0.5)
          (setEnvelopeAttack (Fin 200) (Fin 2000) (Fin 0.5) fresh)))
  = setEnvelopeSustainLevel (Fin 0.9)
      (updateEnvelope (L := rational_libm) (Fin 0.75)
         (updateEnvelope (L := rational_libm) (Fin 0.5)
            (setEnvelopeAttack (Fin 200) (Fin 2000) (Fin 0.5) fresh))).
Proof.
  refine (proj1 (@decay_settings_are_read_at_attack_end rational_libm
                   (Fin 0.75) (Fin 0.9)
                   (updateEnvelope (L := rational_libm) (Fin 0.5)
                      (setEnvelopeAttack (Fin 200) (Fin 2000) (Fin 0.5)
                         fresh)) _)).
  intros H. discriminate H.
Defined.

(** ** The asymmetry of the saturator *)

Section Asymmetry.

Context {L : Libm}.

(** The hyperbolic tangent of the C library is odd. *)
Hypothesis tanh_odd : forall x : Q, tanhQ (- x) == - tanhQ x.

Lemma enhanced_tanhQ_sum (x : Q) :
  0 < x ->
  enhanced_tanhQ x + enhanced_tanhQ (- x)
  == 0.02 * tanhQ x
     * (1.0 + 0.015 * (x / (1.0 + x)) * (1.0 / (1.0 + 2.0 * (x / (1.0 + x))))).
Proof.
  intros Hx. unfold enhanced_tanhQ. cbv zeta.
  assert (E1 : Qle_bool x 0 = false).
  { destruct (Qle_bool x 0) eqn:E; [ | reflexivity ].
    apply Qle_bool_iff in E. lra. }
  assert (E2 : Qle_bool (- x) 0 = true) by (apply Qle_bool_iff; lra).
  rewrite E1, E2. cbn [negb].
  rewrite tanh_odd, Qabs_opp.
  rewrite (Qabs_pos x) by lra.
  unfold Qdiv.
  generalize (/ (1.0 + x)). intros D.
  generalize (/ (1.0 + 2.0 * (x * D))). intros F.
  generalize (tanhQ x). intros T.
  ring.
Qed.

(** X15.  The saturator is not an odd function, and the whole difference is
    the factor 0.98 on the negative side: for a C library whose [tanh] is odd
    and every x > 0, enhanced_tanh(x) + enhanced_tanh(-x) is
    0.02 * tanh(x) * harmonic_boost(x).  The terms the code calls even
    harmonic, third harmonic and intermodulation are odd in x and cancel.  So
    where tanh(x) > 0 the sum is strictly positive: a symmetric signal
    leaves the saturator with a positive offset. *)
Theorem saturator_asymmetry (x : Q) :
  0 < x ->
  exists y z : Q,
    enhanced_tanh (Fin x) = Fin y
    /\ enhanced_tanh (Fin (- x)) = Fin z
    /\ y + z
       == 0.02 * tanhQ x
          * (1.0 + 0.015 * (x / (1.0 + x))
                   * (1.0 / (1.0 + 2.0 * (x / (1.0 + x)))))
    /\ (0 < tanhQ x -> 0 < y + z).
Proof.
  intros Hx. exists (enhanced_tanhQ x), (enhanced_tanhQ (- x)).
  split; [ apply enhanced_tanh_fin | ].
  split; [ apply enhanced_tanh_fin | ].
  pose proof (enhanced_tanhQ_sum Hx) as E.
  split; [ exact E | ].
  intros Ht. rewrite E.
  assert (HI : 0 <= x / (1.0 + x)) by (apply Qle_shift_div_l; lra).
  assert (HF : 0 <= 1.0 / (1.0 + 2.0 * (x / (1.0 + x))))
    by (apply Qle_shift_div_l; lra).
  assert (HP : 0 <= x / (1.0 + x) * (1.0 / (1.0 + 2.0 * (x / (1.0 + x)))))
    by (apply Qmult_le_0_compat; assumption).
  apply Qmult_lt_0_compat; [ apply Qmult_lt_0_compat; [ reflexivity | exact Ht ] | ].
  lra.
Qed.

End Asymmetry.

Lemma rational_tanh_odd (x : Q) :
  tanhQ (Libm := rational_libm) (- x) == - tanhQ (Libm := rational_libm) x.
Proof.
  change (- x / (1 + Qabs (- x)) == - (x / (1 + Qabs x))).
  rewrite Qabs_opp. pose proof (Qabs_nonneg x). field. lra.
Qed.

(** X15 at x = 1. *)
Lemma saturator_asymmetry_witness :
  exists y z : Q,
    enhanced_tanh (L := rational_libm) (Fin 1) = Fin y
    /\ enhanced_tanh (L := rational_libm) (Fin (- (1))) = Fin z
    /\ y + z
       == 0.02 * tanhQ (Libm := rational_libm) 1
          * (1.0 + 0.015 * (1 / (1.0 + 1))
                   * (1.0 / (1.0 + 2.0 * (1 / (1.0 + 1)))))
    /\ (0 < tanhQ (Libm := rational_libm) 1 -> 0 < y + z).
Proof.
  apply (@saturator_asymmetry rational_libm rational_tanh_odd 1).
  reflexivity.
Defined.
